(** * Loyalty backend: points ledger and tier lifecycle

    A shallow embedding of the manual points adjustment controller
    ([redeemPointsFIFO], [getManualPointsForCriteria], [addPointsIndividual],
    [addPointsBulk], [reducePoints]), of the scheduled job
    ([checkTierRetentionEligibility], [processPointsAndTiers]) and of the
    maintenance handler of the reports controller
    ([updateTransactionAppTypes]), followed by the properties proved about
    them.

    Conventions of the embedding:
    - a MongoDB collection is the list of its documents in natural order;
      the database [Db] is the record of the collections the code touches;
      [_id]s are unique in a real collection, which the properties that
      need it assume as [NoDup];
    - a handler that runs inside a [SafeTransaction] returns the committed
      database: the database it built when it reaches [commit], the database
      it started from when it calls [abort];
    - JS numbers that carry points, dates (epoch milliseconds) and levels
      are integers ([Z]); a day is 86400000 ms; enum-like string fields
      stay strings;
    - [new Date()] is the parameter [now] of the operation;
    - database operations do not fail; what the code itself can throw is
      modelled: [new RegExp] on a text that is not a regular expression,
      and the collaborators that are wrapped in [try]/[catch];
    - a row of an uploaded sheet, a JS object, is a [gmap] from column
      header to cell value.

    Layout: the model of the source; the definitions the statements are
    phrased with, and the example data; the properties, one section per
    part of the code; worked instances on the example data. *)

From stdpp Require Import base decidable option numbers list sorting
  strings pretty gmap fin_maps.

Local Open Scope Z_scope.

(** ** Documents *)

Definition ObjectId := N.

Module Tier.
Record doc := mk
  { _id : ObjectId;
    name : string;
    hierarchy_level : Z;
    points_required : Z }.
End Tier.

Module Customer.
Record doc := mk
  { _id : ObjectId;
    customer_id : string;
    tier : option ObjectId;
    total_points : Z;
    coins : Z }.

(** [{ $inc: { total_points: dp, coins: dc } }] *)
Definition inc_points_and_coins (dp dc : Z) (c : doc) : doc :=
  mk (_id c) (customer_id c) (tier c) (total_points c + dp) (coins c + dc).

(** [{ $inc: { total_points: dp } }] *)
Definition inc_total_points (dp : Z) (c : doc) : doc :=
  mk (_id c) (customer_id c) (tier c) (total_points c + dp) (coins c).

(** [{ tier: t }] *)
Definition set_tier (t : ObjectId) (c : doc) : doc :=
  mk (_id c) (customer_id c) (Some t) (total_points c) (coins c).
End Customer.

Module LoyaltyPoints.
Record doc := mk
  { _id : ObjectId;
    customer_id : ObjectId;
    points : Z;
    expiryDate : Z;
    earnedAt : Z;
    status : string;
    redeemedAt : option Z;
    transaction_id : option ObjectId }.

(** [{ status: "redeemed", redeemedAt: new Date(), points: 0 }] *)
Definition set_redeemed (now : Z) (e : doc) : doc :=
  mk (_id e) (customer_id e) 0 (expiryDate e) (earnedAt e)
     "redeemed" (Some now) (transaction_id e).

(** [{ points: p }] *)
Definition set_points (p : Z) (e : doc) : doc :=
  mk (_id e) (customer_id e) p (expiryDate e) (earnedAt e)
     (status e) (redeemedAt e) (transaction_id e).

(** [{ status: s }] *)
Definition set_status (s : string) (e : doc) : doc :=
  mk (_id e) (customer_id e) (points e) (expiryDate e) (earnedAt e)
     s (redeemedAt e) (transaction_id e).
End LoyaltyPoints.

(** One element of [usedLoyaltyPoints], the breakdown of a redemption. *)
Record UsedLoyaltyPoint := mkUsed
  { loyalty_point_id : ObjectId;
    original_points : Z;
    points_used : Z;
    fully_redeemed : bool;
    used_expiryDate : Z;
    used_earnedAt : Z }.

(** [Transaction.metadata], one variant per shape the code builds. *)
Inductive Metadata :=
  | MetaNone
  | MetaManualAdd (requested_by point_criteria_code : string)
      (manual_point_rule : option (string * Z)) (bulk_row : option Z)
  | MetaManualReduce (requested_by : string) (redeemed_points : Z)
      (used_loyalty_points : list UsedLoyaltyPoint)
  | MetaTierProtect (previous_tier enforced_minimum_tier : string)
      (total_points : Z)
  | MetaTierDowngrade (previous_tier new_tier : string) (total_points : Z)
      (downgrade_reason : string) (priority_minimum_tier : option string).

Module Transaction.
Record doc := mk
  { _id : ObjectId;
    customer_id : ObjectId;
    transaction_type : string;
    points : Z;
    transaction_id : string;
    point_criteria : option ObjectId;
    app_type : option ObjectId;
    status : string;
    note : string;
    metadata : Metadata;
    reference_id : option ObjectId;
    transaction_date : Z }.
End Transaction.

Module TierEligibilityCriteria.
Record doc := mk
  { tier_id : ObjectId;
    is_active : bool;
    evaluation_period_days : Z;
    consecutive_periods_required : Z;
    net_earning_required : Z }.
End TierEligibilityCriteria.

Module PriorityCustomer.
Record doc := mk
  { customer_id : ObjectId;
    tier_id : ObjectId;
    is_active : bool }.
End PriorityCustomer.

Record PointRule := mkRule
  { pointType : string;
    pointRate : option Z (* [None]: not a finite number *) }.

Module PointCriteria.
Record doc := mk
  { _id : ObjectId;
    unique_code : string;
    pointSystem : option (list PointRule) (* [None]: not an array *) }.
End PointCriteria.

Module AppType.
Record doc := mk { _id : ObjectId; name : string }.
End AppType.

(** ** The database *)

Record Db := mkDb
  { customers : list Customer.doc;
    loyaltyPoints : list LoyaltyPoints.doc;
    transactions : list Transaction.doc;
    tiers : list Tier.doc;
    tierEligibilityCriteria : list TierEligibilityCriteria.doc;
    priorityCustomers : list PriorityCustomer.doc;
    pointCriterias : list PointCriteria.doc;
    appTypes : list AppType.doc;
    next_oid : ObjectId (* source of the [_id] of created documents *) }.

Definition with_customers (cs : list Customer.doc) (db : Db) : Db :=
  mkDb cs (loyaltyPoints db) (transactions db) (tiers db)
       (tierEligibilityCriteria db) (priorityCustomers db)
       (pointCriterias db) (appTypes db) (next_oid db).

Definition with_loyaltyPoints (ls : list LoyaltyPoints.doc) (db : Db) : Db :=
  mkDb (customers db) ls (transactions db) (tiers db)
       (tierEligibilityCriteria db) (priorityCustomers db)
       (pointCriterias db) (appTypes db) (next_oid db).

Definition with_transactions (ts : list Transaction.doc) (db : Db) : Db :=
  mkDb (customers db) (loyaltyPoints db) ts (tiers db)
       (tierEligibilityCriteria db) (priorityCustomers db)
       (pointCriterias db) (appTypes db) (next_oid db).

Definition bump_oid (db : Db) : Db :=
  mkDb (customers db) (loyaltyPoints db) (transactions db) (tiers db)
       (tierEligibilityCriteria db) (priorityCustomers db)
       (pointCriterias db) (appTypes db) (N.succ (next_oid db)).

(** ** Generic query helpers *)

(** [findOne]: the first document that matches. *)
Definition findOne {A} (P : A → Prop) `{!∀ x, Decision (P x)}
    (l : list A) : option A :=
  snd <$> list_find P l.
#[global] Arguments findOne : simpl never.

(** [findByIdAndUpdate] / [updateOne]: rewrite the first match only. *)
Fixpoint updateOne {A} (P : A → Prop) `{!∀ x, Decision (P x)}
    (f : A → A) (l : list A) : list A :=
  match l with
  | [] => []
  | x :: l' => if decide (P x) then f x :: l' else x :: updateOne P f l'
  end.

(** ** Host built-ins and collaborators

    JavaScript built-ins whose exact definition is immaterial here, and the
    collaborators of the controller that live in other modules: the schema
    validation run by [LoyaltyPoints.create] ([false]: the create throws),
    [PointsExpirationRules.calculateExpiryDate] and
    [tierController.checkAndUpgradeTier] ([None]: the call throws).

    [new RegExp(pattern, "i")] throws a [SyntaxError] when the pattern is
    not a regular expression: [RegExp_error pattern] is then the message
    of the error, and [None] when the pattern compiles; [RegExp_test_i]
    is the test of a pattern that compiles. *)
Class Host := mkHost
  { Number_of_string : string → option Z;
    ObjectId_parse : string → option ObjectId;
    RegExp_error : string → option string;
    RegExp_test_i : string → string → bool;
    toISOString : Z → string;
    uuidv4 : ObjectId → string;
    LoyaltyPoints_validate : LoyaltyPoints.doc → bool;
    calculateExpiryDate : option ObjectId → Db → option Z;
    checkAndUpgradeTier : ObjectId → Db → option Db }.

(** JS values as they reach [normalizeString] and [Number]. *)
Inductive JsValue :=
  | JsUndefined
  | JsString (s : string)
  | JsNumber (z : Z)
  | JsBool (b : bool).

(** A row of [XLSX.utils.sheet_to_json]: column header to cell value. *)
Abbreviation RawRow := (gmap string JsValue).

Fixpoint trimStart (s : string) : string :=
  match s with
  | String a s' => if Ascii.is_space a then trimStart s' else s
  | EmptyString => EmptyString
  end.

Definition trim (s : string) : string :=
  String.rev (trimStart (String.rev (trimStart s))).

Definition truthy (v : JsValue) : bool :=
  match v with
  | JsUndefined => false
  | JsString s => negb (bool_decide (s = ""))
  | JsNumber z => negb (z =? 0)
  | JsBool b => b
  end.

Definition toString (v : JsValue) : string :=
  match v with
  | JsUndefined => "undefined"
  | JsString s => s
  | JsNumber z => pretty z
  | JsBool b => if b then "true" else "false"
  end.

(** [(value || "").toString().trim()] *)
Definition normalizeString (value : JsValue) : string :=
  trim (toString (if truthy value then value else JsString "")).

(** [Number(v)], [None] when the result is not finite. *)
Definition Number `{Host} (v : JsValue) : option Z :=
  match v with
  | JsUndefined => None
  | JsString s => Number_of_string s
  | JsNumber z => Some z
  | JsBool b => Some (if b then 1 else 0)
  end.

Definition buildManualNote (action : string) (note : JsValue) : string :=
  "Manual points " +:+ action +:+ " by admin - " +:+ normalizeString note.

(** ** HTTP responses *)

Record BulkDetail := mkDetail
  { detail_row : Z;
    detail_customer_id : string;
    detail_transaction_id : string;
    detail_new_balance : Z }.

Inductive ResponseData :=
  | NoData
  | DataText (s : string)
  | DataAdded (transaction : Transaction.doc) (point_balance points_awarded : Z)
  | DataReduced (transaction : Transaction.doc) (point_balance : Z)
  | DataBulk (total_rows success_count : Z) (details : list BulkDetail).

Record Response := response_handler
  { res_status : Z;
    res_message : string;
    res_data : ResponseData }.

(** ** Collection operations *)

Definition Customer_findById (id : ObjectId) (db : Db) : option Customer.doc :=
  findOne (λ c, Customer._id c = id) (customers db).

Definition Customer_findByIdAndUpdate (id : ObjectId)
    (f : Customer.doc → Customer.doc) (db : Db) : Db :=
  with_customers (updateOne (λ c, Customer._id c = id) f (customers db)) db.

Definition LoyaltyPoints_findByIdAndUpdate (id : ObjectId)
    (f : LoyaltyPoints.doc → LoyaltyPoints.doc) (db : Db) : Db :=
  with_loyaltyPoints
    (updateOne (λ e, LoyaltyPoints._id e = id) f (loyaltyPoints db)) db.

Definition Tier_findById (id : ObjectId) (db : Db) : option Tier.doc :=
  findOne (λ t, Tier._id t = id) (tiers db).

(** [.populate("tier")] on a customer. *)
Definition populate_tier (c : Customer.doc) (db : Db) : option Tier.doc :=
  id ← Customer.tier c; Tier_findById id db.

(** [Transaction.create([{...}], { session })]: the document gets a fresh
    [_id]; the created document is returned. *)
Definition Transaction_create (mk : ObjectId → Transaction.doc) (db : Db)
    : Transaction.doc * Db :=
  let t := mk (next_oid db) in
  (t, bump_oid (with_transactions (transactions db ++ [t]) db)).

(** [LoyaltyPoints.create([{...}], { session })]; [None] when it throws. *)
Definition LoyaltyPoints_create `{Host} (mk : ObjectId → LoyaltyPoints.doc)
    (db : Db) : option Db :=
  let e := mk (next_oid db) in
  if LoyaltyPoints_validate e
  then Some (bump_oid (with_loyaltyPoints (loyaltyPoints db ++ [e]) db))
  else None.

Section Controller.
Context `{Host}.

(** [findAppType]: the app type found, if any, or [inl] the message of
    the [SyntaxError] that [new RegExp] throws; the pattern is built from
    the text as it is, without escaping. *)
Definition findAppType (requestedBy : JsValue) (db : Db)
    : string + option AppType.doc :=
  let normalized := normalizeString requestedBy in
  if decide (normalized = "") then inr None
  else
    let pattern := "^" +:+ normalized +:+ "$" in
    match RegExp_error pattern with
    | Some message => inl message
    | None =>
        inr (findOne (λ a, RegExp_test_i pattern (AppType.name a) = true)
               (appTypes db))
    end.

(** [resolvePointCriteria] *)
Definition resolvePointCriteria (identifier : JsValue) (db : Db)
    : option PointCriteria.doc :=
  let normalized := normalizeString identifier in
  if decide (normalized = "") then None
  else
    let byCode :=
      findOne (λ p, PointCriteria.unique_code p = normalized)
              (pointCriterias db) in
    match ObjectId_parse normalized with
    | Some oid =>
        match findOne (λ p, PointCriteria._id p = oid) (pointCriterias db) with
        | Some byId => Some byId
        | None => byCode
        end
    | None => byCode
    end.

(** *** [redeemPointsFIFO] *)

Record FifoResult := mkFifo
  { success : bool;
    availablePoints : Z;
    redeemedPoints : Z;
    message : string;
    usedLoyaltyPoints : list UsedLoyaltyPoint }.

(** The query of [redeemPointsFIFO]: the customer's active entries that
    have not expired, oldest [earnedAt] first. *)
Definition earnedAt_le (a b : LoyaltyPoints.doc) : Prop :=
  LoyaltyPoints.earnedAt a ≤ LoyaltyPoints.earnedAt b.

#[global] Instance earnedAt_le_dec a b : Decision (earnedAt_le a b).
Proof. unfold earnedAt_le. apply _. Defined.

Definition redeemable (customerId : ObjectId) (now : Z)
    (e : LoyaltyPoints.doc) : Prop :=
  LoyaltyPoints.customer_id e = customerId
  ∧ now ≤ LoyaltyPoints.expiryDate e
  ∧ LoyaltyPoints.status e = "active".

#[global] Instance redeemable_dec customerId now e :
  Decision (redeemable customerId now e).
Proof. unfold redeemable. apply _. Defined.

Definition validPoints (customerId : ObjectId) (now : Z) (db : Db)
    : list LoyaltyPoints.doc :=
  merge_sort earnedAt_le
    (filter (redeemable customerId now) (loyaltyPoints db)).

Definition sumPoints (l : list LoyaltyPoints.doc) : Z :=
  foldl (λ sum entry, sum + LoyaltyPoints.points entry) 0 l.

Definition usedFully (entry : LoyaltyPoints.doc) : UsedLoyaltyPoint :=
  mkUsed (LoyaltyPoints._id entry) (LoyaltyPoints.points entry)
         (LoyaltyPoints.points entry) true
         (LoyaltyPoints.expiryDate entry) (LoyaltyPoints.earnedAt entry).

Definition usedPartly (entry : LoyaltyPoints.doc) (pointsToUse : Z)
    : UsedLoyaltyPoint :=
  mkUsed (LoyaltyPoints._id entry) (LoyaltyPoints.points entry)
         pointsToUse false
         (LoyaltyPoints.expiryDate entry) (LoyaltyPoints.earnedAt entry).

(** The [for (const entry of validPoints)] loop; its variables are
    [remainingPoints], [actualRedeemedPoints], [usedLoyaltyPoints] and the
    database the updates go to. *)
Fixpoint fifoLoop (now : Z) (entries : list LoyaltyPoints.doc)
    (remainingPoints actualRedeemedPoints : Z)
    (used : list UsedLoyaltyPoint) (db : Db)
    : Z * list UsedLoyaltyPoint * Db :=
  match entries with
  | [] => (actualRedeemedPoints, used, db)
  | entry :: rest =>
      if decide (remainingPoints ≤ 0) then (actualRedeemedPoints, used, db)
      else if decide (LoyaltyPoints.points entry ≤ remainingPoints) then
        fifoLoop now rest
          (remainingPoints - LoyaltyPoints.points entry)
          (actualRedeemedPoints + LoyaltyPoints.points entry)
          (used ++ [usedFully entry])
          (LoyaltyPoints_findByIdAndUpdate (LoyaltyPoints._id entry)
             (LoyaltyPoints.set_redeemed now) db)
      else
        let pointsToUse := remainingPoints in
        fifoLoop now rest 0
          (actualRedeemedPoints + remainingPoints)
          (used ++ [usedPartly entry pointsToUse])
          (LoyaltyPoints_findByIdAndUpdate (LoyaltyPoints._id entry)
             (LoyaltyPoints.set_points
                (LoyaltyPoints.points entry - pointsToUse)) db)
  end.

Definition insufficientMessage (available requested : Z) : string :=
  "Insufficient points. Available: " +:+ pretty available
  +:+ ", Requested: " +:+ pretty requested.

(** The queries and updates of the model do not throw, so the [catch] of
    the source, which answers [success: false] with 0 available points, has
    no counterpart here. *)
Definition redeemPointsFIFO (customerId : ObjectId) (pointsToRedeem : Z)
    (now : Z) (db : Db) : FifoResult * Db :=
  let valid := validPoints customerId now db in
  let totalAvailablePoints := sumPoints valid in
  if decide (totalAvailablePoints < pointsToRedeem) then
    (mkFifo false totalAvailablePoints 0
       (insufficientMessage totalAvailablePoints pointsToRedeem) [],
     db)
  else
    let '(actualRedeemedPoints, used, db') :=
      fifoLoop now valid pointsToRedeem 0 [] db in
    (mkFifo true totalAvailablePoints actualRedeemedPoints
       ("Successfully redeemed " +:+ pretty actualRedeemedPoints
        +:+ " points using FIFO")
       used,
     db').

(** *** [reducePoints] *)

Record ReduceRequest := mkReduceReq
  { reduce_customer_id : ObjectId;
    reduce_points : Z;
    reduce_requested_by : string;
    reduce_note : string }.

Definition reducePoints (req : ReduceRequest) (now : Z) (db0 : Db)
    : Response * Db :=
  let numericPoints := reduce_points req in
  match Customer_findById (reduce_customer_id req) db0 with
  | None => (response_handler 404 "Customer not found" NoData, db0)
  | Some customer =>
      if decide (numericPoints ≤ 0) then
        (response_handler 400 "Points must be a positive number" NoData, db0)
      else
        let '(fifoResult, db1) :=
          redeemPointsFIFO (Customer._id customer) numericPoints now db0 in
        if negb (success fifoResult) then
          (response_handler 400 (message fifoResult) NoData, db0)
        else
          match findAppType (JsString (reduce_requested_by req)) db1 with
          | inl message =>
              (response_handler 500 "Failed to reduce manual points"
                 (DataText message), db0)
          | inr requestedAppType =>
          let '(newTransaction, db2) :=
            Transaction_create
              (λ oid,
                 Transaction.mk oid (Customer._id customer) "redeem"
                   (- numericPoints) (uuidv4 oid) None
                   (AppType._id <$> requestedAppType) "completed"
                   (buildManualNote "reduction" (JsString (reduce_note req)))
                   (MetaManualReduce (reduce_requested_by req)
                      (redeemedPoints fifoResult)
                      (usedLoyaltyPoints fifoResult))
                   None now)
              db1 in
          let db3 :=
            Customer_findByIdAndUpdate (Customer._id customer)
              (Customer.inc_total_points (- numericPoints)) db2 in
          match Customer_findById (Customer._id customer) db3 with
          | None =>
              (response_handler 500 "Failed to reduce manual points"
                 (DataText "Cannot read properties of null"), db0)
          | Some updatedCustomer =>
              (response_handler 200 "Manual points reduced successfully"
                 (DataReduced newTransaction
                    (Customer.total_points updatedCustomer)), db3)
          end
          end
  end.

(** *** [getManualPointsForCriteria] *)

Definition getManualPointsForCriteria (criteria : PointCriteria.doc)
    : string + Z * PointRule :=
  match PointCriteria.pointSystem criteria with
  | None | Some [] =>
      inl "Point criteria is missing point system configuration"
  | Some ((first :: _) as pointSystem) =>
      let fixedEntry :=
        default first
          (findOne (λ entry, pointType entry = "fixed") pointSystem) in
      match pointRate fixedEntry with
      | Some rate =>
          if decide (rate ≤ 0)
          then inl "Point criteria does not have a valid fixed point rule"
          else inr (rate, fixedEntry)
      | None => inl "Point criteria does not have a valid fixed point rule"
      end
  end.

(** The best-effort block shared by both grant paths:
    [try { expiryDate = await calculateExpiryDate(tier); await
    LoyaltyPoints.create(...) } catch (error) { logger.error(...) }]. *)
Definition tryCreateLoyaltyPoints (customer : Customer.doc)
    (tierId : option ObjectId) (points : Z) (transaction : Transaction.doc)
    (now : Z) (db : Db) : Db :=
  match calculateExpiryDate tierId db with
  | None => db
  | Some expiryDate =>
      default db
        (LoyaltyPoints_create
           (λ oid,
              LoyaltyPoints.mk oid (Customer._id customer) points expiryDate
                now "active" None (Some (Transaction._id transaction)))
           db)
  end.

(** [try { await tierController.checkAndUpgradeTier(id, null, session) }
    catch (error) { logger.error(...) }] *)
Definition tryCheckAndUpgradeTier (customerId : ObjectId) (db : Db) : Db :=
  default db (checkAndUpgradeTier customerId db).

(** *** [addPointsIndividual] *)

Record AddRequest := mkAddReq
  { add_customer_id : ObjectId;
    add_point_criteria : string;
    add_requested_by : string;
    add_note : string }.

(** The document of the [Transaction.create] of [addPointsIndividual]. *)
Definition grantDocument (req : AddRequest) (customer : Customer.doc)
    (criteria : PointCriteria.doc) (pointsToAward : Z) (pointRule : PointRule)
    (requestedAppType : option AppType.doc) (now : Z) (oid : ObjectId)
    : Transaction.doc :=
  Transaction.mk oid (Customer._id customer) "earn" pointsToAward
    ("PROMO-$" +:+ String.substring 0 8 (uuidv4 oid))
    (Some (PointCriteria._id criteria))
    (AppType._id <$> requestedAppType) "completed"
    (buildManualNote "addition" (JsString (add_note req)))
    (MetaManualAdd (add_requested_by req)
       (PointCriteria.unique_code criteria)
       (Some (pointType pointRule, pointsToAward)) None)
    None now.

Definition addPointsIndividual (req : AddRequest) (now : Z) (db0 : Db)
    : Response * Db :=
  match Customer_findById (add_customer_id req) db0 with
  | None => (response_handler 404 "Customer not found" NoData, db0)
  | Some customer =>
  match resolvePointCriteria (JsString (add_point_criteria req)) db0 with
  | None => (response_handler 404 "Point criteria not found" NoData, db0)
  | Some criteria =>
  match getManualPointsForCriteria criteria with
  | inl message => (response_handler 400 message NoData, db0)
  | inr (pointsToAward, pointRule) =>
  match findAppType (JsString (add_requested_by req)) db0 with
  | inl message =>
      (response_handler 500 "Failed to add manual points" (DataText message),
       db0)
  | inr requestedAppType =>
      let '(newTransaction, db1) :=
        Transaction_create
          (grantDocument req customer criteria pointsToAward pointRule
             requestedAppType now)
          db0 in
      let db2 :=
        Customer_findByIdAndUpdate (Customer._id customer)
          (Customer.inc_points_and_coins pointsToAward pointsToAward) db1 in
      match Customer_findById (Customer._id customer) db2 with
      | None =>
          (response_handler 500 "Failed to update customer points" NoData, db0)
      | Some updatedCustomer =>
          let db3 :=
            tryCreateLoyaltyPoints customer
              (Tier._id <$> populate_tier customer db0)
              pointsToAward newTransaction now db2 in
          let db4 := tryCheckAndUpgradeTier (Customer._id customer) db3 in
          (response_handler 201 "Manual points added successfully"
             (DataAdded newTransaction (Customer.total_points updatedCustomer)
                pointsToAward),
           db4)
      end
  end end end end.

(** *** [addPointsBulk] *)

Definition REQUIRED_BULK_COLUMNS : list string :=
  ["customer_id"; "point_criteria"; "note"].

(** [rawRow.column] *)
Definition field (rawRow : RawRow) (column : string) : JsValue :=
  default JsUndefined (rawRow !! column).

Record EnrichedRow := mkEnriched
  { rowNumber : Z;
    row_customer : Customer.doc;
    row_tier : option Tier.doc (* the populated [customer.tier] *);
    row_criteria : PointCriteria.doc;
    row_points : Z;
    row_note : string }.

Definition rowError (rowNumber : Z) (what : string) : string :=
  "Row " +:+ pretty rowNumber +:+ ": " +:+ what.

(** The body of the validation loop for the row at [index]: the message it
    pushes on [validationErrors], or the row it pushes on [enrichedRows]. *)
Definition validateRow (index : Z) (rawRow : RawRow) (db : Db)
    : string + EnrichedRow :=
  let rowNumber := index + 2 in
  let missingColumns :=
    filter (λ column, rawRow !! column = None) REQUIRED_BULK_COLUMNS in
  if negb (bool_decide (missingColumns = [])) then
    inl (rowError rowNumber
           ("Missing columns " +:+ String.concat ", " missingColumns))
  else
    let customerIdentifier := normalizeString (field rawRow "customer_id") in
    let pointsValue := Number (field rawRow "points") in
    let criteriaIdentifier :=
      normalizeString (field rawRow "point_criteria") in
    let note := normalizeString (field rawRow "note") in
    if decide (customerIdentifier = "") then
      inl (rowError rowNumber "customer_id is required")
    else
      match pointsValue with
      | None => inl (rowError rowNumber "points must be positive")
      | Some pointsValue =>
          if decide (pointsValue ≤ 0) then
            inl (rowError rowNumber "points must be positive")
          else if decide (criteriaIdentifier = "") then
            inl (rowError rowNumber "point_criteria is required")
          else if decide (note = "") then
            inl (rowError rowNumber "note is required")
          else
            match findOne
                    (λ c, Customer.customer_id c = customerIdentifier)
                    (customers db) with
            | None =>
                inl (rowError rowNumber
                       ("Customer " +:+ customerIdentifier +:+ " not found"))
            | Some customer =>
                match resolvePointCriteria (JsString criteriaIdentifier) db with
                | None =>
                    inl (rowError rowNumber
                           ("Point criteria " +:+ criteriaIdentifier
                            +:+ " not found"))
                | Some criteria =>
                    inr (mkEnriched rowNumber customer
                           (populate_tier customer db) criteria
                           pointsValue note)
                end
            end
      end.

(** [for (let index = 0; index < rows.length; index += 1)] *)
Fixpoint validationLoop (rows : list RawRow) (index : Z)
    (validationErrors : list string) (enrichedRows : list EnrichedRow)
    (db : Db) : list string * list EnrichedRow :=
  match rows with
  | [] => (validationErrors, enrichedRows)
  | rawRow :: rest =>
      match validateRow index rawRow db with
      | inl error =>
          validationLoop rest (index + 1) (validationErrors ++ [error])
            enrichedRows db
      | inr enriched =>
          validationLoop rest (index + 1) validationErrors
            (enrichedRows ++ [enriched]) db
      end
  end.

(** The document of the [Transaction.create] of a row of the sheet. *)
Definition rowGrantDocument (requestedBy : string) (appType : option ObjectId)
    (now : Z) (entry : EnrichedRow) (oid : ObjectId) : Transaction.doc :=
  Transaction.mk oid (Customer._id (row_customer entry)) "earn"
    (row_points entry) (uuidv4 oid)
    (Some (PointCriteria._id (row_criteria entry))) appType "completed"
    (buildManualNote "addition" (JsString (row_note entry)))
    (MetaManualAdd requestedBy
       (PointCriteria.unique_code (row_criteria entry)) None
       (Some (rowNumber entry)))
    None now.

(** The grant loop over [enrichedRows]; [None] when an iteration throws
    (the handler then aborts the whole transaction). *)
Fixpoint grantLoop (requestedBy : string) (appType : option ObjectId)
    (now : Z) (enrichedRows : list EnrichedRow)
    (processedDetails : list BulkDetail) (db : Db)
    : option (list BulkDetail * Db) :=
  match enrichedRows with
  | [] => Some (processedDetails, db)
  | entry :: rest =>
      let customer := row_customer entry in
      let criteria := row_criteria entry in
      let points := row_points entry in
      let '(createdTransaction, db1) :=
        Transaction_create (rowGrantDocument requestedBy appType now entry)
          db in
      let db2 :=
        Customer_findByIdAndUpdate (Customer._id customer)
          (Customer.inc_points_and_coins points points) db1 in
      let db3 :=
        tryCreateLoyaltyPoints customer (Tier._id <$> row_tier entry) points
          createdTransaction now db2 in
      match Customer_findById (Customer._id customer) db2 with
      | None => None
      | Some updatedCustomer =>
          grantLoop requestedBy appType now rest
            (processedDetails
             ++ [mkDetail (rowNumber entry) (Customer.customer_id customer)
                   (Transaction.transaction_id createdTransaction)
                   (Customer.total_points updatedCustomer)])
            db3
      end
  end.

(** [try { for (const entry of enrichedRows) await checkAndUpgradeTier(...) }
    catch (error) { logger.error(...) }]: the first throw ends the loop. *)
Fixpoint tierCheckLoop (enrichedRows : list EnrichedRow) (db : Db) : Db :=
  match enrichedRows with
  | [] => db
  | entry :: rest =>
      match checkAndUpgradeTier (Customer._id (row_customer entry)) db with
      | Some db' => tierCheckLoop rest db'
      | None => db
      end
  end.

(** [req.file] and the outcome of parsing it. *)
Inductive Upload :=
  | Unparsable
  | Sheet (rows : list RawRow).

Record BulkRequest := mkBulkReq
  { bulk_file : option Upload;
    bulk_requested_by : JsValue }.

Definition addPointsBulk (req : BulkRequest) (now : Z) (db0 : Db)
    : Response * Db :=
  match bulk_file req with
  | None => (response_handler 400 "No upload file provided" NoData, db0)
  | Some file =>
  let requestedBy := normalizeString (bulk_requested_by req) in
  if decide (requestedBy = "") then
    (response_handler 400 "requested_by is required for bulk upload" NoData,
     db0)
  else
  match file with
  | Unparsable =>
      (response_handler 400 "Unable to parse upload file" NoData, db0)
  | Sheet [] =>
      (response_handler 400 "Uploaded file does not contain data" NoData, db0)
  | Sheet rows =>
      let '(validationErrors, enrichedRows) :=
        validationLoop rows 0 [] [] db0 in
      if negb (bool_decide (validationErrors = [])) then
        (response_handler 400 "Bulk upload validation failed"
           (DataText (String.concat "; " validationErrors)), db0)
      else
        match findAppType (JsString requestedBy) db0 with
        | inl message =>
            (response_handler 500 "Failed to process bulk manual points"
               (DataText message), db0)
        | inr requestedAppType =>
        match grantLoop requestedBy (AppType._id <$> requestedAppType) now
                enrichedRows [] db0 with
        | None =>
            (response_handler 500 "Failed to process bulk manual points"
               (DataText "Cannot read properties of null"), db0)
        | Some (processedDetails, db1) =>
            let db2 := tierCheckLoop enrichedRows db1 in
            (response_handler 200 "Bulk manual points added successfully"
               (DataBulk (Z.of_nat (length enrichedRows))
                  (Z.of_nat (length enrichedRows)) processedDetails),
             db2)
        end
        end
  end end.

End Controller.

(** ** The scheduled job *)

Section Scheduler.
Context `{Host}.

Definition msPerDay : Z := 86400000.

(** [date.setDate(date.getDate() - days)] on epoch milliseconds. *)
Definition minusDays (date days : Z) : Z := date - days * msPerDay.

(** The [return] statement by which [checkTierRetentionEligibility] leaves:
    the points threshold when the tier has no active criteria, a failed
    evaluation period, the end of the period loop, or the final
    [return true] after the [if (customer.total_points >= 0)] block. *)
Inductive RetentionReturn :=
  | ReturnThreshold (retain : bool)
  | ReturnPeriodFailed (periodIndex : Z)
  | ReturnPeriodsChecked (meetsConsecutiveRequirement : bool)
  | ReturnSufficientPoints.

Definition verdict (r : RetentionReturn) : bool :=
  match r with
  | ReturnThreshold retain => retain
  | ReturnPeriodFailed _ => false
  | ReturnPeriodsChecked meets => meets
  | ReturnSufficientPoints => true
  end.

Definition inPeriod (customerId : ObjectId) (periodStartDate periodEndDate : Z)
    (t : Transaction.doc) : Prop :=
  Transaction.customer_id t = customerId
  ∧ Transaction.transaction_type t = "earn"
  ∧ periodStartDate ≤ Transaction.transaction_date t
  ∧ Transaction.transaction_date t < periodEndDate
  ∧ Transaction.status t = "completed".

#[global] Instance inPeriod_dec c s e t : Decision (inPeriod c s e t).
Proof. unfold inPeriod. apply _. Defined.

(** [periodNetEarnings] of the period with index [periodIndex]. *)
Definition periodNetEarnings (customer : Customer.doc)
    (criteria : TierEligibilityCriteria.doc) (now : Z) (db : Db)
    (periodIndex : Z) : Z :=
  let periodEndDate :=
    minusDays now
      (periodIndex * TierEligibilityCriteria.evaluation_period_days criteria) in
  let periodStartDate :=
    minusDays periodEndDate
      (TierEligibilityCriteria.evaluation_period_days criteria) in
  let periodTransactions :=
    filter (inPeriod (Customer._id customer) periodStartDate periodEndDate)
      (transactions db) in
  foldl (λ sum transaction, sum + Transaction.points transaction) 0
    periodTransactions.

(** [for (let periodIndex = 0; periodIndex < consecutive_periods_required;
    periodIndex++)], over the indices still to visit. *)
Fixpoint periodLoop (customer : Customer.doc)
    (criteria : TierEligibilityCriteria.doc) (now : Z) (db : Db)
    (periodIndices : list Z) (consecutivePeriodsWithSufficientEarnings : Z)
    : RetentionReturn :=
  match periodIndices with
  | [] =>
      ReturnPeriodsChecked
        (bool_decide
           (TierEligibilityCriteria.consecutive_periods_required criteria
            ≤ consecutivePeriodsWithSufficientEarnings))
  | periodIndex :: rest =>
      if decide (TierEligibilityCriteria.net_earning_required criteria
                 ≤ periodNetEarnings customer criteria now db periodIndex)
      then periodLoop customer criteria now db rest
             (consecutivePeriodsWithSufficientEarnings + 1)
      else ReturnPeriodFailed periodIndex
  end.

Definition findCriteria (tier : Tier.doc) (db : Db)
    : option TierEligibilityCriteria.doc :=
  findOne
    (λ k, TierEligibilityCriteria.tier_id k = Tier._id tier
          ∧ TierEligibilityCriteria.is_active k = true)
    (tierEligibilityCriteria db).

Definition retentionReturn (customer : Customer.doc) (tier : Tier.doc)
    (now : Z) (db : Db) : RetentionReturn :=
  match findCriteria tier db with
  | None =>
      ReturnThreshold
        (bool_decide (Tier.points_required tier ≤ Customer.total_points customer))
  | Some criteria =>
      if decide (0 ≤ Customer.total_points customer) then
        periodLoop customer criteria now db
          (seqZ 0 (TierEligibilityCriteria.consecutive_periods_required criteria))
          0
      else ReturnSufficientPoints
  end.

(** The function is given a tier document; a customer whose tier does not
    populate makes the source throw from inside its own [catch] (it reads
    [tier._id] again), which [tierAction] below renders as [Failed]. *)
Definition checkTierRetentionEligibility (customer : Customer.doc)
    (tier : Tier.doc) (now : Z) (db : Db) : bool :=
  verdict (retentionReturn customer tier now db).

(** *** [processPointsAndTiers] *)

Definition isExpired (now : Z) (e : LoyaltyPoints.doc) : Prop :=
  LoyaltyPoints.status e = "active" ∧ LoyaltyPoints.expiryDate e < now.

#[global] Instance isExpired_dec now e : Decision (isExpired now e).
Proof. unfold isExpired. apply _. Defined.

Definition expiredPoints (now : Z) (db : Db) : list LoyaltyPoints.doc :=
  filter (isExpired now) (loyaltyPoints db).

(** The body of [for (const pointRecord of expiredPoints)]. *)
Definition expireRecord (now : Z) (pointRecord : LoyaltyPoints.doc) (db : Db)
    : Db :=
  let db1 :=
    LoyaltyPoints_findByIdAndUpdate (LoyaltyPoints._id pointRecord)
      (LoyaltyPoints.set_status "expired") db in
  let '(_, db2) :=
    Transaction_create
      (λ oid,
         Transaction.mk oid (LoyaltyPoints.customer_id pointRecord) "expire"
           (- LoyaltyPoints.points pointRecord)
           ("EXP-" +:+ pretty now +:+ "-"
            +:+ pretty (LoyaltyPoints.customer_id pointRecord))
           None None "completed"
           ("Points expired on " +:+ toISOString now)
           MetaNone (LoyaltyPoints.transaction_id pointRecord) now)
      db1 in
  Customer_findByIdAndUpdate (LoyaltyPoints.customer_id pointRecord)
    (Customer.inc_total_points (- LoyaltyPoints.points pointRecord)) db2.

(** Step 1 of the job. *)
Definition expireSweep (now : Z) (db : Db) : Db :=
  foldl (λ db pointRecord, expireRecord now pointRecord db) db
    (expiredPoints now db).

Definition hierarchy_ge (a b : Tier.doc) : Prop :=
  Tier.hierarchy_level b ≤ Tier.hierarchy_level a.

#[global] Instance hierarchy_ge_dec a b : Decision (hierarchy_ge a b).
Proof. unfold hierarchy_ge. apply _. Defined.

(** [Tier.find({}).sort({ hierarchy_level: -1 })] *)
Definition sortedTiers (db : Db) : list Tier.doc :=
  merge_sort hierarchy_ge (tiers db).

(** [tiers.find((t) => t.hierarchy_level === 0) || tiers[tiers.length - 1]] *)
Definition bronzeTierOf (tiers : list Tier.doc) : option Tier.doc :=
  match findOne (λ t, Tier.hierarchy_level t = 0) tiers with
  | Some t => Some t
  | None => last tiers
  end.

(** [Customer.find({ tier: { $ne: bronzeTier._id } }).populate("tier")]:
    each customer comes with its populated tier. *)
Definition customersToCheck (bronzeTier : Tier.doc) (db : Db)
    : list (Customer.doc * option Tier.doc) :=
  (λ c, (c, populate_tier c db))
  <$> filter (λ c, Customer.tier c ≠ Some (Tier._id bronzeTier))
        (customers db).

(** [priorityRecord?.tier_id || null], with [tier_id] populated. *)
Definition priorityTierOf (customer : Customer.doc) (db : Db)
    : option Tier.doc :=
  priorityRecord ←
    findOne
      (λ r, PriorityCustomer.customer_id r = Customer._id customer
            ∧ PriorityCustomer.is_active r = true)
      (priorityCustomers db);
  Tier_findById (PriorityCustomer.tier_id priorityRecord) db.

(** [for (const tier of tiers)]: the first tier below the current one
    whose own retention check passes. *)
Fixpoint scanTiers (customer : Customer.doc) (currentTier : Tier.doc)
    (now : Z) (db : Db) (tiers : list Tier.doc) : option Tier.doc :=
  match tiers with
  | [] => None
  | tier :: rest =>
      if decide (Tier._id tier = Tier._id currentTier) then
        scanTiers customer currentTier now db rest
      else if decide (Tier.hierarchy_level tier
                      < Tier.hierarchy_level currentTier) then
        if checkTierRetentionEligibility customer tier now db
        then Some tier
        else scanTiers customer currentTier now db rest
      else scanTiers customer currentTier now db rest
  end.

(** [newTier] before the priority clamp. *)
Definition scannedTier (bronzeTier : Tier.doc) (tiers : list Tier.doc)
    (customer : Customer.doc) (currentTier : Tier.doc) (now : Z) (db : Db)
    : Tier.doc :=
  default bronzeTier (scanTiers customer currentTier now db tiers).

(** [if (priorityTier && newTier.hierarchy_level <
    priorityTier.hierarchy_level) newTier = priorityTier] *)
Definition clampToPriority (priorityTier : option Tier.doc)
    (newTier : Tier.doc) : Tier.doc :=
  match priorityTier with
  | Some p =>
      if decide (Tier.hierarchy_level newTier < Tier.hierarchy_level p)
      then p else newTier
  | None => newTier
  end.

(** What one iteration of the customer loop does to the customer. *)
Inductive TierAction :=
  | ProtectionUpgrade (currentTier priorityTier : Tier.doc)
  | Downgrade (currentTier newTier : Tier.doc)
      (priorityTier : option Tier.doc)
  | Retain
  | Failed (* the iteration threw; its [catch] logs and continues *).

Definition tierAction (bronzeTier : Tier.doc) (tiers : list Tier.doc)
    (customer : Customer.doc) (currentTier : option Tier.doc) (now : Z)
    (db : Db) : TierAction :=
  let priorityTier := priorityTierOf customer db in
  match currentTier with
  | None => Failed
  | Some currentTier =>
      let protect :=
        match priorityTier with
        | Some p =>
            if decide (Tier.hierarchy_level currentTier
                       < Tier.hierarchy_level p)
            then Some p else None
        | None => None
        end in
      match protect with
      | Some p => ProtectionUpgrade currentTier p
      | None =>
          if checkTierRetentionEligibility customer currentTier now db
          then Retain
          else
            let newTier :=
              clampToPriority priorityTier
                (scannedTier bronzeTier tiers customer currentTier now db) in
            if decide (Tier.hierarchy_level newTier
                       < Tier.hierarchy_level currentTier) then
              if decide (Tier._id newTier = Tier._id currentTier)
              then Retain
              else Downgrade currentTier newTier priorityTier
            else Retain
      end
  end.

(** The writes of one iteration. *)
Definition applyTierAction (customer : Customer.doc) (now : Z)
    (a : TierAction) (db : Db) : Db :=
  let customerId := Customer._id customer in
  match a with
  | ProtectionUpgrade currentTier priorityTier =>
      let db1 :=
        Customer_findByIdAndUpdate customerId
          (Customer.set_tier (Tier._id priorityTier)) db in
      snd (Transaction_create
             (λ oid,
                Transaction.mk oid customerId "tier_protection_adjustment" 0
                  ("TIER-PROTECT-" +:+ pretty now +:+ "-" +:+ pretty customerId)
                  None None "completed"
                  ("Priority protection enforced: upgraded to "
                   +:+ Tier.name priorityTier +:+ " minimum tier")
                  (MetaTierProtect (Tier.name currentTier)
                     (Tier.name priorityTier)
                     (Customer.total_points customer))
                  None now)
             db1)
  | Downgrade currentTier newTier priorityTier =>
      let db1 :=
        Customer_findByIdAndUpdate customerId
          (Customer.set_tier (Tier._id newTier)) db in
      snd (Transaction_create
             (λ oid,
                Transaction.mk oid customerId "tier_downgrade" 0
                  ("TIER-DOWN-" +:+ pretty now +:+ "-" +:+ pretty customerId)
                  None None "completed"
                  ("Tier downgraded from " +:+ Tier.name currentTier
                   +:+ " to " +:+ Tier.name newTier
                   +:+ " due to insufficient activity")
                  (MetaTierDowngrade (Tier.name currentTier)
                     (Tier.name newTier) (Customer.total_points customer)
                     (match priorityTier with
                      | Some _ =>
                          "tier_retention_criteria_not_met_priority_protected"
                      | None => "tier_retention_criteria_not_met"
                      end)
                     (Tier.name <$> priorityTier))
                  None now)
             db1)
  | Retain | Failed => db
  end.

(** The body of [for (const customer of customersToCheck)]. *)
Definition processCustomer (bronzeTier : Tier.doc) (tiers : list Tier.doc)
    (now : Z) (db : Db) (populated : Customer.doc * option Tier.doc) : Db :=
  let '(customer, currentTier) := populated in
  applyTierAction customer now
    (tierAction bronzeTier tiers customer currentTier now db) db.

(** Step 2 of the job, on the database left by the sweep; [None] when it
    throws ["Bronze/Base tier not found"]. *)
Definition processTiers (now : Z) (db : Db) : option Db :=
  let tiers := sortedTiers db in
  bronzeTier ← bronzeTierOf tiers;
  Some (foldl (processCustomer bronzeTier tiers now) db
          (customersToCheck bronzeTier db)).

(** The job: the committed database, or the initial one after [abort]. *)
Definition processPointsAndTiers (now : Z) (db0 : Db) : Db :=
  default db0 (processTiers now (expireSweep now db0)).

End Scheduler.


(** ** The reports controller: [updateTransactionAppTypes]

    The handler runs outside a transaction, so every update it makes is
    kept. [String.prototype.toLowerCase] is a parameter of the section.

    [appTypeMap] is a plain JS object used as a map from lowercased app
    name to [_id]. Looking up a key that no app type set reaches
    [Object.prototype]; of its property names only ["constructor"] and
    ["__proto__"] have no capital letter and can equal a lowercased key.
    For them the lookup gives an object that is not an [ObjectId],
    [Transaction.updateOne] throws on casting it and the inner [catch]
    counts the transaction as failed with the error's message
    ([castErrorMessage]). Storing under ["__proto__"] would replace the
    prototype of the map instead of adding a key; the properties below
    that depend on the lookup assume no app type has that lowercased name
    ([plainAppNames]). *)

Definition requested_by_of (m : Metadata) : option string :=
  match m with
  | MetaManualAdd requested_by _ _ _ => Some requested_by
  | MetaManualReduce requested_by _ _ => Some requested_by
  | MetaNone | MetaTierProtect _ _ _ | MetaTierDowngrade _ _ _ _ _ => None
  end.

Definition Transaction_set_app_type (appTypeId : ObjectId)
    (t : Transaction.doc) : Transaction.doc :=
  Transaction.mk (Transaction._id t) (Transaction.customer_id t)
    (Transaction.transaction_type t) (Transaction.points t)
    (Transaction.transaction_id t) (Transaction.point_criteria t)
    (Some appTypeId) (Transaction.status t) (Transaction.note t)
    (Transaction.metadata t) (Transaction.reference_id t)
    (Transaction.transaction_date t).

(** [Transaction.updateOne({ _id }, { $set: { app_type } })] *)
Definition Transaction_updateOne_app_type (id appTypeId : ObjectId) (db : Db)
    : Db :=
  with_transactions
    (updateOne (λ t, Transaction._id t = id)
       (Transaction_set_app_type appTypeId) (transactions db))
    db.

Record AppTypeUpdate := mkUpdate
  { update_transaction_id : string;
    update_requested_by : string;
    update_app_type_id : ObjectId (* sent as [appTypeId.toString()] *);
    update_status : string }.

Record FailedTransaction := mkFailed
  { failed_transaction_id : string;
    failed_requested_by : string;
    failed_error : string }.

(** The [data] of the two 200 answers. *)
Inductive AppTypeReport :=
  | ReportCounts (total success failed : Z)
  | ReportUpdates (total success failed : Z) (updates : list AppTypeUpdate)
      (failed_transactions : list FailedTransaction).

Record AppTypeResponse := appType_response
  { report_status : Z;
    report_message : string;
    report_data : AppTypeReport }.

Section Reports.
Variable toLowerCase : string → string.
Variable castErrorMessage : string → string.

(** [appTypes.forEach((app) => { appTypeMap[app.name.toLowerCase()] =
    app._id })] *)
Definition buildAppTypeMap (appTypes : list AppType.doc)
    : gmap string ObjectId :=
  foldl (λ appTypeMap app,
           <[toLowerCase (AppType.name app) := AppType._id app]> appTypeMap)
        ∅ appTypes.

(** The filter [{ app_type: null, "metadata.requested_by": { $exists: true,
    $ne: null } }]. *)
Definition needsAppType (t : Transaction.doc) : Prop :=
  Transaction.app_type t = None
  ∧ is_Some (requested_by_of (Transaction.metadata t)).

#[global] Instance needsAppType_dec t : Decision (needsAppType t).
Proof. unfold needsAppType. apply _. Defined.

Definition inheritedKeys : list string := ["constructor"; "__proto__"].

Record AppTypeLoop := mkLoop
  { successCount : Z;
    failCount : Z;
    failedTransactions : list FailedTransaction;
    updates : list AppTypeUpdate;
    loop_db : Db }.

(** The body of [for (const transaction of transactionsToUpdate)]. *)
Definition appTypeStep (appTypeMap : gmap string ObjectId) (st : AppTypeLoop)
    (transaction : Transaction.doc) : AppTypeLoop :=
  let requestedBy :=
    default "" (requested_by_of (Transaction.metadata transaction)) in
  let requestedByLower := trim (toLowerCase requestedBy) in
  match appTypeMap !! requestedByLower with
  | Some appTypeId =>
      mkLoop (successCount st + 1) (failCount st) (failedTransactions st)
        (updates st
         ++ [mkUpdate (Transaction.transaction_id transaction) requestedBy
               appTypeId "success"])
        (Transaction_updateOne_app_type (Transaction._id transaction)
           appTypeId (loop_db st))
  | None =>
      mkLoop (successCount st) (failCount st + 1)
        (failedTransactions st
         ++ [mkFailed (Transaction.transaction_id transaction) requestedBy
               (if decide (requestedByLower ∈ inheritedKeys)
                then castErrorMessage requestedByLower
                else "App type not found in database")])
        (updates st) (loop_db st)
  end.

Definition updateTransactionAppTypes (db : Db) : AppTypeResponse * Db :=
  let appTypeMap := buildAppTypeMap (appTypes db) in
  let transactionsToUpdate := filter needsAppType (transactions db) in
  if decide (length transactionsToUpdate = 0%nat) then
    (appType_response 200
       "No transactions to update. All transactions already have app_type set."
       (ReportCounts 0 0 0),
     db)
  else
    let st :=
      foldl (appTypeStep appTypeMap) (mkLoop 0 0 [] [] db)
        transactionsToUpdate in
    (appType_response 200
       ("Successfully updated " +:+ pretty (successCount st) +:+ " out of "
        +:+ pretty (Z.of_nat (length transactionsToUpdate))
        +:+ " transactions")
       (ReportUpdates (Z.of_nat (length transactionsToUpdate))
          (successCount st) (failCount st) (take 50 (updates st))
          (failedTransactions st)),
     loop_db st).

End Reports.
(** * Specification-level definitions and example data *)

(** The points a customer can redeem at [now], as the specification words
    it: the sum over the ledger entries of the customer that are ["active"]
    and whose [expiryDate] is not before [now]. *)
Definition availableSum (customerId : ObjectId) (now : Z) (db : Db) : Z :=
  foldr (λ e s, LoyaltyPoints.points e + s) 0
    (filter (redeemable customerId now) (loyaltyPoints db)).

Definition LoyaltyPoints_findById (id : ObjectId) (db : Db)
    : option LoyaltyPoints.doc :=
  findOne (λ e, LoyaltyPoints._id e = id) (loyaltyPoints db).


(** One update by [_id] per entry of a list, the rewrite chosen by the
    entry. *)
Definition updateEntry
    (g : LoyaltyPoints.doc → LoyaltyPoints.doc → LoyaltyPoints.doc)
    (d : Db) (e : LoyaltyPoints.doc) : Db :=
  LoyaltyPoints_findByIdAndUpdate (LoyaltyPoints._id e) (g e) d.

(** The ledger after the walk has fully consumed [full] and taken
    [pointsToUse] from each entry of [partial]. *)
Definition consume (now : Z) (full partial : list LoyaltyPoints.doc)
    (pointsToUse : Z) (db : Db) : Db :=
  foldl
    (updateEntry
       (λ e, LoyaltyPoints.set_points (LoyaltyPoints.points e - pointsToUse)))
    (foldl (updateEntry (λ _, LoyaltyPoints.set_redeemed now)) db full)
    partial.

(** The retention rule of a tier with criteria, as the specification
    words it: every one of the [consecutive_periods_required] most recent
    evaluation periods has a net earn-sum of at least
    [net_earning_required]. *)
Definition periodPasses (customer : Customer.doc)
    (criteria : TierEligibilityCriteria.doc) (now : Z) (db : Db)
    (periodIndex : Z) : Prop :=
  TierEligibilityCriteria.net_earning_required criteria
  ≤ periodNetEarnings customer criteria now db periodIndex.


(** The number of transactions of a given type recorded for a customer. *)
Definition countFor (customerId : ObjectId) (type : string) (db : Db) : nat :=
  length
    (filter
       (λ t, Transaction.customer_id t = customerId
             ∧ Transaction.transaction_type t = type)
       (transactions db)).

(** The tier reference stored for a customer. *)
Definition tierOf (customerId : ObjectId) (db : Db)
    : option (option ObjectId) :=
  Customer.tier <$> Customer_findById customerId db.

(** The [transaction_type] an action records, if it writes at all. *)
Definition actionType (a : TierAction) : option string :=
  match a with
  | ProtectionUpgrade _ _ => Some "tier_protection_adjustment"
  | Downgrade _ _ _ => Some "tier_downgrade"
  | Retain | Failed => None
  end.

(** The actions of the customer loop, in order, each with the customer it
    was taken for. *)
Fixpoint tierTrace (bronzeTier : Tier.doc) (tiers : list Tier.doc) (now : Z)
    (db : Db) (populated : list (Customer.doc * option Tier.doc))
    : list (Customer.doc * TierAction) :=
  match populated with
  | [] => []
  | (customer, currentTier) :: rest =>
      let a := tierAction bronzeTier tiers customer currentTier now db in
      (customer, a)
      :: tierTrace bronzeTier tiers now (applyTierAction customer now a db)
           rest
  end.

(** What the expiry sweep at [now] does to one ledger entry. *)
Definition expireIfDue (now : Z) (e : LoyaltyPoints.doc) : LoyaltyPoints.doc :=
  if decide (isExpired now e) then LoyaltyPoints.set_status "expired" e else e.

(** Entries that are still ["active"] and come due in [[now1, now2)]. *)
Definition dueBetween (now1 now2 : Z) (e : LoyaltyPoints.doc) : Prop :=
  LoyaltyPoints.status e = "active"
  ∧ now1 ≤ LoyaltyPoints.expiryDate e < now2.

#[global] Instance dueBetween_dec now1 now2 e : Decision (dueBetween now1 now2 e).
Proof. unfold dueBetween. apply _. Defined.

Definition expireTransactions (db : Db) : list Transaction.doc :=
  filter (λ t, Transaction.transaction_type t = "expire") (transactions db).

(** The outcome of the validation loop for each row, from [index] on. *)
Fixpoint rowOutcomes `{Host} (index : Z) (rows : list RawRow) (db : Db)
    : list (string + EnrichedRow) :=
  match rows with
  | [] => []
  | rawRow :: rest =>
      validateRow index rawRow db :: rowOutcomes (index + 1) rest db
  end.

Definition rowErrors (outcomes : list (string + EnrichedRow)) : list string :=
  omap (λ o, match o with inl error => Some error | inr _ => None end)
    outcomes.

Definition rowsAccepted (outcomes : list (string + EnrichedRow))
    : list EnrichedRow :=
  omap (λ o, match o with inl _ => None | inr enriched => Some enriched end)
    outcomes.

(** The checks a row has to pass, as the specification lists them:
    required columns, a customer id, positive numeric points, a criteria
    reference, a note, a customer and a criteria that resolve. *)
Definition rowIsValid `{Host} (rawRow : RawRow) (db : Db) : Prop :=
  (∀ column, column ∈ REQUIRED_BULK_COLUMNS → is_Some (rawRow !! column))
  ∧ normalizeString (field rawRow "customer_id") ≠ ""
  ∧ (∃ points, Number (field rawRow "points") = Some points ∧ 0 < points)
  ∧ normalizeString (field rawRow "point_criteria") ≠ ""
  ∧ normalizeString (field rawRow "note") ≠ ""
  ∧ is_Some
      (findOne
         (λ c, Customer.customer_id c
               = normalizeString (field rawRow "customer_id"))
         (customers db))
  ∧ is_Some
      (resolvePointCriteria
         (JsString (normalizeString (field rawRow "point_criteria"))) db).

(** The running balance and coin counter of every customer, and of one. *)
Definition balances (db : Db) : list (ObjectId * (Z * Z)) :=
  (λ c, (Customer._id c, (Customer.total_points c, Customer.coins c)))
  <$> customers db.

Definition balanceOf (customerId : ObjectId) (db : Db) : option (Z * Z) :=
  (λ c, (Customer.total_points c, Customer.coins c))
  <$> Customer_findById customerId db.

Definition totalPoints (db : Db) : Z :=
  foldr (λ c s, Customer.total_points c + s) 0 (customers db).

Definition totalCoins (db : Db) : Z :=
  foldr (λ c s, Customer.coins c + s) 0 (customers db).

(** What is known of [tierController.checkAndUpgradeTier], whose source
    is in another module: it re-evaluates tiers, so it leaves the ledger
    and every balance alone and only appends to the transaction log. *)
Definition tierCheckOnlyMovesTiers `{Host} : Prop :=
  ∀ customerId db db',
    checkAndUpgradeTier customerId db = Some db' →
    loyaltyPoints db' = loyaltyPoints db
    ∧ transactions db `prefix_of` transactions db'
    ∧ balances db' = balances db.

(** One run of the best-effort ledger block throws (and is swallowed):
    this call, for this customer, amount, transaction, time and database,
    creates nothing and leaves the database as it found it. *)
Definition ledgerBlockThrows `{Host} (customer : Customer.doc)
    (tierId : option ObjectId) (points : Z) (transaction : Transaction.doc)
    (now : Z) (db : Db) : Prop :=
  tryCreateLoyaltyPoints customer tierId points transaction now db = db.

(** The transaction a grant has created and the database it has reached
    when it enters the ledger block: the transaction is recorded and the
    balance raised. *)
Definition beforeLedgerBlock (customer : Customer.doc) (points : Z)
    (document : ObjectId → Transaction.doc) (db : Db)
    : Transaction.doc * Db :=
  (fst (Transaction_create document db),
   Customer_findByIdAndUpdate (Customer._id customer)
     (Customer.inc_points_and_coins points points)
     (snd (Transaction_create document db))).

(** The ledger calls of a bulk grant, row by row: each row with the
    transaction and the database its ledger block is entered with. *)
Fixpoint ledgerCalls `{Host} (requestedBy : string)
    (appType : option ObjectId) (now : Z) (rows : list EnrichedRow) (db : Db)
    : list (EnrichedRow * (Transaction.doc * Db)) :=
  match rows with
  | [] => []
  | entry :: rest =>
      let call :=
        beforeLedgerBlock (row_customer entry) (row_points entry)
          (rowGrantDocument requestedBy appType now entry) db in
      (entry, call)
      :: ledgerCalls requestedBy appType now rest
           (tryCreateLoyaltyPoints (row_customer entry)
              (Tier._id <$> row_tier entry) (row_points entry) call.1 now
              call.2)
  end.

Definition rowLedgerThrows `{Host} (now : Z)
    (call : EnrichedRow * (Transaction.doc * Db)) : Prop :=
  ledgerBlockThrows (row_customer call.1) (Tier._id <$> row_tier call.1)
    (row_points call.1) call.2.1 now call.2.2.

(** The part of a transaction a grant is recognised by. *)
Definition grantView (t : Transaction.doc) : ObjectId * string * Z * string :=
  (Transaction.customer_id t, Transaction.transaction_type t,
   Transaction.points t, Transaction.status t).

(** What an accepted bulk row is expected to grant. *)
Definition rowGrant (r : EnrichedRow) : ObjectId * string * Z * string :=
  (Customer._id (row_customer r), "earn", row_points r, "completed").

Definition sumRowPoints (accepted : list EnrichedRow) : Z :=
  foldr (λ r s, row_points r + s) 0 accepted.

(** [points_awarded] of a 201 answer of [addPointsIndividual]. *)
Definition pointsAwarded (res : Response) : option Z :=
  match res_data res with
  | DataAdded _ _ points_awarded => Some points_awarded
  | _ => None
  end.

(** *** Example data *)

Definition day (d : Z) : Z := d * 86400000.

(** A host whose collaborators always succeed; of the patterns that do
    not compile it knows the one built from ["*"]. *)
Definition demoRegExpError (pattern : string) : option string :=
  if bool_decide (pattern = "^*$")
  then Some "Invalid regular expression: /^*$/i: Nothing to repeat"
  else None.

Definition demoHost : Host :=
  mkHost (λ _, None) (λ _, None) demoRegExpError
         (λ p s, bool_decide (p = "^" +:+ s +:+ "$"))
         (λ z, pretty z) (λ o, "uuid-" +:+ pretty o)
         (λ _, true) (λ _ _, Some (day 365)) (λ _ db, Some db).

(** One customer with two active entries: 50 points earned on day 1 that
    expire on day 10, and 100 points earned on day 5 that expire on
    day 30. *)
Definition entryDay1 : LoyaltyPoints.doc :=
  LoyaltyPoints.mk 10%N 1%N 50 (day 10) (day 1) "active" None None.

Definition entryDay5 : LoyaltyPoints.doc :=
  LoyaltyPoints.mk 11%N 1%N 100 (day 30) (day 5) "active" None None.

Definition twoEntriesDb : Db :=
  mkDb [Customer.mk 1%N "CUST000001" None 150 150]
       [entryDay5; entryDay1] [] [] [] [] [] [] 100%N.

(** Three tiers; a customer at Bronze whose priority record guarantees
    Silver, and a customer at Silver whose priority record guarantees
    Gold. *)
Definition bronze : Tier.doc := Tier.mk 100%N "Bronze" 0 0.
Definition silver : Tier.doc := Tier.mk 101%N "Silver" 1 50.
Definition gold : Tier.doc := Tier.mk 102%N "Gold" 2 100.

Definition atBronze : Customer.doc :=
  Customer.mk 1%N "CUST000001" (Some 100%N) 10 10.

Definition atSilver : Customer.doc :=
  Customer.mk 2%N "CUST000002" (Some 101%N) 500 500.

Definition priorityDb : Db :=
  mkDb [atBronze; atSilver] [] [] [bronze; silver; gold] []
       [PriorityCustomer.mk 1%N 101%N true; PriorityCustomer.mk 2%N 102%N true]
       [] [] 200%N.

(** A ledger with one entry due before day 10 and one due on day 10. *)
Definition dueDay5 : LoyaltyPoints.doc :=
  LoyaltyPoints.mk 10%N 1%N 50 (day 5) (day 1) "active" None None.

Definition dueDay10 : LoyaltyPoints.doc :=
  LoyaltyPoints.mk 11%N 1%N 100 (day 10) (day 2) "active" None None.

Definition twoDueDatesDb : Db :=
  mkDb [Customer.mk 1%N "CUST000001" (Some 100%N) 150 150]
       [dueDay5; dueDay10] [] [bronze; silver; gold] [] [] [] [] 200%N.



Definition welcomeBonus : PointCriteria.doc :=
  PointCriteria.mk 50%N "WELCOME" (Some [mkRule "fixed" (Some 25)]).

Definition grantDb : Db :=
  mkDb [Customer.mk 1%N "CUST000001" (Some 100%N) 150 150]
       [entryDay5; entryDay1] [] [bronze; silver; gold] [] []
       [welcomeBonus] [] 300%N.

(** A Gold customer with 40 points whose priority record guarantees
    Silver; no tier has eligibility criteria. *)
Definition goldWith40 : Customer.doc :=
  Customer.mk 3%N "CUST000003" (Some 102%N) 40 40.

Definition protectedGoldDb : Db :=
  mkDb [goldWith40] [] [] [bronze; silver; gold] []
       [PriorityCustomer.mk 3%N 101%N true] [] [] 200%N.





(** Silver asks for 100 points earned in each of the last two 30-day
    periods; the customer earned 150 points five days ago and nothing in
    the period before. *)
Definition silverCriteria : TierEligibilityCriteria.doc :=
  TierEligibilityCriteria.mk 101%N true 30 2 100.

Definition recentEarn : Transaction.doc :=
  Transaction.mk 150%N 2%N "earn" 150 "TXN-150" None None "completed"
    "purchase" MetaNone None (day 95).

Definition criteriaDb : Db :=
  mkDb [atSilver] [] [recentEarn] [bronze; silver; gold] [silverCriteria]
       [] [] [] 200%N.

(** A sheet of three rows whose third row has negative points. *)
Definition sheetRow (customer : string) (points : Z) : RawRow :=
  {[ "customer_id" := JsString customer; "points" := JsNumber points;
     "point_criteria" := JsString "WELCOME";
     "note" := JsString "compensation" ]}.

Definition threeRows : list RawRow :=
  [sheetRow "CUST000001" 100; sheetRow "CUST000001" 50;
   sheetRow "CUST000001" (-5)].

Definition bulkUpload (rows : list RawRow) : BulkRequest :=
  mkBulkReq (Some (Sheet rows)) (JsString "admin").

(** The two-due-dates ledger after a first run at day 10 and after a
    second run one millisecond later. *)
Definition afterFirstRun : Db :=
  processPointsAndTiers (H := demoHost) (day 10) twoDueDatesDb.

Definition afterSecondRun : Db :=
  processPointsAndTiers (H := demoHost) (day 10 + 1) afterFirstRun.

(** A grant by the welcome criteria and its reversal. *)
Definition welcomeGrant : AddRequest :=
  mkAddReq 1%N "WELCOME" "admin" "bonus".

Definition reversal : ReduceRequest :=
  mkReduceReq 1%N 25 "admin" "reversal".

Definition afterGrant : Db :=
  snd (addPointsIndividual (H := demoHost) welcomeGrant (day 6) grantDb).

(** The customer of the welcome grant, and the transaction and database
    with which the grant enters its ledger block on the host whose ledger
    schema rejects every entry. *)
Definition grantCustomer : Customer.doc :=
  Customer.mk 1%N "CUST000001" (Some 100%N) 150 150.


(** A sheet of two valid rows for the same customer, of 100 and of 50
    points, and the bulk grant of it on the host whose ledger schema
    rejects the entries of 50 points. *)
Definition twoRows : list RawRow :=
  [sheetRow "CUST000001" 100; sheetRow "CUST000001" 50].


(** * Further definitions for the statements below *)

(** What one entry contributes to a customer's redeemable sum. *)
Definition contribution (customerId : ObjectId) (now : Z)
    (e : LoyaltyPoints.doc) : Z :=
  if decide (redeemable customerId now e) then LoyaltyPoints.points e else 0.

Definition usedTotal (used : list UsedLoyaltyPoint) : Z :=
  foldr (λ u s, points_used u + s) 0 used.

(** The part of a transaction the expiry of an entry is recognised by, and
    what the sweep is expected to record for an entry. *)
Definition expireView (t : Transaction.doc)
    : ObjectId * string * Z * string * option ObjectId :=
  (Transaction.customer_id t, Transaction.transaction_type t,
   Transaction.points t, Transaction.status t, Transaction.reference_id t).

Definition expiryOf (e : LoyaltyPoints.doc)
    : ObjectId * string * Z * string * option ObjectId :=
  (LoyaltyPoints.customer_id e, "expire", - LoyaltyPoints.points e,
   "completed", LoyaltyPoints.transaction_id e).

Definition hasCustomer (db : Db) (e : LoyaltyPoints.doc) : Prop :=
  LoyaltyPoints.customer_id e ∈ Customer._id <$> customers db.

#[global] Instance hasCustomer_dec db e : Decision (hasCustomer db e).
Proof. unfold hasCustomer. apply _. Defined.

Definition loggedPoints (added : list Transaction.doc) : Z :=
  foldr (λ t s, Transaction.points t + s) 0 added.

(** What the scheduled job leaves alone: the reference data, every
    customer's identity and coins, every ledger entry but for its status,
    and the transactions already recorded. *)
Definition ledgerHistory (e : LoyaltyPoints.doc)
    : ObjectId * ObjectId * Z * Z * Z * option Z * option ObjectId :=
  (LoyaltyPoints._id e, LoyaltyPoints.customer_id e, LoyaltyPoints.points e,
   LoyaltyPoints.expiryDate e, LoyaltyPoints.earnedAt e,
   LoyaltyPoints.redeemedAt e, LoyaltyPoints.transaction_id e).

Definition customerIdentity (c : Customer.doc) : ObjectId * string * Z :=
  (Customer._id c, Customer.customer_id c, Customer.coins c).

Definition keepsHistory (db db' : Db) : Prop :=
  tiers db' = tiers db
  ∧ tierEligibilityCriteria db' = tierEligibilityCriteria db
  ∧ priorityCustomers db' = priorityCustomers db
  ∧ pointCriterias db' = pointCriterias db
  ∧ appTypes db' = appTypes db
  ∧ customerIdentity <$> customers db' = customerIdentity <$> customers db
  ∧ ledgerHistory <$> loyaltyPoints db' = ledgerHistory <$> loyaltyPoints db
  ∧ transactions db `prefix_of` transactions db'.

(** The tier an action takes the customer from and the tier it writes. *)
Definition tierMove (a : TierAction) : option (Tier.doc * Tier.doc) :=
  match a with
  | ProtectionUpgrade currentTier priorityTier =>
      Some (currentTier, priorityTier)
  | Downgrade currentTier newTier _ => Some (currentTier, newTier)
  | Retain | Failed => None
  end.

(** The database with one more transaction recorded. *)
Definition recorded (t : Transaction.doc) (db : Db) : Db :=
  with_transactions (transactions db ++ [t]) db.

(** A transaction the retention check counts for a customer, in whichever
    period its date falls. *)
Definition completedEarnOf (customerId : ObjectId) (t : Transaction.doc)
    : Prop :=
  Transaction.customer_id t = customerId
  ∧ Transaction.transaction_type t = "earn"
  ∧ Transaction.status t = "completed".

(** What [updateTransactionAppTypes] is expected to do to one transaction:
    a transaction without [app_type] whose [metadata.requested_by],
    lowercased and trimmed, is the lowercased name of an app type gets
    that app type; any other transaction stays as it is. *)
Section ReportsStatements.
Variable toLowerCase : string → string.

Definition appTypeFor (db : Db) (t : Transaction.doc) : option ObjectId :=
  buildAppTypeMap toLowerCase (appTypes db)
  !! trim (toLowerCase
             (default "" (requested_by_of (Transaction.metadata t)))).

Definition assignAppType (db : Db) (t : Transaction.doc) : Transaction.doc :=
  if decide (needsAppType t) then
    match appTypeFor db t with
    | Some appTypeId => Transaction_set_app_type appTypeId t
    | None => t
    end
  else t.

Definition plainAppNames (db : Db) : Prop :=
  "__proto__" ∉ (λ app, toLowerCase (AppType.name app)) <$> appTypes db.

(** The app types stored under a key of the map, in collection order. *)
Definition namedLike (key : string) (appTypes : list AppType.doc)
    : list AppType.doc :=
  filter (λ app, toLowerCase (AppType.name app) = key) appTypes.

(** What one iteration does to one document of the collection. *)
Definition appTypeStepDoc (appTypeMap : gmap string ObjectId)
    (t x : Transaction.doc) : Transaction.doc :=
  match appTypeMap
        !! trim (toLowerCase
                   (default "" (requested_by_of (Transaction.metadata x))))
  with
  | Some appTypeId =>
      if decide (Transaction._id t = Transaction._id x)
      then Transaction_set_app_type appTypeId t else t
  | None => t
  end.

End ReportsStatements.

(** The parts of an answer of [updateTransactionAppTypes]. *)
Definition reportTotal (r : AppTypeReport) : Z :=
  match r with
  | ReportCounts total _ _ | ReportUpdates total _ _ _ _ => total
  end.

Definition reportSuccess (r : AppTypeReport) : Z :=
  match r with
  | ReportCounts _ success _ | ReportUpdates _ success _ _ _ => success
  end.

Definition reportFailed (r : AppTypeReport) : Z :=
  match r with
  | ReportCounts _ _ failed | ReportUpdates _ _ failed _ _ => failed
  end.



(** The part of a ledger entry a grant is recognised by, and the entry an
    accepted bulk row is expected to add. *)
Definition ledgerView (e : LoyaltyPoints.doc) : ObjectId * Z * string :=
  (LoyaltyPoints.customer_id e, LoyaltyPoints.points e,
   LoyaltyPoints.status e).

Definition rowLedger (r : EnrichedRow) : ObjectId * Z * string :=
  (Customer._id (row_customer r), row_points r, "active").

(** The number of tier changes recorded for a customer. *)
Definition tierMovesFor (customerId : ObjectId) (db : Db) : nat :=
  (countFor customerId "tier_downgrade" db
   + countFor customerId "tier_protection_adjustment" db)%nat.

(** *** Further example data *)

(** A customer at Silver whose balance has gone negative. *)
Definition overdrawn : Customer.doc :=
  Customer.mk 2%N "CUST000002" (Some 101%N) (-5) 0.

(** A reduction as it is recorded. *)
Definition reductionRecord : Transaction.doc :=
  Transaction.mk 151%N 2%N "redeem" (-25) "TXN-151" None None "completed"
    "Manual points reduction by admin - reversal"
    (MetaManualReduce "admin" 25 []) None (day 96).

(** A grant and a reduction whose [requested_by] is not a regular
    expression. *)
Definition starGrant : AddRequest :=
  mkAddReq 1%N "WELCOME" "*" "bonus".

Definition starReduction : ReduceRequest :=
  mkReduceReq 1%N 25 "*" "reversal".

(** The Silver customer with 120 points earned in the period before the
    last and 150 in the last one, both above the 100 that Silver asks
    for, and a further grant of 10 points. *)
Definition earlierEarn : Transaction.doc :=
  Transaction.mk 149%N 2%N "earn" 120 "TXN-149" None None "completed"
    "purchase" MetaNone None (day 50).

Definition laterEarn : Transaction.doc :=
  Transaction.mk 152%N 2%N "earn" 10 "TXN-152" None None "completed"
    "purchase" MetaNone None (day 96).

Definition steadyEarnerDb : Db :=
  mkDb [atSilver] [] [earlierEarn; recentEarn] [bronze; silver; gold]
       [silverCriteria] [] [] [] 200%N.

(** Lowercasing of the ASCII letters, standing for
    [String.prototype.toLowerCase] on ASCII input. *)
Definition lowerAscii (a : Ascii.ascii) : Ascii.ascii :=
  let n := Ascii.nat_of_ascii a in
  if ((65 <=? n) && (n <=? 90))%nat then Ascii.ascii_of_nat (n + 32) else a.

Fixpoint lowerCase (s : string) : string :=
  match s with
  | EmptyString => EmptyString
  | String a s' => String (lowerAscii a) (lowerCase s')
  end.

(** Three app types, two of which have the same lowercased name, and four
    transactions: one without app type requested by [" Web "], one that
    has an app type, one requested by an unknown app and one without
    [requested_by]. *)
Definition webApp : AppType.doc := AppType.mk 70%N "Web".
Definition mobileApp : AppType.doc := AppType.mk 71%N "Mobile".
Definition webAgain : AppType.doc := AppType.mk 72%N "WEB".

Definition byWeb : Transaction.doc :=
  Transaction.mk 301%N 1%N "earn" 25 "TXN-301" None None "completed" "bonus"
    (MetaManualAdd " Web " "WELCOME" None None) None (day 1).

Definition byMobile : Transaction.doc :=
  Transaction.mk 302%N 1%N "earn" 25 "TXN-302" None (Some 71%N) "completed"
    "bonus" (MetaManualAdd "web" "WELCOME" None None) None (day 2).

Definition byKiosk : Transaction.doc :=
  Transaction.mk 303%N 1%N "redeem" (-5) "TXN-303" None None "completed"
    "reversal" (MetaManualReduce "kiosk" 5 []) None (day 3).

Definition byNobody : Transaction.doc :=
  Transaction.mk 304%N 1%N "expire" (-5) "TXN-304" None None "completed"
    "expired" MetaNone None (day 4).

Definition appTypeDb : Db :=
  mkDb [] [] [byWeb; byMobile; byKiosk; byNobody] [] [] [] []
       [webApp; mobileApp; webAgain] 400%N.

Definition castError (key : string) : string :=
  "Cast to ObjectId failed for value at path app_type: " +:+ key.

Definition afterAppTypeUpdate : Db :=
  snd (updateTransactionAppTypes lowerCase castError appTypeDb).

(** * Properties *)

(** ** Queries and updates on a collection *)

Section Collections.
Context {A : Type}.
Implicit Types (P Q : A → Prop) (f : A → A) (l : list A).

Lemma findOne_nil P `{!∀ x, Decision (P x)} : findOne P [] = None.
Proof. reflexivity. Qed.

Lemma findOne_cons P `{!∀ x, Decision (P x)} x l :
  findOne P (x :: l) = if decide (P x) then Some x else findOne P l.
Proof.
  unfold findOne. cbn. destruct (decide (P x)); [done|].
  destruct (list_find P l) as [[i y]|]; done.
Qed.

Lemma findOne_Some P `{!∀ x, Decision (P x)} l x :
  findOne P l = Some x → x ∈ l ∧ P x.
Proof.
  induction l as [|y l IH]; [done|]. rewrite findOne_cons.
  destruct (decide (P y)).
  - intros [= ->]. split; [left|done].
  - intros Hx. destruct (IH Hx). split; [by right|done].
Qed.

Lemma findOne_None P `{!∀ x, Decision (P x)} l :
  findOne P l = None ↔ ∀ x, x ∈ l → ¬ P x.
Proof.
  induction l as [|y l IH].
  - split; [|done]. intros _ x Hx. by apply elem_of_nil in Hx.
  - rewrite findOne_cons. destruct (decide (P y)) as [Hy|Hy].
    + split; [done|]. intros Hall. destruct (Hall y); [left|done].
    + rewrite IH. split.
      * intros Hall x [->|Hx]%elem_of_cons; auto.
      * intros Hall x Hx. apply Hall. by right.
Qed.

Lemma updateOne_length P `{!∀ x, Decision (P x)} f l :
  length (updateOne P f l) = length l.
Proof.
  induction l as [|y l IH]; [done|]. cbn.
  destruct (decide (P y)); cbn; by rewrite ?IH.
Qed.

(** An update keyed on [P] is invisible to a query keyed on a [Q] that
    neither the rewritten document nor its image satisfies. *)
Lemma findOne_updateOne_other P Q `{!∀ x, Decision (P x)}
    `{!∀ x, Decision (Q x)} f l :
  (∀ x, P x → ¬ Q x ∧ ¬ Q (f x)) →
  findOne Q (updateOne P f l) = findOne Q l.
Proof.
  intros Hsep. induction l as [|y l IH]; [done|]. cbn.
  destruct (decide (P y)) as [Hy|Hy].
  - destruct (Hsep y Hy) as [Hn Hn']. rewrite !findOne_cons.
    destruct (decide (Q (f y))), (decide (Q y)); done.
  - rewrite !findOne_cons. destruct (decide (Q y)); done.
Qed.

(** The update rewrites the very document the same query returns. *)
Lemma findOne_updateOne_same P `{!∀ x, Decision (P x)} f l x :
  (∀ y, P y → P (f y)) →
  findOne P l = Some x →
  findOne P (updateOne P f l) = Some (f x).
Proof.
  intros Hf. induction l as [|y l IH]; [done|]. rewrite findOne_cons. cbn.
  destruct (decide (P y)) as [Hy|Hy].
  - intros [= ->]. rewrite findOne_cons.
    destruct (decide (P (f x))) as [|Hn]; [done|]. destruct Hn. auto.
  - intros Hx. rewrite findOne_cons.
    destruct (decide (P y)); [done|]. auto.
Qed.

Lemma updateOne_absent P `{!∀ x, Decision (P x)} f l :
  (∀ x, x ∈ l → ¬ P x) → updateOne P f l = l.
Proof.
  induction l as [|y l IH]; [done|]. intros Hall. cbn.
  destruct (decide (P y)) as [Hy|Hy].
  - destruct (Hall y); [left|done].
  - f_equal. apply IH. intros x Hx. apply Hall. by right.
Qed.

End Collections.

(** In a collection with distinct keys, the query by key returns each of
    its documents. *)
Lemma findOne_key_NoDup {A K} `{EqDecision K} (key : A → K) (l : list A) x :
  NoDup (key <$> l) → x ∈ l → findOne (λ y, key y = key x) l = Some x.
Proof.
  induction l as [|y l IH]; intros Hnd Hx.
  - by apply elem_of_nil in Hx.
  - rewrite fmap_cons in Hnd. apply NoDup_cons in Hnd as [Hy Hnd].
    rewrite findOne_cons. apply elem_of_cons in Hx as [->|Hx].
    + by rewrite decide_True.
    + rewrite decide_False; [by apply IH|].
      intros Heq. apply Hy. rewrite Heq. by apply list_elem_of_fmap_2.
Qed.

(** Distinct keys identify the documents of a collection. *)
Lemma NoDup_key_inj {A K} `{EqDecision K} (key : A → K) (l : list A) x y :
  NoDup (key <$> l) → x ∈ l → y ∈ l → key x = key y → x = y.
Proof.
  intros Hnd Hx Hy Hkey.
  assert (Hqx := findOne_key_NoDup key l x Hnd Hx).
  assert (Hqy := findOne_key_NoDup key l y Hnd Hy).
  rewrite Hkey in Hqx. congruence.
Qed.

(** ** FIFO redemption *)

Lemma sumPoints_from (l : list LoyaltyPoints.doc) (a : Z) :
  foldl (λ sum entry, sum + LoyaltyPoints.points entry) a l
  = a + foldr (λ e s, LoyaltyPoints.points e + s) 0 l.
Proof.
  revert a. induction l as [|e l IH]; intros a; cbn; [lia|].
  rewrite IH. lia.
Qed.

Lemma sumPoints_foldr l :
  sumPoints l = foldr (λ e s, LoyaltyPoints.points e + s) 0 l.
Proof. unfold sumPoints. rewrite sumPoints_from. lia. Qed.

Lemma sumPoints_cons e l :
  sumPoints (e :: l) = LoyaltyPoints.points e + sumPoints l.
Proof. by rewrite !sumPoints_foldr. Qed.

Lemma sumPoints_app l1 l2 :
  sumPoints (l1 ++ l2) = sumPoints l1 + sumPoints l2.
Proof.
  induction l1 as [|e l1 IH].
  - rewrite !sumPoints_foldr. cbn. lia.
  - cbn [app]. rewrite !sumPoints_cons, IH. lia.
Qed.

Lemma sumPoints_Permutation l1 l2 : l1 ≡ₚ l2 → sumPoints l1 = sumPoints l2.
Proof.
  induction 1 as [|e l1 l2 _ IH|e1 e2 l|l1 l2 l3 _ IH1 _ IH2].
  - done.
  - rewrite !sumPoints_cons. lia.
  - rewrite !sumPoints_cons. lia.
  - congruence.
Qed.

Section Redemption.
Context `{Host}.

Lemma validPoints_Permutation customerId now db :
  validPoints customerId now db
  ≡ₚ filter (redeemable customerId now) (loyaltyPoints db).
Proof. apply merge_sort_Permutation. Qed.

Lemma sumPoints_validPoints customerId now db :
  sumPoints (validPoints customerId now db) = availableSum customerId now db.
Proof.
  rewrite (sumPoints_Permutation _ _ (validPoints_Permutation _ _ _)).
  apply sumPoints_foldr.
Qed.

Lemma redeemPointsFIFO_insufficient customerId pointsToRedeem now db :
  availableSum customerId now db < pointsToRedeem →
  redeemPointsFIFO customerId pointsToRedeem now db
  = (mkFifo false (availableSum customerId now db) 0
       (insufficientMessage (availableSum customerId now db) pointsToRedeem)
       [],
     db).
Proof.
  intros Hlt. unfold redeemPointsFIFO. rewrite sumPoints_validPoints.
  by rewrite decide_True.
Qed.

Lemma Customer_findById_id id db c :
  Customer_findById id db = Some c → Customer._id c = id.
Proof. intros Hc. by apply findOne_Some in Hc as [_ ?]. Qed.

(** C2. A redemption that asks for more than the customer's active,
    unexpired ledger entries hold changes nothing: [redeemPointsFIFO]
    returns the database it was given together with a failure that carries
    the available sum and a message naming both the available and the
    requested amount, and [reducePoints] commits nothing and, once it has
    found the customer and accepted the amount, answers 400 with that same
    message. *)
Theorem C2_insufficient_points_mutate_nothing
    (customerId : ObjectId) (pointsToRedeem now : Z) (db : Db) :
  availableSum customerId now db < pointsToRedeem →
  let available := availableSum customerId now db in
  let result := fst (redeemPointsFIFO customerId pointsToRedeem now db) in
  let db' := snd (redeemPointsFIFO customerId pointsToRedeem now db) in
  db' = db
  ∧ success result = false
  ∧ availablePoints result = available
  ∧ redeemedPoints result = 0
  ∧ message result = insufficientMessage available pointsToRedeem
  ∧ availablePoints result < pointsToRedeem
  ∧ ∀ req : ReduceRequest,
      reduce_customer_id req = customerId →
      reduce_points req = pointsToRedeem →
      snd (reducePoints req now db) = db
      ∧ (is_Some (Customer_findById customerId db) → 0 < pointsToRedeem →
         fst (reducePoints req now db)
         = response_handler 400
             (insufficientMessage available pointsToRedeem) NoData).
Proof.
  intros Hlt available result db'. subst result db'.
  assert (Hfifo := redeemPointsFIFO_insufficient _ _ _ _ Hlt).
  rewrite Hfifo. cbn.
  do 6 (split; [done|]). intros req Hid Hpts.
  unfold reducePoints. rewrite Hid, Hpts.
  destruct (Customer_findById customerId db) as [c|] eqn:Hc.
  - rewrite (Customer_findById_id _ _ _ Hc), Hfifo.
    destruct (decide (pointsToRedeem ≤ 0)) as [Hle|Hgt]; cbn.
    + split; [done|]. intros _ Hpos. lia.
    + done.
  - split; [done|]. by intros [c Hc'].
Qed.

(** *** The walk over the entries *)

#[local] Instance earnedAt_le_trans : Transitive earnedAt_le.
Proof. unfold earnedAt_le. intros a b c. lia. Qed.

#[local] Instance earnedAt_le_total : Total earnedAt_le.
Proof. unfold earnedAt_le. intros a b. lia. Qed.

Lemma validPoints_sorted customerId now db :
  StronglySorted earnedAt_le (validPoints customerId now db).
Proof. apply StronglySorted_merge_sort; apply _. Qed.

Lemma validPoints_elem customerId now db e :
  e ∈ validPoints customerId now db
  ↔ e ∈ loyaltyPoints db ∧ redeemable customerId now e.
Proof.
  rewrite (validPoints_Permutation customerId now db).
  rewrite list_elem_of_filter. tauto.
Qed.

Lemma fifoLoop_done now entries actual used db :
  fifoLoop now entries 0 actual used db = (actual, used, db).
Proof. destruct entries; [done|]. cbn. by rewrite decide_True. Qed.

(** The loop redeems a prefix of the entries in full, takes the rest of the
    amount from at most one further entry, and does not reach the others. *)
Lemma fifoLoop_split now entries :
  ∀ remaining actual used db,
  ∃ full partial rest,
    entries = full ++ partial ++ rest
    ∧ (length partial ≤ 1)%nat
    ∧ (∀ e, e ∈ partial →
         0 < remaining - sumPoints full < LoyaltyPoints.points e)
    ∧ (0 ≤ remaining ≤ sumPoints entries →
         remaining
         = sumPoints full
           + (if partial is [] then 0 else remaining - sumPoints full))
    ∧ fifoLoop now entries remaining actual used db
      = (actual + sumPoints full
         + (if partial is [] then 0 else remaining - sumPoints full),
         used ++ (usedFully <$> full)
         ++ ((λ e, usedPartly e (remaining - sumPoints full)) <$> partial),
         consume now full partial (remaining - sumPoints full) db).
Proof.
  assert (Hnil : sumPoints [] = 0) by done.
  induction entries as [|entry entries IH]; intros remaining actual used db.
  - exists [], [], []. rewrite Hnil.
    split; [done|]. split; [cbn; lia|].
    split; [by intros e ?%elem_of_nil|]. split; [lia|].
    cbn. by rewrite app_nil_r, !Z.add_0_r.
  - cbn [fifoLoop]. destruct (decide (remaining ≤ 0)) as [Hstop|Hgo].
    { exists [], [], (entry :: entries). rewrite Hnil.
      split; [done|]. split; [cbn; lia|].
      split; [by intros e ?%elem_of_nil|]. split; [lia|].
      cbn. by rewrite app_nil_r, !Z.add_0_r. }
    destruct (decide (LoyaltyPoints.points entry ≤ remaining)) as [Hfull|Hpart].
    + destruct (IH (remaining - LoyaltyPoints.points entry)
                   (actual + LoyaltyPoints.points entry)
                   (used ++ [usedFully entry])
                   (LoyaltyPoints_findByIdAndUpdate (LoyaltyPoints._id entry)
                      (LoyaltyPoints.set_redeemed now) db))
        as (full & partial & rest & -> & Hlen & Hpartial & Hsum & Hloop).
      exists (entry :: full), partial, rest.
      rewrite sumPoints_cons.
      replace (remaining - (LoyaltyPoints.points entry + sumPoints full))
        with (remaining - LoyaltyPoints.points entry - sumPoints full) by lia.
      split; [done|]. split; [done|]. split; [done|]. split.
      * intros Hrange. rewrite sumPoints_cons in Hrange.
        destruct partial; lia.
      * rewrite Hloop. rewrite fmap_cons, <-!app_assoc. cbn [app].
        f_equal. f_equal. destruct partial; lia.
    + exists [], [entry], entries.
      rewrite Hnil, Z.sub_0_r.
      split; [done|]. split; [done|]. split.
      * intros e ->%list_elem_of_singleton. lia.
      * split; [lia|]. by rewrite fifoLoop_done, Z.add_0_r.
Qed.

(** *** Reading the ledger after the walk *)

Lemma updateEntry_frame g l : ∀ d,
  customers (foldl (updateEntry g) d l) = customers d
  ∧ transactions (foldl (updateEntry g) d l) = transactions d.
Proof.
  induction l as [|e l IHl]; intros d; [done|].
  cbn [foldl]. by destruct (IHl (updateEntry g d e)) as [-> ->].
Qed.

Lemma consume_frame now full partial pointsToUse db :
  customers (consume now full partial pointsToUse db) = customers db
  ∧ transactions (consume now full partial pointsToUse db) = transactions db.
Proof.
  unfold consume.
  destruct (updateEntry_frame
              (λ e, LoyaltyPoints.set_points
                      (LoyaltyPoints.points e - pointsToUse))
              partial
              (foldl (updateEntry (λ _, LoyaltyPoints.set_redeemed now))
                 db full)) as [-> ->].
  apply updateEntry_frame.
Qed.

Section UpdatesById.
(** A sequence of updates by [_id], each with a rewrite that keeps the
    [_id] of the document. *)
Variable g : LoyaltyPoints.doc → LoyaltyPoints.doc → LoyaltyPoints.doc.
Hypothesis g_id : ∀ e x, LoyaltyPoints._id (g e x) = LoyaltyPoints._id x.

Lemma updateEntry_other d e j :
  LoyaltyPoints._id e ≠ j →
  LoyaltyPoints_findById j (updateEntry g d e) = LoyaltyPoints_findById j d.
Proof.
  intros Hne. unfold LoyaltyPoints_findById, updateEntry,
    LoyaltyPoints_findByIdAndUpdate; cbn.
  apply findOne_updateOne_other. intros x Hx. rewrite g_id. split; congruence.
Qed.

Lemma updateEntry_same d e x :
  LoyaltyPoints_findById (LoyaltyPoints._id e) d = Some x →
  LoyaltyPoints_findById (LoyaltyPoints._id e) (updateEntry g d e)
  = Some (g e x).
Proof.
  intros Hx. unfold LoyaltyPoints_findById, updateEntry,
    LoyaltyPoints_findByIdAndUpdate in *; cbn.
  apply findOne_updateOne_same; [|done]. intros y Hy. by rewrite g_id.
Qed.

Lemma updateEntries_other l : ∀ d j,
  j ∉ LoyaltyPoints._id <$> l →
  LoyaltyPoints_findById j (foldl (updateEntry g) d l)
  = LoyaltyPoints_findById j d.
Proof.
  induction l as [|e l IHl]; intros d j Hj; [done|].
  rewrite fmap_cons, not_elem_of_cons in Hj. destruct Hj as [Hne Hj].
  cbn [foldl]. rewrite IHl by done. by apply updateEntry_other.
Qed.

Lemma updateEntries_same l : ∀ d e x,
  NoDup (LoyaltyPoints._id <$> l) → e ∈ l →
  LoyaltyPoints_findById (LoyaltyPoints._id e) d = Some x →
  LoyaltyPoints_findById (LoyaltyPoints._id e) (foldl (updateEntry g) d l)
  = Some (g e x).
Proof.
  induction l as [|e' l IHl]; intros d e x Hnd He Hx.
  - by apply elem_of_nil in He.
  - rewrite fmap_cons in Hnd. apply NoDup_cons in Hnd as [Hfresh Hnd].
    cbn [foldl]. apply elem_of_cons in He as [->|He].
    + rewrite updateEntries_other by done. by apply updateEntry_same.
    + apply IHl; [done..|]. rewrite updateEntry_other; [done|].
      intros Heq. apply Hfresh. rewrite Heq. by apply list_elem_of_fmap_2.
Qed.

End UpdatesById.

Lemma validPoints_NoDup customerId now db :
  NoDup (LoyaltyPoints._id <$> loyaltyPoints db) →
  NoDup (LoyaltyPoints._id <$> validPoints customerId now db).
Proof.
  intros Hnd. rewrite (validPoints_Permutation customerId now db).
  apply (sublist_NoDup _ _ Hnd).
  apply fmap_sublist, sublist_filter.
Qed.

(** C3. A successful [redeemPointsFIFO] visits the customer's active,
    unexpired entries by ascending [earnedAt]. The entries split into a
    prefix that is redeemed in full (each ends ["redeemed"] with 0 points
    and [redeemedAt] set), at most one next entry that gives the remainder
    and stays ["active"] with its points decremented, and the untouched
    rest. The prefix and the remainder account for the whole amount: when
    no entry is decremented the prefix adds up to the amount, otherwise
    the remainder is positive and less than the points of the decremented
    entry. The breakdown has one record per entry of the prefix, with
    [points_used] the points of the entry and [fully_redeemed] set, then
    one for the decremented entry with [points_used] the remainder, each
    with the entry's [_id], points, [expiryDate] and [earnedAt]; no
    customer or transaction is written. On the two entries of 50 points
    (earned day 1, expiring day 10) and 100 points (earned day 5, expiring
    day 30), redeeming 60 leaves the first redeemed and the second active
    with 90 points. *)
Theorem C3_fifo_oldest_first :
  (∀ (customerId : ObjectId) (pointsToRedeem now : Z) (db : Db),
     NoDup (LoyaltyPoints._id <$> loyaltyPoints db) →
     pointsToRedeem ≤ availableSum customerId now db →
     let valid := validPoints customerId now db in
     let result := fst (redeemPointsFIFO customerId pointsToRedeem now db) in
     let db' := snd (redeemPointsFIFO customerId pointsToRedeem now db) in
     success result = true
     ∧ StronglySorted earnedAt_le valid
     ∧ (∀ e, e ∈ valid ↔ e ∈ loyaltyPoints db ∧ redeemable customerId now e)
     ∧ ∃ full partial rest,
         let pointsToUse := pointsToRedeem - sumPoints full in
         valid = full ++ partial ++ rest
         ∧ (length partial ≤ 1)%nat
         ∧ (0 ≤ pointsToRedeem → partial = [] →
            sumPoints full = pointsToRedeem)
         ∧ usedLoyaltyPoints result
           = ((λ e, mkUsed (LoyaltyPoints._id e) (LoyaltyPoints.points e)
                      (LoyaltyPoints.points e) true
                      (LoyaltyPoints.expiryDate e) (LoyaltyPoints.earnedAt e))
              <$> full)
             ++ ((λ e, mkUsed (LoyaltyPoints._id e) (LoyaltyPoints.points e)
                         pointsToUse false
                         (LoyaltyPoints.expiryDate e)
                         (LoyaltyPoints.earnedAt e))
                 <$> partial)
         ∧ (∀ e, e ∈ full →
              LoyaltyPoints_findById (LoyaltyPoints._id e) db'
              = Some (LoyaltyPoints.mk (LoyaltyPoints._id e)
                        (LoyaltyPoints.customer_id e) 0
                        (LoyaltyPoints.expiryDate e)
                        (LoyaltyPoints.earnedAt e) "redeemed" (Some now)
                        (LoyaltyPoints.transaction_id e)))
         ∧ (∀ e, e ∈ partial →
              0 < pointsToUse < LoyaltyPoints.points e
              ∧ LoyaltyPoints.status e = "active"
              ∧ LoyaltyPoints_findById (LoyaltyPoints._id e) db'
                = Some (LoyaltyPoints.mk (LoyaltyPoints._id e)
                          (LoyaltyPoints.customer_id e)
                          (LoyaltyPoints.points e - pointsToUse)
                          (LoyaltyPoints.expiryDate e)
                          (LoyaltyPoints.earnedAt e) "active"
                          (LoyaltyPoints.redeemedAt e)
                          (LoyaltyPoints.transaction_id e)))
         ∧ (∀ j, j ∉ LoyaltyPoints._id <$> full ++ partial →
              LoyaltyPoints_findById j db' = LoyaltyPoints_findById j db)
         ∧ (0 ≤ pointsToRedeem → redeemedPoints result = pointsToRedeem)
         ∧ customers db' = customers db
         ∧ transactions db' = transactions db)
  ∧ (let result := fst (redeemPointsFIFO 1%N 60 (day 6) twoEntriesDb) in
     let db' := snd (redeemPointsFIFO 1%N 60 (day 6) twoEntriesDb) in
     validPoints 1%N (day 6) twoEntriesDb = [entryDay1; entryDay5]
     ∧ success result = true
     ∧ redeemedPoints result = 60
     ∧ usedLoyaltyPoints result
       = [mkUsed 10%N 50 50 true (day 10) (day 1);
          mkUsed 11%N 100 10 false (day 30) (day 5)]
     ∧ LoyaltyPoints_findById 10%N db'
       = Some (LoyaltyPoints.mk 10%N 1%N 0 (day 10) (day 1) "redeemed"
                 (Some (day 6)) None)
     ∧ LoyaltyPoints_findById 11%N db'
       = Some (LoyaltyPoints.mk 11%N 1%N 90 (day 30) (day 5) "active"
                 None None)).
Proof.
  split; [|by vm_compute].
  intros customerId pointsToRedeem now db Hnd Henough valid result db'.
  subst result db'. unfold redeemPointsFIFO.
  rewrite sumPoints_validPoints. rewrite decide_False by lia.
  fold valid.
  destruct (fifoLoop_split now valid pointsToRedeem 0 [] db)
    as (full & partial & rest & Hsplit & Hlen & Hpart & Hsum & ->).
  cbn [fst snd success usedLoyaltyPoints redeemedPoints app].
  split; [done|]. split; [apply validPoints_sorted|].
  split; [apply validPoints_elem|].
  exists full, partial, rest. cbv zeta.
  set (pointsToUse := pointsToRedeem - sumPoints full) in *.
  assert (Hvalid_nd := validPoints_NoDup customerId now db Hnd).
  fold valid in Hvalid_nd. rewrite Hsplit, !fmap_app in Hvalid_nd.
  apply NoDup_app in Hvalid_nd as (Hnd_full & Hfull_out & Hnd_tail).
  apply NoDup_app in Hnd_tail as (Hnd_part & _ & _).
  assert (Hin : ∀ e, e ∈ valid →
            LoyaltyPoints_findById (LoyaltyPoints._id e) db = Some e).
  { intros e [He _]%validPoints_elem.
    by apply (findOne_key_NoDup LoyaltyPoints._id). }
  assert (Hactive : ∀ e, e ∈ valid → LoyaltyPoints.status e = "active").
  { intros e He. by apply validPoints_elem in He as [_ (_ & _ & ?)]. }
  assert (Hkeep_id1 : ∀ (e x : LoyaltyPoints.doc),
            LoyaltyPoints._id (LoyaltyPoints.set_redeemed now x)
            = LoyaltyPoints._id x) by done.
  assert (Hkeep_id2 : ∀ (e x : LoyaltyPoints.doc),
            LoyaltyPoints._id
              (LoyaltyPoints.set_points
                 (LoyaltyPoints.points e - pointsToUse) x)
            = LoyaltyPoints._id x) by done.
  assert (Hall : 0 ≤ pointsToRedeem →
            pointsToRedeem
            = sumPoints full + (if partial is [] then 0 else pointsToUse)).
  { intros Hpos. apply Hsum. unfold valid.
    rewrite sumPoints_validPoints. lia. }
  split; [done|]. split; [done|]. split.
  { intros Hpos ->. specialize (Hall Hpos). cbn in Hall. lia. }
  split; [done|]. split.
  { intros e He. unfold consume.
    rewrite updateEntries_other; [|done|].
    - apply (updateEntries_same (λ _, LoyaltyPoints.set_redeemed now));
        [done..|].
      apply Hin. rewrite Hsplit, elem_of_app. by left.
    - intros Hp. eapply Hfull_out; [by apply list_elem_of_fmap_2|].
      rewrite elem_of_app. by left. }
  split.
  { intros e He.
    assert (He' : e ∈ valid) by (rewrite Hsplit, !elem_of_app; auto).
    split; [by apply Hpart|]. split; [by apply Hactive|].
    trans (Some (LoyaltyPoints.set_points
                   (LoyaltyPoints.points e - pointsToUse) e));
      [|unfold LoyaltyPoints.set_points; by rewrite (Hactive e He')].
    unfold consume.
    apply (updateEntries_same
             (λ e, LoyaltyPoints.set_points
                     (LoyaltyPoints.points e - pointsToUse)));
      [done..|].
    rewrite updateEntries_other; [|done|].
    + by apply Hin.
    + intros Hf. eapply Hfull_out; [exact Hf|].
      rewrite elem_of_app. left. by apply list_elem_of_fmap_2. }
  split.
  { intros j Hj. rewrite fmap_app, not_elem_of_app in Hj.
    destruct Hj as [Hj1 Hj2]. unfold consume.
    rewrite updateEntries_other by done.
    by rewrite updateEntries_other. }
  split.
  { intros Hpos. rewrite Z.add_0_l. symmetry. by apply Hall. }
  apply consume_frame.
Qed.

End Redemption.

(** ** Tier retention *)

#[local] Instance hierarchy_ge_trans : Transitive hierarchy_ge.
Proof. unfold hierarchy_ge. intros a b c. lia. Qed.

#[local] Instance hierarchy_ge_total : Total hierarchy_ge.
Proof. unfold hierarchy_ge. intros a b. lia. Qed.

Section Retention.
Implicit Types (customer : Customer.doc) (tier : Tier.doc)
  (criteria : TierEligibilityCriteria.doc).

Lemma periodLoop_verdict customer criteria now db indices : ∀ count,
  verdict (periodLoop customer criteria now db indices count) = true
  ↔ Forall (periodPasses customer criteria now db) indices
    ∧ TierEligibilityCriteria.consecutive_periods_required criteria
      ≤ count + Z.of_nat (length indices).
Proof.
  induction indices as [|i indices IH]; intros count; cbn [periodLoop].
  - cbn. rewrite bool_decide_eq_true, Forall_nil. split; [|lia].
    intros. split; [done|lia].
  - destruct (decide _) as [Hpass|Hfail].
    + rewrite IH, Forall_cons. cbn [length].
      unfold periodPasses at 2. split; intros [? ?]; (split; [tauto|lia]).
    + cbn. split; [done|]. intros [Hall _].
      apply Forall_cons in Hall as [Hi _]. by destruct Hfail.
Qed.





Lemma scanTiers_Some customer currentTier now db tiers t :
  scanTiers customer currentTier now db tiers = Some t →
  t ∈ tiers
  ∧ Tier.hierarchy_level t < Tier.hierarchy_level currentTier
  ∧ checkTierRetentionEligibility customer t now db = true.
Proof.
  induction tiers as [|t' tiers IH]; [done|]. cbn.
  assert (Hrest : scanTiers customer currentTier now db tiers = Some t →
            t ∈ t' :: tiers
            ∧ Tier.hierarchy_level t < Tier.hierarchy_level currentTier
            ∧ checkTierRetentionEligibility customer t now db = true).
  { intros Ht. destruct (IH Ht) as (? & ? & ?). split; [by right|done]. }
  destruct (decide _); [done|]. destruct (decide _) as [Hlow|]; [|done].
  destruct (checkTierRetentionEligibility customer t' now db) eqn:Hcheck;
    [|done].
  intros [= <-]. split; [by left|done].
Qed.


End Retention.

(** ** The scheduled job *)

(** A query by key sees an update by key only when the keys agree. *)
Lemma findOne_updateOne_key {A K} `{EqDecision K} (key : A → K)
    (f : A → A) (i j : K) (l : list A) :
  (∀ x, key (f x) = key x) →
  findOne (λ x, key x = j) (updateOne (λ x, key x = i) f l)
  = if decide (i = j) then f <$> findOne (λ x, key x = j) l
    else findOne (λ x, key x = j) l.
Proof.
  intros Hkey. destruct (decide (i = j)) as [->|Hne].
  - destruct (findOne (λ x, key x = j) l) as [x|] eqn:Hx.
    + apply findOne_updateOne_same; [|done]. intros y. by rewrite Hkey.
    + assert (Habsent := proj1 (findOne_None _ _) Hx).
      rewrite updateOne_absent by done. by rewrite Hx.
  - apply findOne_updateOne_other. intros x Hx. rewrite Hkey.
    split; congruence.
Qed.

Lemma updateOne_fmap {A B} (P : A → Prop) `{!∀ x, Decision (P x)}
    (f : A → A) (π : A → B) (l : list A) :
  (∀ x, π (f x) = π x) → π <$> updateOne P f l = π <$> l.
Proof.
  intros Hπ. induction l as [|x l IH]; [done|]. cbn.
  destruct (decide (P x)); cbn; [by rewrite Hπ|by rewrite IH].
Qed.

Lemma filter_singleton_length {A} (P : A → Prop) `{!∀ x, Decision (P x)} x :
  length (filter P [x]) = if decide (P x) then 1%nat else 0%nat.
Proof. cbn. by destruct (decide (P x)). Qed.

Section Job.
Context `{Host}.

(** *** What one iteration of the customer loop touches *)

Lemma applyTierAction_frame customer now a db :
  tiers (applyTierAction customer now a db) = tiers db
  ∧ priorityCustomers (applyTierAction customer now a db)
    = priorityCustomers db
  ∧ tierEligibilityCriteria (applyTierAction customer now a db)
    = tierEligibilityCriteria db
  ∧ loyaltyPoints (applyTierAction customer now a db) = loyaltyPoints db.
Proof. by destruct a. Qed.

Lemma applyTierAction_customers customer now a db :
  customers (applyTierAction customer now a db)
  = match a with
    | ProtectionUpgrade _ t | Downgrade _ t _ =>
        updateOne (λ c, Customer._id c = Customer._id customer)
          (Customer.set_tier (Tier._id t)) (customers db)
    | Retain | Failed => customers db
    end.
Proof. by destruct a. Qed.

Lemma applyTierAction_ids customer now a db :
  Customer._id <$> customers (applyTierAction customer now a db)
  = Customer._id <$> customers db.
Proof.
  rewrite applyTierAction_customers.
  destruct a; try done; by apply updateOne_fmap.
Qed.

Lemma applyTierAction_points customer now a db :
  Customer.total_points <$> customers (applyTierAction customer now a db)
  = Customer.total_points <$> customers db.
Proof.
  rewrite applyTierAction_customers.
  destruct a; try done; by apply updateOne_fmap.
Qed.

Lemma applyTierAction_tierOf customer now a db j :
  tierOf j (applyTierAction customer now a db)
  = match a with
    | ProtectionUpgrade _ t | Downgrade _ t _ =>
        if decide (Customer._id customer = j)
        then (λ _, Some (Tier._id t)) <$> tierOf j db
        else tierOf j db
    | Retain | Failed => tierOf j db
    end.
Proof.
  unfold tierOf, Customer_findById. rewrite applyTierAction_customers.
  destruct a; try done;
    (rewrite (findOne_updateOne_key Customer._id) by done;
     destruct (decide _); [|done];
     by destruct (findOne _ (customers db))).
Qed.

Lemma applyTierAction_countFor customer now a db j type :
  countFor j type (applyTierAction customer now a db)
  = (countFor j type db
     + if decide (Customer._id customer = j ∧ actionType a = Some type)
       then 1 else 0)%nat.
Proof.
  unfold countFor.
  destruct a; cbn;
    rewrite ?filter_app, ?length_app, ?filter_singleton_length; cbn;
    repeat case_decide; try lia; exfalso; intuition congruence.
Qed.

Lemma priorityTierOf_ext customer customer' db db' :
  Customer._id customer' = Customer._id customer →
  priorityCustomers db' = priorityCustomers db →
  tiers db' = tiers db →
  priorityTierOf customer' db' = priorityTierOf customer db.
Proof.
  intros Hid Hprio Htiers. unfold priorityTierOf, Tier_findById.
  by rewrite Hid, Hprio, Htiers.
Qed.

(** *** The expiry sweep *)

Lemma expireRecord_frame now r db :
  tiers (expireRecord now r db) = tiers db
  ∧ priorityCustomers (expireRecord now r db) = priorityCustomers db
  ∧ tierEligibilityCriteria (expireRecord now r db)
    = tierEligibilityCriteria db.
Proof. done. Qed.

Lemma expireRecord_loyaltyPoints now r db :
  loyaltyPoints (expireRecord now r db)
  = updateOne (λ e, LoyaltyPoints._id e = LoyaltyPoints._id r)
      (LoyaltyPoints.set_status "expired") (loyaltyPoints db).
Proof. done. Qed.

Lemma expireRecord_customers now r db :
  customers (expireRecord now r db)
  = updateOne (λ c, Customer._id c = LoyaltyPoints.customer_id r)
      (Customer.inc_total_points (- LoyaltyPoints.points r)) (customers db).
Proof. done. Qed.

Lemma expireRecord_countFor now r db j type :
  type ≠ "expire" →
  countFor j type (expireRecord now r db) = countFor j type db.
Proof.
  intros Htype. unfold countFor. cbn.
  rewrite filter_app, length_app, filter_singleton_length. cbn.
  rewrite decide_False; [lia|]. intros [_ Heq]. by destruct Htype.
Qed.

Lemma expireRecord_tierOf now r db j :
  tierOf j (expireRecord now r db) = tierOf j db.
Proof.
  unfold tierOf, Customer_findById. rewrite expireRecord_customers.
  rewrite (findOne_updateOne_key Customer._id) by done.
  destruct (decide _); [|done]. by destruct (findOne _ (customers db)).
Qed.

(** The sweep leaves the tier data alone, keeps every customer's [_id] and
    tier reference, and records only ["expire"] transactions. *)
Lemma expireFold_frame now l : ∀ db,
  let db' := foldl (λ db r, expireRecord now r db) db l in
  tiers db' = tiers db
  ∧ priorityCustomers db' = priorityCustomers db
  ∧ tierEligibilityCriteria db' = tierEligibilityCriteria db
  ∧ Customer._id <$> customers db' = Customer._id <$> customers db
  ∧ (∀ j, tierOf j db' = tierOf j db)
  ∧ (∀ j type, type ≠ "expire" → countFor j type db' = countFor j type db).
Proof.
  induction l as [|r l IH]; intros db; [done|]. cbn [foldl].
  destruct (IH (expireRecord now r db)) as (-> & -> & -> & -> & Ht & Hc).
  repeat split; try done.
  - rewrite expireRecord_customers. by apply updateOne_fmap.
  - intros j. by rewrite Ht, expireRecord_tierOf.
  - intros j type Htype. by rewrite Hc, expireRecord_countFor.
Qed.

Lemma expireSweep_frame now db :
  tiers (expireSweep now db) = tiers db
  ∧ priorityCustomers (expireSweep now db) = priorityCustomers db
  ∧ tierEligibilityCriteria (expireSweep now db)
    = tierEligibilityCriteria db
  ∧ Customer._id <$> customers (expireSweep now db)
    = Customer._id <$> customers db
  ∧ (∀ j, tierOf j (expireSweep now db) = tierOf j db)
  ∧ (∀ j type, type ≠ "expire" →
       countFor j type (expireSweep now db) = countFor j type db).
Proof. apply expireFold_frame. Qed.

(** With distinct [_id]s, updating the first match is updating the match. *)
Lemma updateOne_NoDup_fmap {A K} `{EqDecision K} (key : A → K) (f : A → A)
    (i : K) (l : list A) :
  NoDup (key <$> l) →
  updateOne (λ x, key x = i) f l
  = (λ x, if decide (key x = i) then f x else x) <$> l.
Proof.
  induction l as [|x l IH]; [done|]. rewrite fmap_cons.
  intros [Hfresh Hnd]%NoDup_cons. cbn.
  destruct (decide (key x = i)) as [Hx|Hx].
  - f_equal. symmetry. etrans; [|apply list_fmap_id].
    apply list_fmap_ext. intros k y Hy. rewrite decide_False; [done|].
    intros Hy'. apply Hfresh. rewrite Hx, <-Hy'.
    apply list_elem_of_fmap_2. by eapply list_elem_of_lookup_2.
  - f_equal. by apply IH.
Qed.

Lemma expireFold_loyaltyPoints now sel : ∀ db,
  NoDup (LoyaltyPoints._id <$> loyaltyPoints db) →
  loyaltyPoints (foldl (λ db r, expireRecord now r db) db sel)
  = (λ x, if decide (LoyaltyPoints._id x ∈ LoyaltyPoints._id <$> sel)
          then LoyaltyPoints.set_status "expired" x else x)
    <$> loyaltyPoints db.
Proof.
  induction sel as [|r sel IH]; intros db Hnd.
  - cbn. symmetry. etrans; [|apply list_fmap_id].
    apply list_fmap_ext. intros k y Hy. rewrite decide_False; [done|].
    by intros ?%elem_of_nil.
  - cbn [foldl]. rewrite IH.
    + rewrite expireRecord_loyaltyPoints.
      rewrite (updateOne_NoDup_fmap LoyaltyPoints._id) by done.
      rewrite <-list_fmap_compose. apply list_fmap_ext. intros k x Hx. cbn.
      destruct (decide (LoyaltyPoints._id x = LoyaltyPoints._id r)) as [Hr|Hr].
      * rewrite (decide_True (P := _ ∈ _ :: _)) by (rewrite Hr; left).
        by destruct (decide _).
      * destruct (decide (LoyaltyPoints._id x ∈ LoyaltyPoints._id <$> sel))
          as [Hs|Hs].
        -- by rewrite decide_True by by right.
        -- rewrite decide_False; [done|].
           by intros [?|?]%elem_of_cons.
    + rewrite expireRecord_loyaltyPoints.
      by rewrite (updateOne_fmap _ _ LoyaltyPoints._id).
Qed.

Lemma expireSweep_loyaltyPoints now db :
  NoDup (LoyaltyPoints._id <$> loyaltyPoints db) →
  loyaltyPoints (expireSweep now db)
  = expireIfDue now <$> loyaltyPoints db.
Proof.
  intros Hnd. unfold expireSweep. rewrite expireFold_loyaltyPoints by done.
  apply list_fmap_ext. intros k x Hx. unfold expireIfDue.
  apply list_elem_of_lookup_2 in Hx.
  destruct (decide (isExpired now x)) as [Hdue|Hdue].
  - rewrite decide_True; [done|]. apply list_elem_of_fmap_2.
    by apply list_elem_of_filter.
  - rewrite decide_False; [done|].
    intros (y & Hid & [Hy Hin]%list_elem_of_filter)%list_elem_of_fmap.
    apply Hdue.
    by rewrite (NoDup_key_inj LoyaltyPoints._id (loyaltyPoints db) x y).
Qed.

Lemma expireIfDue_due now e :
  isExpired now e → expireIfDue now e = LoyaltyPoints.set_status "expired" e.
Proof. intros. unfold expireIfDue. by rewrite decide_True. Qed.

Lemma expireIfDue_not_due now e : ¬ isExpired now e → expireIfDue now e = e.
Proof. intros. unfold expireIfDue. by rewrite decide_False. Qed.

(** After a sweep at [now1], a sweep at [now2] selects the entries that
    were active and came due in between. *)
Lemma expiredPoints_after_sweep now1 now2 (l : list LoyaltyPoints.doc) :
  filter (isExpired now2) (expireIfDue now1 <$> l)
  = filter (dueBetween now1 now2) l.
Proof.
  induction l as [|x l IH]; [done|].
  rewrite fmap_cons, !filter_cons, IH.
  destruct (decide (isExpired now1 x)) as [[Hact Hdue]|Hnot].
  - rewrite expireIfDue_due by done.
    rewrite decide_False by (intros [Hst _]; done).
    rewrite decide_False; [done|]. unfold dueBetween. lia.
  - rewrite expireIfDue_not_due by done.
    destruct (decide (isExpired now2 x)) as [[Hact Hdue]|Hnot2].
    + rewrite decide_True; [done|]. split; [done|]. split; [|done].
      apply Z.le_ngt. intros Hlt. by apply Hnot.
    + rewrite decide_False; [done|]. intros [Hact [_ Hdue]]. by apply Hnot2.
Qed.

(** *** The customer loop *)

Lemma applyTierAction_expireTransactions customer now a db :
  expireTransactions (applyTierAction customer now a db)
  = expireTransactions db.
Proof.
  unfold expireTransactions.
  destruct a; try done; cbn; rewrite filter_app; cbn;
    (rewrite decide_False by done); by rewrite app_nil_r.
Qed.

Lemma processCustomer_eq bronzeTier sorted now db c t :
  processCustomer bronzeTier sorted now db (c, t)
  = applyTierAction c now (tierAction bronzeTier sorted c t now db) db.
Proof. done. Qed.

Lemma tierLoop_frame bronzeTier sorted now populated : ∀ db,
  let db' := foldl (processCustomer bronzeTier sorted now) db populated in
  tiers db' = tiers db
  ∧ priorityCustomers db' = priorityCustomers db
  ∧ tierEligibilityCriteria db' = tierEligibilityCriteria db
  ∧ loyaltyPoints db' = loyaltyPoints db
  ∧ Customer._id <$> customers db' = Customer._id <$> customers db
  ∧ Customer.total_points <$> customers db'
    = Customer.total_points <$> customers db
  ∧ expireTransactions db' = expireTransactions db.
Proof.
  induction populated as [|[c t] populated IH]; intros db; [done|].
  cbn [foldl]. rewrite processCustomer_eq.
  set (a := tierAction bronzeTier sorted c t now db).
  cbv zeta in IH |- *.
  destruct (IH (applyTierAction c now a db))
    as (-> & -> & -> & -> & -> & -> & ->).
  destruct (applyTierAction_frame c now a db) as (-> & -> & -> & ->).
  by rewrite applyTierAction_ids, applyTierAction_points,
    applyTierAction_expireTransactions.
Qed.

(** Iterations for other customers neither move a customer nor record
    anything for them. *)
Lemma tierLoop_other bronzeTier sorted now j populated : ∀ db,
  j ∉ (λ pc, Customer._id pc.1) <$> populated →
  let db' := foldl (processCustomer bronzeTier sorted now) db populated in
  tierOf j db' = tierOf j db
  ∧ ∀ type, countFor j type db' = countFor j type db.
Proof.
  induction populated as [|[c t] populated IH]; intros db Hj; [done|].
  rewrite fmap_cons, not_elem_of_cons in Hj. destruct Hj as [Hc Hj].
  cbn [foldl]. rewrite processCustomer_eq.
  set (a := tierAction bronzeTier sorted c t now db).
  cbv zeta in IH |- *.
  destruct (IH (applyTierAction c now a db) Hj) as [-> Hcount]. split.
  - rewrite applyTierAction_tierOf.
    destruct a; try done; by rewrite decide_False by done.
  - intros type. rewrite Hcount, applyTierAction_countFor.
    rewrite decide_False; [lia|]. by intros [? _].
Qed.

Lemma tierAction_protect bronzeTier sorted customer cur p now db :
  priorityTierOf customer db = Some p →
  Tier.hierarchy_level cur < Tier.hierarchy_level p →
  tierAction bronzeTier sorted customer (Some cur) now db
  = ProtectionUpgrade cur p.
Proof.
  intros Hprio Hlow. unfold tierAction. rewrite Hprio.
  by rewrite decide_True.
Qed.

(** The iteration of a customer below their guaranteed minimum moves them
    to it and records one protection adjustment, whatever the other
    iterations do. *)
Lemma tierLoop_protect bronzeTier sorted now c1 cur p populated : ∀ db,
  NoDup ((λ pc, Customer._id pc.1) <$> populated) →
  (c1, Some cur) ∈ populated →
  priorityTierOf c1 db = Some p →
  Tier.hierarchy_level cur < Tier.hierarchy_level p →
  is_Some (tierOf (Customer._id c1) db) →
  let db' := foldl (processCustomer bronzeTier sorted now) db populated in
  tierOf (Customer._id c1) db' = Some (Some (Tier._id p))
  ∧ countFor (Customer._id c1) "tier_protection_adjustment" db'
    = S (countFor (Customer._id c1) "tier_protection_adjustment" db)
  ∧ countFor (Customer._id c1) "tier_downgrade" db'
    = countFor (Customer._id c1) "tier_downgrade" db.
Proof.
  induction populated as [|[c t] populated IH];
    intros db Hnd Hin Hprio Hlow Hexists.
  - by apply elem_of_nil in Hin.
  - rewrite fmap_cons in Hnd. apply NoDup_cons in Hnd as [Hfresh Hnd].
    cbn [foldl]. rewrite processCustomer_eq. cbv zeta in IH |- *.
    apply elem_of_cons in Hin as [[= <- <-]|Hin].
    + rewrite (tierAction_protect _ _ _ _ _ _ _ Hprio Hlow).
      destruct (tierLoop_other bronzeTier sorted now (Customer._id c1)
                  populated
                  (applyTierAction c1 now (ProtectionUpgrade cur p) db)
                  Hfresh) as [-> Hcount].
      rewrite !Hcount, applyTierAction_tierOf, !applyTierAction_countFor.
      cbn [actionType]. rewrite decide_True by done.
      destruct Hexists as [x ->]. split; [done|].
      rewrite decide_True by done.
      rewrite decide_False by (by intros [_ [=]]). lia.
    + set (a := tierAction bronzeTier sorted c t now db).
      assert (Hne : Customer._id c ≠ Customer._id c1).
      { intros Heq. apply Hfresh. cbn. rewrite Heq.
        by apply (list_elem_of_fmap_2 (λ pc, Customer._id pc.1) _ _ Hin). }
      destruct (applyTierAction_frame c now a db) as (Ht & Hp & _ & _).
      destruct (IH (applyTierAction c now a db) Hnd Hin) as (-> & -> & ->).
      * rewrite <-Hprio. by apply priorityTierOf_ext.
      * done.
      * rewrite applyTierAction_tierOf.
        destruct a; try done; by rewrite decide_False by done.
      * rewrite !applyTierAction_countFor.
        do 2 (rewrite decide_False by (by intros [? _])).
        split; [done|]. split; lia.
Qed.

Lemma bronzeTierOf_is_Some (l : list Tier.doc) :
  l ≠ [] → is_Some (bronzeTierOf l).
Proof.
  intros Hl. unfold bronzeTierOf. destruct (findOne _ l); [done|].
  by apply last_is_Some.
Qed.

Lemma sortedTiers_ext db db' : tiers db' = tiers db → sortedTiers db' = sortedTiers db.
Proof. intros Heq. unfold sortedTiers. by rewrite Heq. Qed.

Lemma customersToCheck_ids bronzeTier db :
  NoDup (Customer._id <$> customers db) →
  NoDup ((λ pc, Customer._id pc.1) <$> customersToCheck bronzeTier db).
Proof.
  intros Hnd. unfold customersToCheck. rewrite <-list_fmap_compose.
  apply (sublist_NoDup _ _ Hnd).
  apply (fmap_sublist Customer._id), sublist_filter.
Qed.

(** *** Priority protection *)

(** C1, as the code has it. The job looks only at customers whose tier is
    not the base tier. For such a customer with an active priority record
    whose guaranteed minimum tier is above their current tier, a committed
    run stores the minimum tier as their tier and records exactly one more
    ["tier_protection_adjustment"] transaction for them, and no
    ["tier_downgrade"]: the downgrade evaluation is skipped. *)
Theorem C1_protection_upgrade_above_base_tier
    (now : Z) (db0 : Db) (bronzeTier cur p : Tier.doc) (c0 : Customer.doc) :
  NoDup (Customer._id <$> customers db0) →
  bronzeTierOf (sortedTiers db0) = Some bronzeTier →
  c0 ∈ customers db0 →
  Customer.tier c0 ≠ Some (Tier._id bronzeTier) →
  populate_tier c0 db0 = Some cur →
  priorityTierOf c0 db0 = Some p →
  Tier.hierarchy_level cur < Tier.hierarchy_level p →
  let db' := processPointsAndTiers now db0 in
  tierOf (Customer._id c0) db' = Some (Some (Tier._id p))
  ∧ countFor (Customer._id c0) "tier_protection_adjustment" db'
    = S (countFor (Customer._id c0) "tier_protection_adjustment" db0)
  ∧ countFor (Customer._id c0) "tier_downgrade" db'
    = countFor (Customer._id c0) "tier_downgrade" db0.
Proof.
  intros Hnd Hbronze Hin Hnotbase Hcur Hprio Hlow db'. subst db'.
  set (j := Customer._id c0).
  destruct (expireSweep_frame now db0) as (Ht & Hp & _ & Hids & Htier & Hcount).
  set (db1 := expireSweep now db0) in *.
  unfold processPointsAndTiers, processTiers. fold db1.
  rewrite (sortedTiers_ext _ _ Ht), Hbronze. cbn.
  (* the customer as the job reads it after the sweep *)
  assert (Hc0 : tierOf j db0 = Some (Customer.tier c0)).
  { unfold tierOf, Customer_findById, j.
    by rewrite (findOne_key_NoDup Customer._id _ _ Hnd Hin). }
  assert (Hc1 : tierOf j db1 = Some (Customer.tier c0)) by by rewrite Htier.
  unfold tierOf in Hc1.
  destruct (Customer_findById j db1) as [c1|] eqn:Hfind; [|done].
  injection Hc1 as Htier1.
  apply findOne_Some in Hfind as Hc1. destruct Hc1 as [Hin1 Hid1].
  assert (Hpop : populate_tier c1 db1 = Some cur).
  { rewrite <-Hcur. unfold populate_tier, Tier_findById.
    by rewrite Htier1, Ht. }
  assert (Hmember : (c1, Some cur) ∈ customersToCheck bronzeTier db1).
  { unfold customersToCheck. rewrite <-Hpop.
    apply (list_elem_of_fmap_2 (λ c, (c, populate_tier c db1))).
    apply list_elem_of_filter. split; [|done]. by rewrite Htier1. }
  rewrite <-Hid1.
  destruct (tierLoop_protect bronzeTier (sortedTiers db0) now c1 cur p
              (customersToCheck bronzeTier db1) db1) as (-> & -> & ->).
  - apply customersToCheck_ids. by rewrite Hids.
  - done.
  - rewrite <-Hprio. by apply priorityTierOf_ext.
  - done.
  - rewrite Hid1. unfold tierOf. by rewrite Hfind.
  - rewrite Hid1. by rewrite !Hcount.
Qed.

(** *** The priority floor of a downgrade *)

Lemma clampToPriority_ge p t :
  Tier.hierarchy_level p ≤ Tier.hierarchy_level (clampToPriority (Some p) t).
Proof. cbn. destruct (decide _); lia. Qed.

Lemma tierAction_Downgrade bronzeTier sorted customer currentTier now db
    cur newTier pt :
  tierAction bronzeTier sorted customer currentTier now db
  = Downgrade cur newTier pt →
  currentTier = Some cur
  ∧ pt = priorityTierOf customer db
  ∧ newTier
    = clampToPriority pt (scannedTier bronzeTier sorted customer cur now db)
  ∧ Tier.hierarchy_level newTier < Tier.hierarchy_level cur
  ∧ checkTierRetentionEligibility customer cur now db = false.
Proof.
  unfold tierAction. destruct currentTier as [cur'|]; [|done].
  set (pt' := priorityTierOf customer db).
  set (new' := clampToPriority pt'
                 (scannedTier bronzeTier sorted customer cur' now db)).
  destruct (match pt' with
            | Some p0 =>
                if decide (Tier.hierarchy_level cur' < Tier.hierarchy_level p0)
                then Some p0 else None
            | None => None
            end); [done|].
  destruct (checkTierRetentionEligibility customer cur' now db) eqn:Hcheck;
    [done|].
  destruct (decide (Tier.hierarchy_level new' < Tier.hierarchy_level cur'));
    [|done].
  destruct (decide (Tier._id new' = Tier._id cur')); [done|].
  by intros [= <- <- <-].
Qed.

Lemma processPointsAndTiers_committed now db bronzeTier :
  bronzeTierOf (sortedTiers db) = Some bronzeTier →
  processPointsAndTiers now db
  = foldl (processCustomer bronzeTier (sortedTiers db) now)
      (expireSweep now db) (customersToCheck bronzeTier (expireSweep now db)).
Proof.
  intros Hbronze. destruct (expireSweep_frame now db) as (Ht & _).
  unfold processPointsAndTiers, processTiers.
  by rewrite (sortedTiers_ext _ _ Ht), Hbronze.
Qed.

Lemma processPointsAndTiers_aborted now db :
  bronzeTierOf (sortedTiers db) = None → processPointsAndTiers now db = db.
Proof.
  intros Hbronze. destruct (expireSweep_frame now db) as (Ht & _).
  unfold processPointsAndTiers, processTiers.
  by rewrite (sortedTiers_ext _ _ Ht), Hbronze.
Qed.

(** The loop applies exactly the actions of its trace. *)
Lemma tierTrace_run bronzeTier sorted now populated : ∀ db,
  foldl (processCustomer bronzeTier sorted now) db populated
  = foldl (λ d ca, applyTierAction ca.1 now ca.2 d) db
      (tierTrace bronzeTier sorted now db populated).
Proof.
  induction populated as [|[c t] populated IH]; intros db; [done|].
  cbn [foldl tierTrace]. by rewrite processCustomer_eq, IH.
Qed.

Lemma tierTrace_floor bronzeTier sorted now db0 populated : ∀ db,
  priorityCustomers db = priorityCustomers db0 →
  tiers db = tiers db0 →
  ∀ customer cur newTier pt p,
    (customer, Downgrade cur newTier pt)
    ∈ tierTrace bronzeTier sorted now db populated →
    priorityTierOf customer db0 = Some p →
    Tier.hierarchy_level p ≤ Tier.hierarchy_level newTier.
Proof.
  induction populated as [|[c t] populated IH];
    intros db Hprio Htiers customer cur newTier pt p Hin Hp.
  - by apply elem_of_nil in Hin.
  - cbn [tierTrace] in Hin. apply elem_of_cons in Hin as [[= -> Hact]|Hin].
    + symmetry in Hact. apply tierAction_Downgrade in Hact
        as (_ & Hpt & -> & _).
      rewrite (priorityTierOf_ext c c db0 db) in Hpt by done.
      rewrite Hp in Hpt. subst pt. apply clampToPriority_ge.
    + set (a := tierAction bronzeTier sorted c t now db) in *.
      destruct (applyTierAction_frame c now a db) as (Ht & Hpr & _ & _).
      eapply (IH (applyTierAction c now a db)); [congruence..|done|done].
Qed.

(** C4. Whenever an iteration of the customer loop decides to downgrade a
    customer who has an active priority record, the tier it writes is the
    scanned tier clamped to the guaranteed minimum, so its
    [hierarchy_level] is not below the minimum's: a scan result below the
    minimum is replaced by the minimum itself before the write. A committed
    run applies the actions of its trace and nothing else, and the bound
    holds for every downgrade in that trace. *)
Theorem C4_downgrade_never_below_priority_minimum :
  (∀ bronzeTier sorted customer currentTier now db p cur newTier pt,
     priorityTierOf customer db = Some p →
     tierAction bronzeTier sorted customer currentTier now db
     = Downgrade cur newTier pt →
     let scanned := scannedTier bronzeTier sorted customer cur now db in
     Tier.hierarchy_level p ≤ Tier.hierarchy_level newTier
     ∧ newTier = clampToPriority (Some p) scanned
     ∧ (Tier.hierarchy_level scanned < Tier.hierarchy_level p → newTier = p)
     ∧ customers (applyTierAction customer now (Downgrade cur newTier pt) db)
       = updateOne (λ c, Customer._id c = Customer._id customer)
           (Customer.set_tier (Tier._id newTier)) (customers db))
  ∧ (∀ now db0 bronzeTier,
       bronzeTierOf (sortedTiers db0) = Some bronzeTier →
       let db1 := expireSweep now db0 in
       let trace :=
         tierTrace bronzeTier (sortedTiers db0) now db1
           (customersToCheck bronzeTier db1) in
       processPointsAndTiers now db0
       = foldl (λ d ca, applyTierAction ca.1 now ca.2 d) db1 trace
       ∧ ∀ customer cur newTier pt p,
           (customer, Downgrade cur newTier pt) ∈ trace →
           priorityTierOf customer db0 = Some p →
           Tier.hierarchy_level p ≤ Tier.hierarchy_level newTier).
Proof.
  split.
  - intros bronzeTier sorted customer currentTier now db p cur newTier pt
      Hprio Haction scanned.
    apply tierAction_Downgrade in Haction as (_ & Hpt & Hnew & _).
    rewrite Hprio in Hpt. subst pt. fold scanned in Hnew.
    split; [rewrite Hnew; apply clampToPriority_ge|].
    split; [done|]. split; [|done].
    intros Hbelow. rewrite Hnew. cbn. by rewrite decide_True.
  - intros now db0 bronzeTier Hbronze db1 trace. split.
    + rewrite (processPointsAndTiers_committed _ _ _ Hbronze).
      apply tierTrace_run.
    + intros customer cur newTier pt p Hin Hp.
      destruct (expireSweep_frame now db0) as (Ht & Hpr & _).
      by eapply (tierTrace_floor _ _ _ db0 _ db1 Hpr Ht).
Qed.

(** *** Running the sweep again *)

Lemma expireSweep_nothing_due now db :
  expiredPoints now db = [] → expireSweep now db = db.
Proof. intros Hnone. unfold expireSweep. by rewrite Hnone. Qed.

Lemma filter_none {A} (P : A → Prop) `{!∀ x, Decision (P x)} (l : list A) :
  (∀ x, x ∈ l → ¬ P x) → filter P l = [].
Proof.
  induction l as [|x l IH]; intros Hnone; [done|].
  rewrite filter_cons. rewrite decide_False by (apply Hnone; left).
  apply IH. intros y Hy. apply Hnone. by right.
Qed.

(** C8, as the code has it. After a committed run at [now1], every entry
    the run expired is ["expired"] and no later sweep selects it again; the
    sweep of a second run at [now2] selects exactly the entries that were
    still active and come due in [[now1, now2)]. When there is none, in
    particular when [now2] is not after [now1], the second run changes no
    ledger entry, records no ["expire"] transaction and debits no
    balance. *)
Theorem C8_second_sweep_selects_only_newly_due (now1 now2 : Z) (db0 : Db) :
  NoDup (LoyaltyPoints._id <$> loyaltyPoints db0) →
  tiers db0 ≠ [] →
  let db1 := processPointsAndTiers now1 db0 in
  let db2 := processPointsAndTiers now2 db1 in
  loyaltyPoints db1 = expireIfDue now1 <$> loyaltyPoints db0
  ∧ (∀ e, isExpired now1 e →
          LoyaltyPoints.status (expireIfDue now1 e) = "expired"
          ∧ ¬ isExpired now2 (expireIfDue now1 e))
  ∧ expiredPoints now2 db1
    = filter (dueBetween now1 now2) (loyaltyPoints db0)
  ∧ (now2 ≤ now1 → filter (dueBetween now1 now2) (loyaltyPoints db0) = [])
  ∧ (filter (dueBetween now1 now2) (loyaltyPoints db0) = [] →
     loyaltyPoints db2 = loyaltyPoints db1
     ∧ expireTransactions db2 = expireTransactions db1
     ∧ Customer.total_points <$> customers db2
       = Customer.total_points <$> customers db1).
Proof.
  intros Hnd Htiers db1 db2.
  destruct (bronzeTierOf_is_Some (sortedTiers db0)) as [b Hb].
  { intros Hnil. apply Htiers. apply Permutation_nil_r.
    rewrite <-Hnil. symmetry. apply merge_sort_Permutation. }
  assert (Hledger : loyaltyPoints db1 = expireIfDue now1 <$> loyaltyPoints db0).
  { unfold db1. rewrite (processPointsAndTiers_committed _ _ _ Hb).
    destruct (tierLoop_frame b (sortedTiers db0) now1
                (customersToCheck b (expireSweep now1 db0))
                (expireSweep now1 db0)) as (_ & _ & _ & -> & _).
    by apply expireSweep_loyaltyPoints. }
  assert (Hselect : expiredPoints now2 db1
                    = filter (dueBetween now1 now2) (loyaltyPoints db0)).
  { unfold expiredPoints. rewrite Hledger. apply expiredPoints_after_sweep. }
  split; [done|]. split.
  { intros e He. rewrite expireIfDue_due by done. split; [done|].
    by intros [Hst _]. }
  split; [done|]. split.
  { intros Hle. apply filter_none. unfold dueBetween. intros x _. lia. }
  intros Hnone. rewrite Hnone in Hselect.
  assert (Hsweep := expireSweep_nothing_due now2 db1 Hselect).
  destruct (bronzeTierOf (sortedTiers db1)) as [b'|] eqn:Hb'.
  - unfold db2. rewrite (processPointsAndTiers_committed _ _ _ Hb'), Hsweep.
    by destruct (tierLoop_frame b' (sortedTiers db1) now2
                   (customersToCheck b' db1) db1)
      as (_ & _ & _ & -> & _ & -> & ->).
  - unfold db2. by rewrite (processPointsAndTiers_aborted _ _ Hb').
Qed.

End Job.

(** ** Bulk grants *)

Section Bulk.
Context `{Host}.

Lemma validationLoop_outcomes rows db : ∀ index validationErrors enrichedRows,
  validationLoop rows index validationErrors enrichedRows db
  = (validationErrors ++ rowErrors (rowOutcomes index rows db),
     enrichedRows ++ rowsAccepted (rowOutcomes index rows db)).
Proof.
  induction rows as [|rawRow rows IH]; intros index errs enr; cbn.
  - by rewrite !app_nil_r.
  - destruct (validateRow index rawRow db) as [error|enriched];
      rewrite IH; cbn; by rewrite <-?app_assoc.
Qed.

Lemma rowOutcomes_lookup rows db : ∀ index (i : nat),
  rowOutcomes index rows db !! i
  = (λ rawRow, validateRow (index + Z.of_nat i) rawRow db) <$> rows !! i.
Proof.
  induction rows as [|rawRow rows IH]; intros index i; [done|].
  destruct i as [|i]; cbn.
  - by rewrite Z.add_0_r.
  - rewrite IH.
    by replace (index + Z.of_nat (S i)) with (index + 1 + Z.of_nat i) by lia.
Qed.

Lemma validateRow_error index rawRow db error :
  validateRow index rawRow db = inl error →
  ∃ what, error = rowError (index + 2) what.
Proof.
  unfold validateRow.
  repeat (case_match || case_decide); intros [= <-]; eauto.
Qed.

Lemma validateRow_accepts index rawRow db enriched :
  validateRow index rawRow db = inr enriched →
  rowIsValid rawRow db
  ∧ rowNumber enriched = index + 2
  ∧ Number (field rawRow "points") = Some (row_points enriched)
  ∧ findOne
      (λ c, Customer.customer_id c
            = normalizeString (field rawRow "customer_id"))
      (customers db)
    = Some (row_customer enriched).
Proof.
  unfold validateRow, rowIsValid.
  destruct (bool_decide (filter _ REQUIRED_BULK_COLUMNS = [])) eqn:Hcolumns;
    [|done].
  apply bool_decide_eq_true in Hcolumns. cbn [negb].
  destruct (decide (normalizeString (field rawRow "customer_id") = ""));
    [done|].
  destruct (Number (field rawRow "points")) as [points|]; [|done].
  destruct (decide (points ≤ 0)); [done|].
  destruct (decide (normalizeString (field rawRow "point_criteria") = ""));
    [done|].
  destruct (decide (normalizeString (field rawRow "note") = "")); [done|].
  destruct (findOne _ (customers db)) as [customer|]; [|done].
  destruct (resolvePointCriteria _ db) as [criteria|]; [|done].
  intros [= <-]. cbn. repeat split; try done.
  - intros column Hcolumn.
    destruct (rawRow !! column) eqn:Hcell; [done|].
    by destruct (filter_nil_not_elem_of _ _ column Hcolumns Hcell).
  - exists points. split; [done|lia].
Qed.

Lemma validateRow_valid index rawRow db :
  rowIsValid rawRow db → ∃ enriched, validateRow index rawRow db = inr enriched.
Proof.
  intros (Hcolumns & Hcustomer & (points & Hnumber & Hpositive) & Hcriteria
          & Hnote & [customer Hfound] & [criteria Hresolved]).
  unfold validateRow.
  rewrite bool_decide_eq_true_2.
  - cbn [negb]. rewrite decide_False by done. rewrite Hnumber.
    rewrite decide_False by lia. rewrite !decide_False by done.
    rewrite Hfound, Hresolved. eauto.
  - apply filter_none. intros column Hcolumn Hmissing.
    destruct (Hcolumns column Hcolumn) as [cell Hcell]. congruence.
Qed.

Lemma validateRow_rejects index rawRow db :
  ¬ rowIsValid rawRow db ↔ ∃ error, validateRow index rawRow db = inl error.
Proof.
  split.
  - intros Hinvalid.
    destruct (validateRow index rawRow db) as [error|enriched] eqn:Hrow;
      [eauto|].
    by apply validateRow_accepts in Hrow as [? _].
  - intros [error Hrow] [enriched Hvalid]%(validateRow_valid index).
    congruence.
Qed.

(** C5. [addPointsBulk] runs the validation loop over every row of the
    sheet before it opens its transaction. A row passes when the three
    required columns are present, [customer_id], [point_criteria] and
    [note] are non-empty, [points] is a positive number, and the customer
    and the point criteria resolve. If some row does not pass, the answer
    is 400 "Bulk upload validation failed" with the row messages joined by
    ["; "], each failing row named by its sheet row number [index + 2] in
    exactly one message, and the committed database is the initial one. *)
Theorem C5_bulk_rejects_whole_batch
    (req : BulkRequest) (now : Z) (db : Db) (rows : list RawRow) :
  bulk_file req = Some (Sheet rows) →
  normalizeString (bulk_requested_by req) ≠ "" →
  (∃ (i : nat) rawRow, rows !! i = Some rawRow ∧ ¬ rowIsValid rawRow db) →
  let errors := rowErrors (rowOutcomes 0 rows db) in
  addPointsBulk req now db
  = (response_handler 400 "Bulk upload validation failed"
       (DataText (String.concat "; " errors)),
     db)
  ∧ (∀ (i : nat) rawRow,
       rows !! i = Some rawRow → ¬ rowIsValid rawRow db →
       ∃ what, rowError (Z.of_nat i + 2) what ∈ errors)
  ∧ (∀ error,
       error ∈ errors →
       ∃ (i : nat) rawRow what,
         rows !! i = Some rawRow ∧ ¬ rowIsValid rawRow db
         ∧ error = rowError (Z.of_nat i + 2) what).
Proof.
  intros Hfile HrequestedBy Hinvalid errors.
  assert (Hnamed : ∀ (i : nat) rawRow,
            rows !! i = Some rawRow → ¬ rowIsValid rawRow db →
            ∃ what, rowError (Z.of_nat i + 2) what ∈ errors).
  { intros i rawRow Hrow [error Herror]%(validateRow_rejects (Z.of_nat i)).
    destruct (validateRow_error _ _ _ _ Herror) as [what ->].
    exists what. apply list_elem_of_omap.
    exists (inl (rowError (Z.of_nat i + 2) what)). split; [|done].
    apply (list_elem_of_lookup_2 _ i).
    rewrite rowOutcomes_lookup, Hrow. cbn. by rewrite Z.add_0_l, Herror. }
  split; [|split; [done|]].
  - unfold addPointsBulk. rewrite Hfile. rewrite decide_False by done.
    destruct Hinvalid as (i & rawRow & Hrow & Hbad).
    destruct (Hnamed i rawRow Hrow Hbad) as [what Hwhat].
    destruct rows as [|first rest]; [done|].
    rewrite validationLoop_outcomes. fold errors. cbn [app].
    rewrite bool_decide_eq_false_2; [done|].
    intros Hnil. rewrite Hnil in Hwhat. by apply elem_of_nil in Hwhat.
  - intros error (outcome & Hin & Hleft)%list_elem_of_omap.
    destruct outcome as [error'|]; [|done]. injection Hleft as ->.
    apply list_elem_of_lookup_1 in Hin as [i Hi].
    rewrite rowOutcomes_lookup in Hi.
    destruct (rows !! i) as [rawRow|] eqn:Hrow; [|done].
    injection Hi as Hi. rewrite Z.add_0_l in Hi.
    destruct (validateRow_error _ _ _ _ Hi) as [what ->].
    exists i, rawRow, what. split; [done|]. split; [|done].
    apply (validateRow_rejects (Z.of_nat i)). eauto.
Qed.

End Bulk.

(** ** Manual grants and reductions *)

Lemma findOne_view {A K V} `{EqDecision K} (key : A → K) (view : A → V)
    (j : K) (l l' : list A) :
  (λ x, (key x, view x)) <$> l' = (λ x, (key x, view x)) <$> l →
  view <$> findOne (λ x, key x = j) l' = view <$> findOne (λ x, key x = j) l.
Proof.
  revert l'. induction l as [|x l IH]; intros [|x' l']; try done.
  rewrite !fmap_cons. intros [= Hkey Hview Hrest]. rewrite !findOne_cons.
  rewrite Hkey. destruct (decide (key x = j)); cbn; [by rewrite Hview|].
  by apply IH.
Qed.

Lemma findOne_is_Some_key {A K} `{EqDecision K} (key : A → K) (j : K)
    (l : list A) :
  j ∈ key <$> l → is_Some (findOne (λ x, key x = j) l).
Proof.
  intros (x & -> & Hx)%list_elem_of_fmap.
  destruct (findOne (λ y, key y = key x) l) eqn:Hnone; [done|].
  by destruct (proj1 (findOne_None _ _) Hnone x Hx).
Qed.

Lemma totalPoints_update j p q db :
  j ∈ Customer._id <$> customers db →
  totalPoints
    (Customer_findByIdAndUpdate j (Customer.inc_points_and_coins p q) db)
  = totalPoints db + p.
Proof.
  unfold totalPoints, Customer_findByIdAndUpdate. cbn.
  induction (customers db) as [|c l IH]; intros Hj.
  - by apply elem_of_nil in Hj.
  - cbn. destruct (decide (Customer._id c = j)) as [Hc|Hc]; cbn; [lia|].
    rewrite fmap_cons in Hj. apply elem_of_cons in Hj as [Hj|Hj]; [done|].
    rewrite IH by done. lia.
Qed.

Lemma totalCoins_update j p q db :
  j ∈ Customer._id <$> customers db →
  totalCoins
    (Customer_findByIdAndUpdate j (Customer.inc_points_and_coins p q) db)
  = totalCoins db + q.
Proof.
  unfold totalCoins, Customer_findByIdAndUpdate. cbn.
  induction (customers db) as [|c l IH]; intros Hj.
  - by apply elem_of_nil in Hj.
  - cbn. destruct (decide (Customer._id c = j)) as [Hc|Hc]; cbn; [lia|].
    rewrite fmap_cons in Hj. apply elem_of_cons in Hj as [Hj|Hj]; [done|].
    rewrite IH by done. lia.
Qed.

Lemma totalCoins_balances db db' :
  balances db' = balances db → totalCoins db' = totalCoins db.
Proof.
  unfold balances, totalCoins. generalize (customers db') as l'.
  induction (customers db) as [|c l IH]; intros [|c' l']; try done.
  rewrite !fmap_cons. intros [= _ _ Hc Hrest]. cbn.
  by rewrite Hc, (IH l').
Qed.

Lemma totalPoints_balances db db' :
  balances db' = balances db → totalPoints db' = totalPoints db.
Proof.
  unfold balances, totalPoints. generalize (customers db') as l'.
  induction (customers db) as [|c l IH]; intros [|c' l']; try done.
  rewrite !fmap_cons. intros [= _ Hp _ Hrest]. cbn.
  by rewrite Hp, (IH l').
Qed.

Section Grants.
Context `{Host}.

Lemma getManualPointsForCriteria_positive criteria points rule :
  getManualPointsForCriteria criteria = inr (points, rule) → 0 < points.
Proof.
  unfold getManualPointsForCriteria.
  repeat (case_match || case_decide); intros [= <- <-]; lia.
Qed.

Lemma balanceOf_ext j db db' :
  balances db' = balances db → balanceOf j db' = balanceOf j db.
Proof.
  unfold balances, balanceOf, Customer_findById. intros Hbal.
  by apply (findOne_view Customer._id
              (λ c, (Customer.total_points c, Customer.coins c))).
Qed.

Lemma tryCreateLoyaltyPoints_frame customer tierId points transaction now db :
  customers (tryCreateLoyaltyPoints customer tierId points transaction now db)
  = customers db
  ∧ transactions
      (tryCreateLoyaltyPoints customer tierId points transaction now db)
    = transactions db.
Proof.
  unfold tryCreateLoyaltyPoints, LoyaltyPoints_create.
  destruct (calculateExpiryDate tierId db); [|done].
  by destruct (LoyaltyPoints_validate _).
Qed.

Lemma tryCheckAndUpgradeTier_frame customerId db :
  tierCheckOnlyMovesTiers →
  loyaltyPoints (tryCheckAndUpgradeTier customerId db) = loyaltyPoints db
  ∧ transactions db `prefix_of` transactions (tryCheckAndUpgradeTier customerId db)
  ∧ balances (tryCheckAndUpgradeTier customerId db) = balances db.
Proof.
  intros Hframe. unfold tryCheckAndUpgradeTier.
  destruct (checkAndUpgradeTier customerId db) as [db'|] eqn:Hcheck; cbn.
  - by apply (Hframe customerId).
  - done.
Qed.

Lemma availableSum_ext customerId now db db' :
  loyaltyPoints db' = loyaltyPoints db →
  availableSum customerId now db' = availableSum customerId now db.
Proof. intros Heq. unfold availableSum. by rewrite Heq. Qed.


Lemma Customer_update_balanceOf j f db c :
  (∀ x, Customer._id (f x) = Customer._id x) →
  Customer_findById j db = Some c →
  Customer_findById j (Customer_findByIdAndUpdate j f db) = Some (f c).
Proof.
  intros Hid Hc. unfold Customer_findById, Customer_findByIdAndUpdate in *.
  cbn. apply findOne_updateOne_same; [|done]. intros y. by rewrite Hid.
Qed.

Lemma tryCreateLoyaltyPoints_throws_or_adds
    customer tierId points transaction now db :
  ledgerBlockThrows customer tierId points transaction now db
  ∨ ∃ e,
      loyaltyPoints
        (tryCreateLoyaltyPoints customer tierId points transaction now db)
      = loyaltyPoints db ++ [e]
      ∧ ledgerView e = (Customer._id customer, points, "active").
Proof.
  unfold ledgerBlockThrows, tryCreateLoyaltyPoints, LoyaltyPoints_create.
  destruct (calculateExpiryDate tierId db) as [expiryDate|]; [|by left].
  set (e := LoyaltyPoints.mk _ _ _ _ _ _ _ _).
  destruct (LoyaltyPoints_validate e); [|by left].
  right. by exists e.
Qed.

Lemma ledgerBlockThrows_adds_nothing
    customer tierId points transaction now db e :
  ledgerBlockThrows customer tierId points transaction now db →
  loyaltyPoints
    (tryCreateLoyaltyPoints customer tierId points transaction now db)
  ≠ loyaltyPoints db ++ [e].
Proof.
  unfold ledgerBlockThrows. intros -> Heq.
  apply (f_equal length) in Heq. rewrite length_app in Heq. cbn in Heq. lia.
Qed.


Lemma grantLoop_ledger requestedBy appType now accepted :
  ∀ details db,
  (∀ r, r ∈ accepted →
        Customer._id (row_customer r) ∈ Customer._id <$> customers db) →
  ∃ details' db',
    grantLoop requestedBy appType now accepted details db
    = Some (details', db')
    ∧ (∃ added,
         loyaltyPoints db' = loyaltyPoints db ++ added
         ∧ (ledgerView <$> added) `sublist_of` (rowLedger <$> accepted)
         ∧ (Exists (rowLedgerThrows now)
              (ledgerCalls requestedBy appType now accepted db) →
            (length added < length accepted)%nat)
         ∧ (Forall (rowLedgerThrows now)
              (ledgerCalls requestedBy appType now accepted db) →
            added = []))
    ∧ (∃ granted,
         transactions db' = transactions db ++ granted
         ∧ grantView <$> granted = rowGrant <$> accepted)
    ∧ totalPoints db' = totalPoints db + sumRowPoints accepted
    ∧ totalCoins db' = totalCoins db + sumRowPoints accepted.
Proof.
  induction accepted as [|entry accepted IH]; intros details db Hknown.
  - exists details, db. split; [done|]. split; [|split].
    + exists []. rewrite app_nil_r. split; [done|]. split; [done|].
      split; [|done]. cbn. by intros ?%Exists_nil.
    + exists []. by rewrite app_nil_r.
    + cbn. lia.
  - cbn [grantLoop ledgerCalls]. unfold beforeLedgerBlock.
    cbn [Transaction_create fst snd].
    set (t := rowGrantDocument _ _ _ _ _).
    set (db1 := bump_oid _).
    set (db2 := Customer_findByIdAndUpdate _ _ db1).
    set (db3 := tryCreateLoyaltyPoints _ _ _ _ _ db2).
    assert (Hmember : Customer._id (row_customer entry)
                      ∈ Customer._id <$> customers db)
      by (apply Hknown; left).
    assert (Hids : Customer._id <$> customers db2
                   = Customer._id <$> customers db).
    { unfold db2, Customer_findByIdAndUpdate. cbn. by apply updateOne_fmap. }
    destruct (tryCreateLoyaltyPoints_frame (row_customer entry)
                (Tier._id <$> row_tier entry) (row_points entry) t now db2)
      as [Hcustomers3 Hlog3].
    fold db3 in Hcustomers3, Hlog3.
    destruct (findOne_is_Some_key Customer._id
                (Customer._id (row_customer entry)) (customers db2))
      as [updatedCustomer Hupdated]; [by rewrite Hids|].
    unfold Customer_findById at 1. rewrite Hupdated.
    destruct (IH (details
                  ++ [mkDetail (rowNumber entry)
                        (Customer.customer_id (row_customer entry))
                        (Transaction.transaction_id t)
                        (Customer.total_points updatedCustomer)]) db3)
      as (details' & db' & -> & (added & Hledger & Hadded & Hsome & Hall)
          & (granted & Hlog & Hview) & Htotal & Hcoins).
    { intros r Hr. rewrite Hcustomers3, Hids. apply Hknown. by right. }
    assert (Hshort : (length added ≤ length accepted)%nat).
    { apply sublist_length in Hadded. by rewrite !length_fmap in Hadded. }
    exists details', db'. split; [done|]. split; [|split].
    + destruct (tryCreateLoyaltyPoints_throws_or_adds (row_customer entry)
                  (Tier._id <$> row_tier entry) (row_points entry) t now db2)
        as [Hthrows|(e & Hmore & He)].
      * exists added. unfold ledgerBlockThrows in Hthrows.
        fold db3 in Hthrows. split; [by rewrite Hledger, Hthrows|].
        split; [rewrite fmap_cons; by apply sublist_cons|].
        split; [cbn [length]; lia|].
        intros Hevery. apply Hall. by apply Forall_cons in Hevery as [_ ?].
      * fold db3 in Hmore. exists (e :: added). split.
        { rewrite Hledger, Hmore. unfold db2, db1. cbn.
          by rewrite <-app_assoc. }
        split; [rewrite !fmap_cons, He; by apply sublist_skip|].
        split.
        { intros [Hhead|Htail]%Exists_cons.
          - exfalso. unfold rowLedgerThrows in Hhead. cbn in Hhead.
            by apply (ledgerBlockThrows_adds_nothing _ _ _ _ _ _ e) in Hhead.
          - cbn [length]. specialize (Hsome Htail). lia. }
        intros [Hhead _]%Forall_cons. exfalso.
        unfold rowLedgerThrows in Hhead. cbn in Hhead.
        by apply (ledgerBlockThrows_adds_nothing _ _ _ _ _ _ e) in Hhead.
    + exists (t :: granted). split.
      * rewrite Hlog, Hlog3. unfold db2, db1. cbn. by rewrite <-app_assoc.
      * rewrite !fmap_cons. by rewrite Hview.
    + unfold totalPoints, totalCoins in Htotal, Hcoins.
      rewrite Hcustomers3 in Htotal, Hcoins.
      fold (totalPoints db2) in Htotal. fold (totalCoins db2) in Hcoins.
      fold (totalPoints db') in Htotal. fold (totalCoins db') in Hcoins.
      rewrite Htotal, Hcoins. unfold db2.
      rewrite totalPoints_update, totalCoins_update by done.
      change (totalPoints db1) with (totalPoints db).
      change (totalCoins db1) with (totalCoins db).
      change (sumRowPoints (entry :: accepted))
        with (row_points entry + sumRowPoints accepted).
      lia.
Qed.

Lemma tierCheckLoop_frame accepted : ∀ db,
  tierCheckOnlyMovesTiers →
  loyaltyPoints (tierCheckLoop accepted db) = loyaltyPoints db
  ∧ transactions db `prefix_of` transactions (tierCheckLoop accepted db)
  ∧ balances (tierCheckLoop accepted db) = balances db.
Proof.
  induction accepted as [|entry accepted IH]; intros db Hframe; [done|].
  cbn. destruct (checkAndUpgradeTier _ db) as [db1|] eqn:Hcheck; [|done].
  destruct (Hframe _ _ _ Hcheck) as (Hl & Ht & Hb).
  destruct (IH db1 Hframe) as (-> & Ht' & ->).
  split; [done|]. split; [by etrans|done].
Qed.

Lemma rowOutcomes_all_valid rows db : ∀ index,
  (∀ rawRow, rawRow ∈ rows → rowIsValid rawRow db) →
  rowErrors (rowOutcomes index rows db) = []
  ∧ length (rowsAccepted (rowOutcomes index rows db)) = length rows
  ∧ ∀ r, r ∈ rowsAccepted (rowOutcomes index rows db) →
         row_customer r ∈ customers db.
Proof.
  induction rows as [|rawRow rows IH]; intros index Hvalid.
  - split; [done|]. split; [done|]. by intros r ?%elem_of_nil.
  - destruct (IH (index + 1)) as (Herrors & Hlength & Hcustomers).
    { intros r Hr. apply Hvalid. by right. }
    destruct (validateRow_valid index rawRow db) as [enriched Hrow];
      [apply Hvalid; left|].
    cbn [rowOutcomes]. rewrite Hrow. unfold rowErrors, rowsAccepted in *.
    cbn. split; [done|]. split; [by rewrite Hlength|].
    intros r [->|Hr]%elem_of_cons; [|by apply Hcustomers].
    apply validateRow_accepts in Hrow as (_ & _ & _ & Hfound).
    by apply findOne_Some in Hfound as [? _].
Qed.


Lemma redeemPointsFIFO_customers customerId pointsToRedeem now db :
  customers (snd (redeemPointsFIFO customerId pointsToRedeem now db))
  = customers db.
Proof.
  unfold redeemPointsFIFO. destruct (decide _); [done|].
  destruct (fifoLoop_split now (validPoints customerId now db)
              pointsToRedeem 0 [] db)
    as (full & partial & rest & _ & _ & _ & _ & ->).
  cbn. apply consume_frame.
Qed.

Lemma addPointsIndividual_granted req now db0 customer :
  tierCheckOnlyMovesTiers →
  Customer_findById (add_customer_id req) db0 = Some customer →
  res_status (fst (addPointsIndividual req now db0)) = 201 →
  ∃ pointsToAward,
    pointsAwarded (fst (addPointsIndividual req now db0)) = Some pointsToAward
    ∧ 0 < pointsToAward
    ∧ balanceOf (add_customer_id req) (snd (addPointsIndividual req now db0))
      = Some (Customer.total_points customer + pointsToAward,
              Customer.coins customer + pointsToAward).
Proof.
  intros Htier Hcustomer.
  assert (Hid := Customer_findById_id _ _ _ Hcustomer).
  unfold addPointsIndividual. rewrite Hcustomer.
  destruct (resolvePointCriteria _ db0) as [criteria|]; [|done].
  destruct (getManualPointsForCriteria criteria) as [?|[pointsToAward rule]]
    eqn:Hpoints; [done|].
  assert (Hpos := getManualPointsForCriteria_positive _ _ _ Hpoints).
  destruct (findAppType _ db0) as [?|requestedAppType]; [done|].
  cbn [Transaction_create].
  set (t := grantDocument _ _ _ _ _ _ _ _).
  set (db1 := bump_oid _). rewrite Hid.
  assert (Hupdated :
    Customer_findById (add_customer_id req)
      (Customer_findByIdAndUpdate (add_customer_id req)
         (Customer.inc_points_and_coins pointsToAward pointsToAward) db1)
    = Some (Customer.inc_points_and_coins pointsToAward pointsToAward customer)).
  { by apply Customer_update_balanceOf. }
  rewrite Hupdated. cbn [fst snd res_status]. intros _.
  exists pointsToAward. split; [done|]. split; [done|].
  set (db2 := Customer_findByIdAndUpdate _ _ db1) in *.
  set (db3 := tryCreateLoyaltyPoints _ _ _ _ _ db2).
  destruct (tryCheckAndUpgradeTier_frame (add_customer_id req) db3 Htier)
    as (_ & _ & Hbalances).
  rewrite (balanceOf_ext _ _ _ Hbalances).
  assert (Hsame : balances db3 = balances db2).
  { unfold balances, db3.
    by destruct (tryCreateLoyaltyPoints_frame customer
                   (Tier._id <$> populate_tier customer db0) pointsToAward
                   t now db2) as [-> _]. }
  rewrite (balanceOf_ext _ _ _ Hsame). unfold balanceOf. by rewrite Hupdated.
Qed.

Lemma reducePoints_reduced req now db :
  res_status (fst (reducePoints req now db)) = 200 →
  0 < reduce_points req
  ∧ customers (snd (reducePoints req now db))
    = updateOne (λ c, Customer._id c = reduce_customer_id req)
        (Customer.inc_total_points (- reduce_points req)) (customers db).
Proof.
  unfold reducePoints.
  destruct (Customer_findById (reduce_customer_id req) db) as [customer|]
    eqn:Hcustomer; [|done].
  assert (Hid := Customer_findById_id _ _ _ Hcustomer).
  destruct (decide (reduce_points req ≤ 0)); [done|].
  assert (Hfifo := redeemPointsFIFO_customers (Customer._id customer)
                     (reduce_points req) now db).
  destruct (redeemPointsFIFO (Customer._id customer) (reduce_points req)
              now db) as [fifoResult db1].
  destruct (success fifoResult); [|done]. cbn [negb].
  destruct (findAppType _ db1) as [?|requestedAppType]; [done|].
  cbn [Transaction_create].
  set (db2 := Customer_findByIdAndUpdate _ _ _).
  assert (Hcustomers :
    customers db2
    = updateOne (λ c, Customer._id c = reduce_customer_id req)
        (Customer.inc_total_points (- reduce_points req)) (customers db)).
  { unfold db2. cbn. cbn in Hfifo. by rewrite Hfifo, Hid. }
  destruct (Customer_findById (Customer._id customer) db2)
    as [updatedCustomer|]; [|done].
  intros _. split; [lia|done].
Qed.

Lemma reducePoints_customer req now db customer :
  res_status (fst (reducePoints req now db)) = 200 →
  Customer_findById (reduce_customer_id req) db = Some customer →
  Customer_findById (reduce_customer_id req) (snd (reducePoints req now db))
  = Some (Customer.inc_total_points (- reduce_points req) customer).
Proof.
  intros [_ Hcustomers]%reducePoints_reduced Hcustomer.
  unfold Customer_findById in *. rewrite Hcustomers.
  by apply findOne_updateOne_same.
Qed.

(** C10. A successful [addPointsIndividual] raises both [total_points] and
    [coins] of the customer by the awarded amount. A successful
    [reducePoints] rewrites the customer collection by one update that
    lowers [total_points] of that customer and nothing else: [coins], the
    other fields and the other customers stay as they were. A grant of N
    followed by a successful reduction of N therefore restores
    [total_points] and leaves [coins] N higher. *)
Theorem C10_grant_raises_coins_reduction_does_not :
  tierCheckOnlyMovesTiers →
  (∀ grant now db0 customer,
     Customer_findById (add_customer_id grant) db0 = Some customer →
     res_status (fst (addPointsIndividual grant now db0)) = 201 →
     ∃ N,
       pointsAwarded (fst (addPointsIndividual grant now db0)) = Some N
       ∧ balanceOf (add_customer_id grant)
           (snd (addPointsIndividual grant now db0))
         = Some (Customer.total_points customer + N,
                 Customer.coins customer + N))
  ∧ (∀ reduce now db,
       res_status (fst (reducePoints reduce now db)) = 200 →
       customers (snd (reducePoints reduce now db))
       = updateOne (λ c, Customer._id c = reduce_customer_id reduce)
           (Customer.inc_total_points (- reduce_points reduce))
           (customers db)
       ∧ ∀ customer,
           Customer_findById (reduce_customer_id reduce) db = Some customer →
           Customer_findById (reduce_customer_id reduce)
             (snd (reducePoints reduce now db))
           = Some (Customer.mk (Customer._id customer)
                     (Customer.customer_id customer) (Customer.tier customer)
                     (Customer.total_points customer - reduce_points reduce)
                     (Customer.coins customer)))
  ∧ (∀ grant reduce now now' db0 customer N,
       Customer_findById (add_customer_id grant) db0 = Some customer →
       res_status (fst (addPointsIndividual grant now db0)) = 201 →
       pointsAwarded (fst (addPointsIndividual grant now db0)) = Some N →
       reduce_customer_id reduce = add_customer_id grant →
       reduce_points reduce = N →
       let db1 := snd (addPointsIndividual grant now db0) in
       res_status (fst (reducePoints reduce now' db1)) = 200 →
       balanceOf (add_customer_id grant) (snd (reducePoints reduce now' db1))
       = Some (Customer.total_points customer, Customer.coins customer + N)).
Proof.
  intros Htier. split; [|split].
  - intros grant now db0 customer Hcustomer Hok.
    destruct (addPointsIndividual_granted grant now db0 customer Htier
                Hcustomer Hok) as (N & HN & _ & Hbalance).
    eauto.
  - intros reduce now db Hok. split; [by apply reducePoints_reduced|].
    intros customer Hcustomer.
    rewrite (reducePoints_customer _ _ _ _ Hok Hcustomer).
    unfold Customer.inc_total_points. do 2 f_equal; lia.
  - intros grant reduce now now' db0 customer N Hcustomer Hgranted HN
      Hsame Hamount db1 Hreduced.
    destruct (addPointsIndividual_granted grant now db0 customer Htier
                Hcustomer Hgranted) as (N' & HN' & _ & Hbalance).
    assert (N' = N) as -> by congruence.
    fold db1 in Hbalance. unfold balanceOf in Hbalance |- *.
    destruct (Customer_findById (add_customer_id grant) db1) as [c1|]
      eqn:Hc1; [|done].
    injection Hbalance as Hpoints Hcoins.
    rewrite <-Hsame in Hc1 |- *.
    rewrite (reducePoints_customer _ _ _ _ Hreduced Hc1). cbn.
    rewrite Hpoints, Hcoins, Hamount. do 2 f_equal; lia.
Qed.


End Grants.

(** ** Worked instances *)

Ltac by_computation := apply (bool_decide_unpack _); vm_compute; exact I.

Lemma C2_witness_redeeming_160_of_150 :
  availableSum 1%N (day 6) twoEntriesDb < 160
  ∧ snd (redeemPointsFIFO 1%N 160 (day 6) twoEntriesDb) = twoEntriesDb
  ∧ fst (reducePoints (H := demoHost)
           (mkReduceReq 1%N 160 "admin" "correction") (day 6) twoEntriesDb)
    = response_handler 400
        "Insufficient points. Available: 150, Requested: 160" NoData.
Proof.
  assert (Hlt : availableSum 1%N (day 6) twoEntriesDb < 160)
    by (vm_compute; reflexivity).
  destruct (C2_insufficient_points_mutate_nothing (H := demoHost)
              1%N 160 (day 6) twoEntriesDb Hlt)
    as (Hdb & _ & _ & _ & _ & _ & Hreduce).
  destruct (Hreduce (mkReduceReq 1%N 160 "admin" "correction")
              eq_refl eq_refl) as [_ Hanswer].
  split; [exact Hlt|]. split; [exact Hdb|].
  apply Hanswer; [vm_compute; eauto|lia].
Defined.

Lemma C3_witness_redeeming_60_of_150 :
  NoDup (LoyaltyPoints._id <$> loyaltyPoints twoEntriesDb)
  ∧ 60 ≤ availableSum 1%N (day 6) twoEntriesDb
  ∧ success (fst (redeemPointsFIFO 1%N 60 (day 6) twoEntriesDb)) = true
  ∧ StronglySorted earnedAt_le (validPoints 1%N (day 6) twoEntriesDb)
  ∧ ∃ full partial rest,
      validPoints 1%N (day 6) twoEntriesDb = full ++ partial ++ rest
      ∧ (partial = [] → sumPoints full = 60)
      ∧ redeemedPoints (fst (redeemPointsFIFO 1%N 60 (day 6) twoEntriesDb))
        = 60.
Proof.
  assert (Hnd : NoDup (LoyaltyPoints._id <$> loyaltyPoints twoEntriesDb))
    by by_computation.
  assert (Henough : 60 ≤ availableSum 1%N (day 6) twoEntriesDb)
    by (vm_compute; discriminate).
  destruct (proj1 C3_fifo_oldest_first 1%N 60 (day 6) twoEntriesDb
              Hnd Henough)
    as (Hsuccess & Hsorted & _ & full & partial & rest & Hsplit & _ & Hsum
        & _ & _ & _ & _ & Hredeemed & _).
  split; [exact Hnd|]. split; [exact Henough|].
  split; [exact Hsuccess|]. split; [exact Hsorted|].
  exists full, partial, rest. split; [exact Hsplit|].
  split; [apply Hsum; lia|apply Hredeemed; lia].
Defined.

Lemma C1_witness_silver_customer_with_gold_minimum :
  NoDup (Customer._id <$> customers priorityDb)
  ∧ bronzeTierOf (sortedTiers priorityDb) = Some bronze
  ∧ populate_tier atSilver priorityDb = Some silver
  ∧ priorityTierOf atSilver priorityDb = Some gold
  ∧ tierOf 2%N (processPointsAndTiers (H := demoHost) (day 6) priorityDb)
    = Some (Some 102%N)
  ∧ countFor 2%N "tier_protection_adjustment"
      (processPointsAndTiers (H := demoHost) (day 6) priorityDb)
    = 1%nat.
Proof.
  assert (Hnd : NoDup (Customer._id <$> customers priorityDb))
    by by_computation.
  assert (Hbronze : bronzeTierOf (sortedTiers priorityDb) = Some bronze)
    by (vm_compute; reflexivity).
  assert (Hcur : populate_tier atSilver priorityDb = Some silver)
    by (vm_compute; reflexivity).
  assert (Hprio : priorityTierOf atSilver priorityDb = Some gold)
    by (vm_compute; reflexivity).
  assert (Hin : atSilver ∈ customers priorityDb) by (right; left).
  assert (Hnotbase : Customer.tier atSilver ≠ Some (Tier._id bronze))
    by (vm_compute; discriminate).
  assert (Hlow : Tier.hierarchy_level silver < Tier.hierarchy_level gold)
    by (vm_compute; reflexivity).
  destruct (C1_protection_upgrade_above_base_tier (H := demoHost) (day 6)
              priorityDb bronze silver gold atSilver
              Hnd Hbronze Hin Hnotbase Hcur Hprio Hlow)
    as (Htier & Hcount & _).
  split; [exact Hnd|]. split; [exact Hbronze|]. split; [exact Hcur|].
  split; [exact Hprio|]. split; [exact Htier|exact Hcount].
Defined.

(** The customer at Bronze whose priority record guarantees Silver is not
    looked at by the job: after the run they are still at Bronze and no
    protection adjustment has been recorded for them. *)
Lemma C1_counterexample_customer_at_base_tier :
  atBronze ∈ customers priorityDb
  ∧ populate_tier atBronze priorityDb = Some bronze
  ∧ priorityTierOf atBronze priorityDb = Some silver
  ∧ Tier.hierarchy_level bronze < Tier.hierarchy_level silver
  ∧ tierOf (Customer._id atBronze)
      (processPointsAndTiers (H := demoHost) (day 6) priorityDb)
    ≠ Some (Some (Tier._id silver))
  ∧ countFor (Customer._id atBronze) "tier_protection_adjustment"
      (processPointsAndTiers (H := demoHost) (day 6) priorityDb)
    = 0%nat.
Proof.
  split; [left|]. split; [by vm_compute|]. split; [by vm_compute|].
  split; [by vm_compute|]. split; [|by vm_compute].
  vm_compute. discriminate.
Qed.

Lemma C4_witness_gold_customer_with_silver_minimum :
  priorityTierOf goldWith40 protectedGoldDb = Some silver
  ∧ tierAction bronze (sortedTiers protectedGoldDb) goldWith40 (Some gold)
      (day 6) protectedGoldDb
    = Downgrade gold silver (Some silver)
  ∧ scannedTier bronze (sortedTiers protectedGoldDb) goldWith40 gold (day 6)
      protectedGoldDb
    = bronze
  ∧ Tier.hierarchy_level silver ≤ Tier.hierarchy_level silver.
Proof.
  assert (Hprio : priorityTierOf goldWith40 protectedGoldDb = Some silver)
    by (vm_compute; reflexivity).
  assert (Haction :
    tierAction bronze (sortedTiers protectedGoldDb) goldWith40 (Some gold)
      (day 6) protectedGoldDb
    = Downgrade gold silver (Some silver)) by (vm_compute; reflexivity).
  destruct (proj1 (C4_downgrade_never_below_priority_minimum (H := demoHost)) bronze
              (sortedTiers protectedGoldDb) goldWith40 (Some gold) (day 6)
              protectedGoldDb silver gold silver (Some silver)
              Hprio Haction) as (Hfloor & _).
  split; [exact Hprio|]. split; [exact Haction|].
  split; [vm_compute; reflexivity|exact Hfloor].
Defined.




Lemma C5_witness_third_row_negative_points :
  ¬ rowIsValid (H := demoHost) (sheetRow "CUST000001" (-5)) grantDb
  ∧ addPointsBulk (H := demoHost) (bulkUpload threeRows) (day 6) grantDb
    = (response_handler 400 "Bulk upload validation failed"
         (DataText "Row 4: points must be positive"),
       grantDb).
Proof.
  assert (Hbad :
    ¬ rowIsValid (H := demoHost) (sheetRow "CUST000001" (-5)) grantDb).
  { intros (_ & _ & (points & Hnumber & Hpositive) & _).
    vm_compute in Hnumber. injection Hnumber as <-. lia. }
  split; [exact Hbad|].
  destruct (C5_bulk_rejects_whole_batch (H := demoHost)
              (bulkUpload threeRows) (day 6) grantDb threeRows)
    as (Hanswer & _).
  - reflexivity.
  - vm_compute. discriminate.
  - exists 2%nat, (sheetRow "CUST000001" (-5)). split; [reflexivity|exact Hbad].
  - rewrite Hanswer. vm_compute. reflexivity.
Defined.

Lemma C8_witness_same_instant_rerun :
  NoDup (LoyaltyPoints._id <$> loyaltyPoints twoDueDatesDb)
  ∧ tiers twoDueDatesDb ≠ []
  ∧ expiredPoints (day 10)
      (processPointsAndTiers (H := demoHost) (day 10) twoDueDatesDb)
    = []
  ∧ loyaltyPoints
      (processPointsAndTiers (H := demoHost) (day 10)
         (processPointsAndTiers (H := demoHost) (day 10) twoDueDatesDb))
    = loyaltyPoints
        (processPointsAndTiers (H := demoHost) (day 10) twoDueDatesDb).
Proof.
  assert (Hnd : NoDup (LoyaltyPoints._id <$> loyaltyPoints twoDueDatesDb))
    by by_computation.
  assert (Htiers : tiers twoDueDatesDb ≠ []) by (vm_compute; discriminate).
  destruct (C8_second_sweep_selects_only_newly_due (H := demoHost)
              (day 10) (day 10) twoDueDatesDb Hnd Htiers)
    as (_ & _ & Hselect & Hnone & Hquiet).
  assert (Hle : day 10 ≤ day 10) by lia.
  destruct (Hquiet (Hnone Hle)) as (Hledger & _).
  split; [exact Hnd|]. split; [exact Htiers|]. split; [|exact Hledger].
  rewrite Hselect. exact (Hnone Hle).
Defined.

(** A second run one millisecond after the first expires the entry that
    came due in between: it selects an entry, records a second ["expire"]
    transaction and debits the balance again. *)
Lemma C8_counterexample_entry_due_between_runs :
  day 10 ≤ day 10 + 1
  ∧ expiredPoints (day 10) twoDueDatesDb = [dueDay5]
  ∧ expiredPoints (day 10 + 1) afterFirstRun = [dueDay10]
  ∧ length (expireTransactions afterFirstRun) = 1%nat
  ∧ length (expireTransactions afterSecondRun) = 2%nat
  ∧ Customer.total_points <$> customers afterFirstRun = [100]
  ∧ Customer.total_points <$> customers afterSecondRun = [0].
Proof. vm_compute. repeat split; discriminate || reflexivity. Qed.

Lemma demoHost_tierCheck : tierCheckOnlyMovesTiers (H := demoHost).
Proof. intros customerId db db' [= <-]. done. Defined.




Lemma C10_witness_grant_25_then_reduce_25 :
  tierCheckOnlyMovesTiers (H := demoHost)
  ∧ balanceOf 1%N grantDb = Some (150, 150)
  ∧ res_status
      (fst (addPointsIndividual (H := demoHost) welcomeGrant (day 6) grantDb))
    = 201
  ∧ res_status (fst (reducePoints (H := demoHost) reversal (day 7) afterGrant))
    = 200
  ∧ balanceOf 1%N
      (snd (reducePoints (H := demoHost) reversal (day 7) afterGrant))
    = Some (150, 175).
Proof.
  assert (Hgranted :
    res_status
      (fst (addPointsIndividual (H := demoHost) welcomeGrant (day 6) grantDb))
    = 201) by (vm_compute; reflexivity).
  assert (Hreduced :
    res_status (fst (reducePoints (H := demoHost) reversal (day 7) afterGrant))
    = 200) by (vm_compute; reflexivity).
  split; [exact demoHost_tierCheck|]. split; [vm_compute; reflexivity|].
  split; [exact Hgranted|]. split; [exact Hreduced|].
  exact (proj2 (proj2 (C10_grant_raises_coins_reduction_does_not
                         (H := demoHost) demoHost_tierCheck))
           welcomeGrant reversal (day 6) (day 7) grantDb
           (Customer.mk 1%N "CUST000001" (Some 100%N) 150 150) 25
           eq_refl Hgranted eq_refl eq_refl eq_refl Hreduced).
Defined.

(** * Further properties *)

(** ** What a redemption conserves *)

Lemma availableSum_contributions customerId now db :
  availableSum customerId now db
  = foldr (λ e s, contribution customerId now e + s) 0 (loyaltyPoints db).
Proof.
  unfold availableSum. induction (loyaltyPoints db) as [|e l IH]; [done|].
  rewrite filter_cons. cbn [foldr]. unfold contribution at 1.
  destruct (decide (redeemable customerId now e)); cbn [foldr]; lia.
Qed.

Lemma contributions_updateOne customerId now i f l x :
  findOne (λ e, LoyaltyPoints._id e = i) l = Some x →
  foldr (λ e s, contribution customerId now e + s) 0
    (updateOne (λ e, LoyaltyPoints._id e = i) f l)
  = foldr (λ e s, contribution customerId now e + s) 0 l
    - contribution customerId now x + contribution customerId now (f x).
Proof.
  induction l as [|e l IH]; [done|]. rewrite findOne_cons. cbn.
  destruct (decide (LoyaltyPoints._id e = i)).
  - intros [= ->]. cbn. lia.
  - intros Hx. cbn. rewrite IH by done. lia.
Qed.

Lemma availableSum_updateEntry customerId now g d e x :
  LoyaltyPoints_findById (LoyaltyPoints._id e) d = Some x →
  availableSum customerId now (updateEntry g d e)
  = availableSum customerId now d
    - contribution customerId now x + contribution customerId now (g e x).
Proof.
  intros Hx. rewrite !availableSum_contributions.
  by apply contributions_updateOne.
Qed.

(** A run of updates whose entries are all still as they were read. *)
Lemma availableSum_updateEntries customerId now g delta l :
  (∀ e x, LoyaltyPoints._id (g e x) = LoyaltyPoints._id x) →
  (∀ e, e ∈ l →
        contribution customerId now (g e e)
        = contribution customerId now e - delta e) →
  ∀ d,
  NoDup (LoyaltyPoints._id <$> l) →
  (∀ e, e ∈ l → LoyaltyPoints_findById (LoyaltyPoints._id e) d = Some e) →
  availableSum customerId now (foldl (updateEntry g) d l)
  = availableSum customerId now d - foldr (λ e s, delta e + s) 0 l.
Proof.
  intros Hid Hdelta. induction l as [|e l IH]; intros d Hnd Hread.
  - cbn. lia.
  - rewrite fmap_cons in Hnd. apply NoDup_cons in Hnd as [Hfresh Hnd].
    cbn [foldl foldr]. rewrite IH.
    + rewrite (availableSum_updateEntry _ _ _ _ _ e) by (apply Hread; left).
      rewrite Hdelta by left. lia.
    + intros e' He'. apply Hdelta. by right.
    + done.
    + intros e' He'. rewrite updateEntry_other; [apply Hread; by right|done|].
      intros Heq. apply Hfresh. rewrite Heq. by apply list_elem_of_fmap_2.
Qed.

Lemma usedTotal_app u1 u2 : usedTotal (u1 ++ u2) = usedTotal u1 + usedTotal u2.
Proof.
  unfold usedTotal. induction u1 as [|u u1 IH]; cbn; [lia|]. rewrite IH. lia.
Qed.

Lemma usedTotal_fully full : usedTotal (usedFully <$> full) = sumPoints full.
Proof.
  rewrite sumPoints_foldr. unfold usedTotal.
  induction full as [|e full IH]; [done|]. cbn. by rewrite IH.
Qed.

Lemma contribution_redeemable customerId now e :
  redeemable customerId now e →
  contribution customerId now e = LoyaltyPoints.points e.
Proof. intros. unfold contribution. by rewrite decide_True. Qed.

Lemma contribution_other customerId now e :
  LoyaltyPoints.customer_id e ≠ customerId → contribution customerId now e = 0.
Proof.
  intros Hne. unfold contribution. rewrite decide_False; [done|].
  by intros [? _].
Qed.

Lemma redeemPointsFIFO_conservation
    (customerId : ObjectId) (pointsToRedeem now : Z) (db : Db) :
  NoDup (LoyaltyPoints._id <$> loyaltyPoints db) →
  0 ≤ pointsToRedeem ≤ availableSum customerId now db →
  let result := fst (redeemPointsFIFO customerId pointsToRedeem now db) in
  let db' := snd (redeemPointsFIFO customerId pointsToRedeem now db) in
  availableSum customerId now db'
  = availableSum customerId now db - pointsToRedeem
  ∧ usedTotal (usedLoyaltyPoints result) = pointsToRedeem
  ∧ redeemedPoints result = pointsToRedeem
  ∧ ∀ other asOf,
      other ≠ customerId →
      availableSum other asOf db' = availableSum other asOf db.
Proof.
  intros Hnd [Hpos Henough] result db'. subst result db'.
  unfold redeemPointsFIFO. rewrite sumPoints_validPoints.
  rewrite decide_False by lia.
  set (valid := validPoints customerId now db).
  destruct (fifoLoop_split now valid pointsToRedeem 0 [] db)
    as (full & partial & rest & Hsplit & Hlen & Hpart & Hsum & ->).
  cbn [fst snd usedLoyaltyPoints redeemedPoints app].
  set (u := pointsToRedeem - sumPoints full) in *.
  assert (Hamount : pointsToRedeem
                    = sumPoints full + (if partial is [] then 0 else u)).
  { apply Hsum. unfold valid. rewrite sumPoints_validPoints. lia. }
  assert (Hvalid_nd := validPoints_NoDup customerId now db Hnd).
  fold valid in Hvalid_nd. rewrite Hsplit, !fmap_app in Hvalid_nd.
  apply NoDup_app in Hvalid_nd as (Hnd_full & Hfull_out & Hnd_tail).
  apply NoDup_app in Hnd_tail as (Hnd_part & _ & _).
  assert (Hin : ∀ e, e ∈ full ++ partial →
            LoyaltyPoints_findById (LoyaltyPoints._id e) db = Some e
            ∧ redeemable customerId now e).
  { intros e He. assert (He' : e ∈ valid).
    { rewrite Hsplit, app_assoc, elem_of_app. by left. }
    apply validPoints_elem in He' as [He' Hred]. split; [|done].
    by apply (findOne_key_NoDup LoyaltyPoints._id). }
  assert (Hread_part : ∀ e, e ∈ partial →
            LoyaltyPoints_findById (LoyaltyPoints._id e)
              (foldl (updateEntry (λ _, LoyaltyPoints.set_redeemed now)) db full)
            = Some e).
  { intros e He. rewrite updateEntries_other; [|done|].
    - apply Hin. rewrite elem_of_app. by right.
    - intros Hf. eapply Hfull_out; [exact Hf|].
      rewrite elem_of_app. left. by apply list_elem_of_fmap_2. }
  assert (Hpartial_total :
    foldr (λ (e : LoyaltyPoints.doc) s, u + s) 0 partial
    = if partial is [] then 0 else u).
  { destruct partial as [|e [|e' partial]]; cbn in *; lia. }
  split; [|split; [|split]].
  - unfold consume.
    rewrite (availableSum_updateEntries customerId now _ (λ _, u)); try done.
    + rewrite (availableSum_updateEntries customerId now _
                 LoyaltyPoints.points); try done.
      * rewrite <-sumPoints_foldr, Hpartial_total. lia.
      * intros e He.
        rewrite (contribution_redeemable _ _ e)
          by (apply Hin; rewrite elem_of_app; by left).
        unfold contribution. rewrite decide_False; [lia|].
        by intros (_ & _ & ?).
      * intros e He. apply Hin. rewrite elem_of_app. by left.
    + intros e He.
      destruct (Hin e) as [_ (Hc & He' & Hs)]; [rewrite elem_of_app; by right|].
      rewrite !contribution_redeemable; [done|done|by repeat split].
  - rewrite usedTotal_app, usedTotal_fully.
    destruct partial as [|e [|e' partial]]; cbn in *; lia.
  - lia.
  - intros other asOf Hother. unfold consume.
    rewrite (availableSum_updateEntries other asOf _ (λ _, 0)); try done.
    + rewrite (availableSum_updateEntries other asOf _ (λ _, 0)); try done.
      * assert (Hzero : ∀ l : list LoyaltyPoints.doc,
                  foldr (λ _ s, 0 + s) 0 l = 0)
          by (intros l; induction l; cbn; lia).
        rewrite !Hzero. lia.
      * intros e He.
        destruct (Hin e) as [_ (Hc & _)]; [rewrite elem_of_app; by left|].
        rewrite !contribution_other; [lia|congruence|cbn; congruence].
      * intros e He. apply Hin. rewrite elem_of_app. by left.
    + intros e He.
      destruct (Hin e) as [_ (Hc & _)]; [rewrite elem_of_app; by right|].
      rewrite !contribution_other; [lia|congruence|cbn; congruence].
Qed.

(** X1. A successful FIFO redemption lowers the customer's redeemable sum
    by exactly the amount asked for, its breakdown adds up to that amount,
    and the redeemable sum of every other customer is as before. *)
Theorem X1_redemption_takes_exactly_the_amount
    (customerId : ObjectId) (pointsToRedeem now : Z) (db : Db) :
  NoDup (LoyaltyPoints._id <$> loyaltyPoints db) →
  0 ≤ pointsToRedeem ≤ availableSum customerId now db →
  let result := fst (redeemPointsFIFO customerId pointsToRedeem now db) in
  let db' := snd (redeemPointsFIFO customerId pointsToRedeem now db) in
  availableSum customerId now db'
  = availableSum customerId now db - pointsToRedeem
  ∧ usedTotal (usedLoyaltyPoints result) = pointsToRedeem
  ∧ redeemedPoints result = pointsToRedeem
  ∧ ∀ other asOf,
      other ≠ customerId →
      availableSum other asOf db' = availableSum other asOf db.
Proof.
  intros Hnd Hrange result db'.
  destruct (redeemPointsFIFO_conservation customerId pointsToRedeem now db
              Hnd Hrange) as (Hsum & Hused & Hredeemed & Hothers).
  split; [exact Hsum|]. split; [exact Hused|]. split; [exact Hredeemed|].
  exact Hothers.
Qed.

Section Reductions.
Context `{Host}.

(** What a 200 answer of [reducePoints] says about the run. *)
Lemma reducePoints_success req now db :
  res_status (fst (reducePoints req now db)) = 200 →
  let customerId := reduce_customer_id req in
  let N := reduce_points req in
  let fifo := redeemPointsFIFO customerId N now db in
  is_Some (Customer_findById customerId db)
  ∧ 0 < N ≤ availableSum customerId now db
  ∧ loyaltyPoints (snd (reducePoints req now db)) = loyaltyPoints (snd fifo)
  ∧ ∃ t,
      transactions (snd (reducePoints req now db)) = transactions db ++ [t]
      ∧ Transaction.customer_id t = customerId
      ∧ Transaction.transaction_type t = "redeem"
      ∧ Transaction.points t = - N
      ∧ Transaction.status t = "completed"
      ∧ Transaction.metadata t
        = MetaManualReduce (reduce_requested_by req)
            (redeemedPoints (fst fifo)) (usedLoyaltyPoints (fst fifo)).
Proof.
  unfold reducePoints.
  destruct (Customer_findById (reduce_customer_id req) db) as [customer|]
    eqn:Hcustomer; [|done].
  assert (Hid := Customer_findById_id _ _ _ Hcustomer).
  destruct (decide (reduce_points req ≤ 0)); [done|].
  rewrite Hid.
  assert (Hlog : transactions
                   (snd (redeemPointsFIFO (reduce_customer_id req)
                           (reduce_points req) now db))
                 = transactions db).
  { unfold redeemPointsFIFO. destruct (decide _); [done|].
    destruct (fifoLoop_split now
                (validPoints (reduce_customer_id req) now db)
                (reduce_points req) 0 [] db)
      as (full & partial & rest & _ & _ & _ & _ & ->).
    cbn. apply consume_frame. }
  assert (Hsuccess :
    success (fst (redeemPointsFIFO (reduce_customer_id req)
                    (reduce_points req) now db)) = true →
    reduce_points req ≤ availableSum (reduce_customer_id req) now db).
  { unfold redeemPointsFIFO. rewrite sumPoints_validPoints.
    destruct (decide _); [done|]. lia. }
  destruct (redeemPointsFIFO (reduce_customer_id req) (reduce_points req)
              now db) as [fifoResult db1].
  cbn [fst snd] in *.
  destruct (success fifoResult); [|done]. cbn [negb].
  destruct (findAppType _ db1) as [?|requestedAppType]; [done|].
  cbn [Transaction_create].
  set (t := Transaction.mk _ _ _ _ _ _ _ _ _ _ _ _).
  set (db2 := Customer_findByIdAndUpdate _ _ _).
  destruct (Customer_findById (reduce_customer_id req) db2); [|done].
  intros _. cbn [snd]. split; [done|]. split; [split; [lia|by apply Hsuccess]|].
  split; [done|]. exists t. unfold db2. cbn. by rewrite Hlog.
Qed.

(** X2. A reduction that is answered 200 lowers the customer's redeemable
    ledger sum and their [total_points] by the same amount and appends one
    ["redeem"] transaction of minus that amount whose breakdown adds up to
    it: the gap between balance and ledger is as before. *)
Theorem X2_reduction_keeps_ledger_and_balance_in_step
    (req : ReduceRequest) (now : Z) (db : Db) :
  NoDup (LoyaltyPoints._id <$> loyaltyPoints db) →
  res_status (fst (reducePoints req now db)) = 200 →
  let customerId := reduce_customer_id req in
  let N := reduce_points req in
  let db' := snd (reducePoints req now db) in
  availableSum customerId now db' = availableSum customerId now db - N
  ∧ (∃ total coins,
       balanceOf customerId db = Some (total, coins)
       ∧ balanceOf customerId db' = Some (total - N, coins))
  ∧ ∃ t used,
      transactions db' = transactions db ++ [t]
      ∧ Transaction.customer_id t = customerId
      ∧ Transaction.transaction_type t = "redeem"
      ∧ Transaction.points t = - N
      ∧ Transaction.metadata t
        = MetaManualReduce (reduce_requested_by req) N used
      ∧ usedTotal used = N.
Proof.
  intros Hnd Hok customerId N db'.
  destruct (reducePoints_success req now db Hok)
    as ([customer Hcustomer] & [Hpos Henough] & Hledger & t & Hlog & Hc & Ht
        & Hp & _ & Hmeta).
  fold customerId N in Hcustomer, Hpos, Henough, Hledger, Hmeta, Hp, Hc.
  destruct (redeemPointsFIFO_conservation customerId N now db Hnd)
    as (Hsum & Hused & Hredeemed & _); [lia|].
  split; [|split].
  - unfold db'. rewrite (availableSum_ext _ _ _ _ Hledger). exact Hsum.
  - exists (Customer.total_points customer), (Customer.coins customer).
    unfold balanceOf. rewrite Hcustomer. split; [done|].
    unfold db', customerId. rewrite (reducePoints_customer _ _ _ _ Hok Hcustomer).
    done.
  - exists t, (usedLoyaltyPoints
                 (fst (redeemPointsFIFO customerId N now db))).
    rewrite Hredeemed in Hmeta. done.
Qed.
End Reductions.
(** ** What the expiry sweep records and debits *)

Section JobAccounts.
Context `{Host}.

Lemma totalPoints_debit j delta db :
  totalPoints
    (Customer_findByIdAndUpdate j (Customer.inc_total_points delta) db)
  = totalPoints db
    + (if decide (j ∈ Customer._id <$> customers db) then delta else 0).
Proof.
  unfold totalPoints, Customer_findByIdAndUpdate. cbn.
  induction (customers db) as [|c l IH].
  - rewrite decide_False by apply not_elem_of_nil. cbn. lia.
  - cbn. destruct (decide (Customer._id c = j)) as [Hc|Hc]; cbn.
    + rewrite decide_True by (rewrite Hc; left). lia.
    + rewrite IH. destruct (decide (j ∈ Customer._id <$> l)).
      * rewrite decide_True by by right. lia.
      * rewrite decide_False; [lia|]. intros [?|?]%elem_of_cons; congruence.
Qed.

Lemma expireRecord_log now r db :
  ∃ t, transactions (expireRecord now r db) = transactions db ++ [t]
       ∧ expireView t = expiryOf r.
Proof. eexists. split; reflexivity. Qed.

Lemma expireFold_accounts now l : ∀ db,
  let db' := foldl (λ db r, expireRecord now r db) db l in
  (∃ added,
     transactions db' = transactions db ++ added
     ∧ expireView <$> added = expiryOf <$> l)
  ∧ totalPoints db' = totalPoints db - sumPoints (filter (hasCustomer db) l).
Proof.
  induction l as [|r l IH]; intros db; cbv zeta.
  - split; [exists []; by rewrite app_nil_r|]. cbn.
    unfold sumPoints. cbn. lia.
  - cbn [foldl].
    destruct (IH (expireRecord now r db)) as [(added & -> & Hview) Htotal].
    destruct (expireRecord_log now r db) as (t & -> & Ht). split.
    + exists (t :: added). rewrite <-app_assoc. split; [done|].
      by rewrite !fmap_cons, Ht, Hview.
    + rewrite Htotal.
      assert (Hids : Customer._id <$> customers (expireRecord now r db)
                     = Customer._id <$> customers db).
      { rewrite expireRecord_customers. by apply updateOne_fmap. }
      assert (Hsame : filter (hasCustomer (expireRecord now r db)) l
                      = filter (hasCustomer db) l).
      { apply list_filter_iff. intros e. unfold hasCustomer. by rewrite Hids. }
      rewrite Hsame, filter_cons.
      change (totalPoints (expireRecord now r db))
        with (totalPoints
                (Customer_findByIdAndUpdate (LoyaltyPoints.customer_id r)
                   (Customer.inc_total_points (- LoyaltyPoints.points r)) db)).
      rewrite totalPoints_debit. unfold hasCustomer at 2.
      destruct (decide (LoyaltyPoints.customer_id r
                        ∈ Customer._id <$> customers db)).
      * rewrite sumPoints_cons. lia.
      * lia.
Qed.

Lemma loggedPoints_expiries added l :
  expireView <$> added = expiryOf <$> l → loggedPoints added = - sumPoints l.
Proof.
  rewrite sumPoints_foldr. revert l.
  induction added as [|t added IH]; intros [|e l]; try done.
  rewrite !fmap_cons. intros [= _ _ Hp _ _ Hrest].
  specialize (IH l Hrest). unfold loggedPoints in *. cbn. lia.
Qed.

(** X3. The expiry sweep records one ["expire"] transaction per entry it
    selects, in the order selected, each carrying minus the entry's
    remaining points and the reference of the transaction that granted
    them. The recorded points add up to minus the points of the selected
    entries, while the balances fall only by the points of the selected
    entries whose customer exists. *)
Theorem X3_sweep_debits_what_it_records (now : Z) (db : Db) :
  let due := expiredPoints now db in
  let db' := expireSweep now db in
  ∃ added,
    transactions db' = transactions db ++ added
    ∧ expireView <$> added = expiryOf <$> due
    ∧ loggedPoints added = - sumPoints due
    ∧ totalPoints db'
      = totalPoints db - sumPoints (filter (hasCustomer db) due).
Proof.
  intros due db'. subst db'. unfold expireSweep. fold due.
  destruct (expireFold_accounts now due db) as [(added & Hlog & Hview) Htotal].
  exists added. split; [exact Hlog|]. split; [exact Hview|].
  split; [by apply loggedPoints_expiries|exact Htotal].
Qed.

(** ** What the scheduled job leaves alone *)

Lemma keepsHistory_refl db : keepsHistory db db.
Proof. by repeat split. Qed.

Lemma keepsHistory_trans db1 db2 db3 :
  keepsHistory db1 db2 → keepsHistory db2 db3 → keepsHistory db1 db3.
Proof.
  intros (H1 & H2 & H3 & H4 & H5 & H6 & H7 & H8)
         (K1 & K2 & K3 & K4 & K5 & K6 & K7 & K8).
  unfold keepsHistory.
  rewrite K1, K2, K3, K4, K5, K6, K7, H1, H2, H3, H4, H5, H6, H7.
  do 7 (split; [done|]). by etrans.
Qed.

Lemma expireRecord_keepsHistory now r db :
  keepsHistory db (expireRecord now r db).
Proof.
  unfold keepsHistory. do 5 (split; [done|]). split; [|split].
  - rewrite expireRecord_customers. by apply updateOne_fmap.
  - rewrite expireRecord_loyaltyPoints. by apply updateOne_fmap.
  - destruct (expireRecord_log now r db) as (t & -> & _).
    by apply prefix_app_r.
Qed.

Lemma expireSweep_keepsHistory now db : keepsHistory db (expireSweep now db).
Proof.
  unfold expireSweep. generalize (expiredPoints now db). intros l.
  revert db. induction l as [|r l IH]; intros db; [apply keepsHistory_refl|].
  cbn [foldl]. eapply keepsHistory_trans; [|apply IH].
  apply expireRecord_keepsHistory.
Qed.

Lemma applyTierAction_keepsHistory c now a db :
  keepsHistory db (applyTierAction c now a db).
Proof.
  destruct a as [cur prio|cur new prio| |]; try apply keepsHistory_refl;
    (unfold keepsHistory; do 5 (split; [done|]); split; [|split];
     [cbn; by apply updateOne_fmap | done | by apply prefix_app_r]).
Qed.

Lemma tierLoop_keepsHistory bronzeTier sorted now populated : ∀ db,
  keepsHistory db (foldl (processCustomer bronzeTier sorted now) db populated).
Proof.
  induction populated as [|[c t] populated IH]; intros db;
    [apply keepsHistory_refl|].
  cbn [foldl]. rewrite processCustomer_eq.
  eapply keepsHistory_trans; [|apply IH]. apply applyTierAction_keepsHistory.
Qed.

(** X4. Whatever the job does, committed or aborted, it leaves the tiers,
    the retention criteria, the priority records, the point criteria and
    the app types as they were; it keeps every customer's [_id],
    [customer_id] and coins; it changes nothing of a ledger entry but its
    status; and it only appends to the transactions. *)
Theorem X4_job_leaves_coins_ledger_points_and_history (now : Z) (db : Db) :
  keepsHistory db (processPointsAndTiers now db).
Proof.
  unfold processPointsAndTiers, processTiers.
  destruct (bronzeTierOf _) as [bronzeTier|]; cbn;
    [|apply keepsHistory_refl].
  eapply keepsHistory_trans; [apply expireSweep_keepsHistory|].
  apply tierLoop_keepsHistory.
Qed.

(** X5. With no tier configured the job throws after the sweep and the
    transaction is aborted: entries past their expiry date stay active and
    nothing is recorded. *)
Theorem X5_job_without_tiers_changes_nothing (now : Z) (db : Db) :
  tiers db = [] →
  processPointsAndTiers now db = db
  ∧ expiredPoints now (processPointsAndTiers now db) = expiredPoints now db.
Proof.
  intros Hnone.
  assert (Heq : processPointsAndTiers now db = db); [|by rewrite Heq].
  apply processPointsAndTiers_aborted. unfold sortedTiers. by rewrite Hnone.
Qed.

End JobAccounts.
(** ** Customers the tier step passes over *)

Section JobIdle.
Context `{Host}.

Lemma tierLoop_idle bronzeTier sorted now j populated : ∀ db,
  (∀ pc, pc ∈ populated → Customer._id pc.1 = j → pc.2 = None) →
  let db' := foldl (processCustomer bronzeTier sorted now) db populated in
  tierOf j db' = tierOf j db
  ∧ ∀ type, countFor j type db' = countFor j type db.
Proof.
  induction populated as [|[c t] populated IH]; intros db Hidle; [done|].
  cbn [foldl]. rewrite processCustomer_eq.
  set (a := tierAction bronzeTier sorted c t now db).
  cbv zeta in IH |- *.
  destruct (IH (applyTierAction c now a db)) as [-> Hcount].
  { intros pc Hpc. apply Hidle. by right. }
  destruct (decide (Customer._id c = j)) as [Hc|Hc].
  - assert (t = None) as -> by (apply (Hidle (c, t)); [left|done]).
    split; [done|]. intros type. by rewrite Hcount.
  - split.
    + rewrite applyTierAction_tierOf.
      destruct a; try done; by rewrite decide_False by done.
    + intros type. rewrite Hcount, applyTierAction_countFor.
      rewrite decide_False; [lia|]. by intros [? _].
Qed.

Lemma tierOf_stored c db :
  NoDup (Customer._id <$> customers db) → c ∈ customers db →
  tierOf (Customer._id c) db = Some (Customer.tier c).
Proof.
  intros Hnd Hc. unfold tierOf, Customer_findById.
  by rewrite (findOne_key_NoDup Customer._id _ c Hnd Hc).
Qed.

(** X6. A customer stored at the base tier is not loaded by the tier step,
    and for a customer whose tier reference resolves to no tier the
    iteration throws and is skipped. Either way a run leaves the
    customer's tier as stored and records no transaction for them other
    than expiries. *)
Theorem X6_base_tier_and_unresolved_customers_are_passed_over
    (now : Z) (db : Db) (bronzeTier : Tier.doc) (c : Customer.doc) :
  NoDup (Customer._id <$> customers db) →
  bronzeTierOf (sortedTiers db) = Some bronzeTier →
  c ∈ customers db →
  Customer.tier c = Some (Tier._id bronzeTier) ∨ populate_tier c db = None →
  let db' := processPointsAndTiers now db in
  tierOf (Customer._id c) db' = Some (Customer.tier c)
  ∧ ∀ type, type ≠ "expire" →
      countFor (Customer._id c) type db' = countFor (Customer._id c) type db.
Proof.
  intros Hnd Hbronze Hc Hskip db'. subst db'.
  rewrite (processPointsAndTiers_committed _ _ _ Hbronze).
  destruct (expireSweep_frame now db) as (Htiers & _ & _ & Hids & Htier & Hcount).
  set (db1 := expireSweep now db) in *.
  destruct (tierLoop_idle bronzeTier (sortedTiers db) now (Customer._id c)
              (customersToCheck bronzeTier db1) db1) as [-> Hsame].
  { intros [c1 t1] Hin Hid. cbn in Hid |- *.
    unfold customersToCheck in Hin.
    apply list_elem_of_fmap in Hin as (c1' & [= <- ->] & Hin).
    apply list_elem_of_filter in Hin as [Hne Hin].
    assert (Hstored : Customer.tier c1 = Customer.tier c).
    { assert (Hnd1 : NoDup (Customer._id <$> customers db1))
        by by rewrite Hids.
      assert (H1 := tierOf_stored c1 db1 Hnd1 Hin).
      rewrite Hid, Htier, (tierOf_stored c db Hnd Hc) in H1. congruence. }
    destruct Hskip as [Hbase|Hnone]; [congruence|].
    unfold populate_tier, Tier_findById in Hnone |- *.
    by rewrite Hstored, Htiers. }
  split.
  - by rewrite Htier, (tierOf_stored c db Hnd Hc).
  - intros type Htype. by rewrite Hsame, Hcount.
Qed.

End JobIdle.
(** ** The direction of tier changes *)

Section TierMoves.
Context `{Host}.

Lemma tierAction_ProtectionUpgrade bronzeTier sorted customer currentTier
    now db cur p :
  tierAction bronzeTier sorted customer currentTier now db
  = ProtectionUpgrade cur p →
  currentTier = Some cur
  ∧ priorityTierOf customer db = Some p
  ∧ Tier.hierarchy_level cur < Tier.hierarchy_level p.
Proof.
  unfold tierAction. destruct currentTier as [cur'|]; [|done].
  destruct (priorityTierOf customer db) as [p'|].
  - destruct (decide (Tier.hierarchy_level cur' < Tier.hierarchy_level p')).
    + by intros [= <- <-].
    + destruct (checkTierRetentionEligibility _ _ _ _); [done|].
      repeat (destruct (decide _); try done).
  - destruct (checkTierRetentionEligibility _ _ _ _); [done|].
    repeat (destruct (decide _); try done).
Qed.

(** X7. Every tier change of the customer loop has a direction: the tier
    written is never at the level of the tier the customer was loaded
    with. A change to a higher level is always a protection adjustment
    towards the customer's guaranteed minimum tier; every other change is
    a downgrade to a strictly lower level after a failed retention
    check. *)
Theorem X7_job_raises_only_by_protection
    (bronzeTier : Tier.doc) (sorted : list Tier.doc) (now : Z)
    (populated : list (Customer.doc * option Tier.doc)) (db : Db)
    (c : Customer.doc) (a : TierAction) (cur new : Tier.doc) :
  (c, a) ∈ tierTrace bronzeTier sorted now db populated →
  tierMove a = Some (cur, new) →
  (c, Some cur) ∈ populated
  ∧ Tier.hierarchy_level new ≠ Tier.hierarchy_level cur
  ∧ (Tier.hierarchy_level cur < Tier.hierarchy_level new →
     actionType a = Some "tier_protection_adjustment")
  ∧ (Tier.hierarchy_level new < Tier.hierarchy_level cur →
     actionType a = Some "tier_downgrade").
Proof.
  revert db. induction populated as [|[c' t] populated IH]; intros db Hin Hmove.
  - by apply elem_of_nil in Hin.
  - cbn [tierTrace] in Hin. apply elem_of_cons in Hin as [[= -> Hact]|Hin].
    + destruct a as [cur' p|cur' new' pt| |]; try done;
        injection Hmove as -> ->; symmetry in Hact.
      * apply tierAction_ProtectionUpgrade in Hact as (-> & _ & Hup).
        split; [left|]. split; [lia|]. split; [done|]. lia.
      * apply tierAction_Downgrade in Hact as (-> & _ & _ & Hdown & _).
        split; [left|]. split; [lia|]. split; [lia|done].
    + destruct (IH _ Hin Hmove) as (Hpop & Hrest). split; [by right|done].
Qed.

Lemma scanTiers_highest customer currentTier now db tiers t :
  StronglySorted hierarchy_ge tiers →
  scanTiers customer currentTier now db tiers = Some t →
  ∀ t', t' ∈ tiers →
        Tier._id t' ≠ Tier._id currentTier →
        Tier.hierarchy_level t' < Tier.hierarchy_level currentTier →
        checkTierRetentionEligibility customer t' now db = true →
        Tier.hierarchy_level t' ≤ Tier.hierarchy_level t.
Proof.
  induction 1 as [|h tiers Hsorted IH Hhead]; intros Hscan t' Ht' Hid Hlow Hok.
  - by apply elem_of_nil in Ht'.
  - cbn in Hscan. apply elem_of_cons in Ht' as [->|Ht'].
    + rewrite decide_False, decide_True, Hok in Hscan by done.
      injection Hscan as ->. lia.
    + destruct (decide (Tier._id h = Tier._id currentTier)); [by apply IH|].
      destruct (decide (Tier.hierarchy_level h
                        < Tier.hierarchy_level currentTier)); [|by apply IH].
      destruct (checkTierRetentionEligibility customer h now db);
        [|by apply IH].
      injection Hscan as <-. rewrite Forall_forall in Hhead.
      apply (Hhead t' Ht').
Qed.

Lemma scanTiers_finds customer currentTier now db tiers passing :
  passing ∈ tiers →
  Tier._id passing ≠ Tier._id currentTier →
  Tier.hierarchy_level passing < Tier.hierarchy_level currentTier →
  checkTierRetentionEligibility customer passing now db = true →
  is_Some (scanTiers customer currentTier now db tiers).
Proof.
  intros Hin Hid Hlow Hok.
  induction tiers as [|h tiers IH]; [by apply elem_of_nil in Hin|].
  cbn. apply elem_of_cons in Hin as [<-|Hin].
  - by rewrite decide_False, decide_True, Hok.
  - destruct (decide _); [by apply IH|].
    destruct (decide _); [|by apply IH].
    destruct (checkTierRetentionEligibility customer h now db);
      [done|by apply IH].
Qed.

(** X8. When some tier of the collection below the current one passes its
    retention check, the scan over the tiers in descending order returns
    a tier, and it is the highest such tier: it is of the collection,
    below the current tier, passes its check, and no tier of the
    collection that is below the current tier and passes its check has a
    higher level. *)
Theorem X8_scan_stops_at_the_highest_passing_tier
    (customer : Customer.doc) (currentTier passing : Tier.doc) (now : Z)
    (db : Db) :
  passing ∈ tiers db →
  Tier._id passing ≠ Tier._id currentTier →
  Tier.hierarchy_level passing < Tier.hierarchy_level currentTier →
  checkTierRetentionEligibility customer passing now db = true →
  ∃ t,
    scanTiers customer currentTier now db (sortedTiers db) = Some t
    ∧ t ∈ tiers db
    ∧ Tier.hierarchy_level t < Tier.hierarchy_level currentTier
    ∧ checkTierRetentionEligibility customer t now db = true
    ∧ ∀ t', t' ∈ tiers db →
            Tier._id t' ≠ Tier._id currentTier →
            Tier.hierarchy_level t' < Tier.hierarchy_level currentTier →
            checkTierRetentionEligibility customer t' now db = true →
            Tier.hierarchy_level t' ≤ Tier.hierarchy_level t.
Proof.
  intros Hin Hid Hlower Hpasses.
  assert (Hperm : sortedTiers db ≡ₚ tiers db) by apply merge_sort_Permutation.
  destruct (scanTiers_finds customer currentTier now db (sortedTiers db)
              passing) as [t Hscan]; [by rewrite Hperm|done..|].
  exists t. split; [done|].
  destruct (scanTiers_Some _ _ _ _ _ _ Hscan) as (Ht & Hlow & Hok).
  split; [by rewrite <-Hperm|]. split; [done|]. split; [done|].
  assert (Hsorted : StronglySorted hierarchy_ge (sortedTiers db))
    by (apply StronglySorted_merge_sort; apply _).
  intros t' Ht'. apply (scanTiers_highest _ _ _ _ _ _ Hsorted Hscan).
  by rewrite Hperm.
Qed.

(** X9. For a tier with active retention criteria a customer whose
    [total_points] is negative skips the period check and is retained,
    whatever they earned; the tier step therefore never downgrades such a
    customer. *)
Theorem X9_negative_balance_is_never_downgraded
    (bronzeTier : Tier.doc) (sorted : list Tier.doc) (customer : Customer.doc)
    (currentTier : Tier.doc) (now : Z) (db : Db) :
  is_Some (findCriteria currentTier db) →
  Customer.total_points customer < 0 →
  retentionReturn customer currentTier now db = ReturnSufficientPoints
  ∧ checkTierRetentionEligibility customer currentTier now db = true
  ∧ ∀ cur new pt,
      tierAction bronzeTier sorted customer (Some currentTier) now db
      ≠ Downgrade cur new pt.
Proof.
  intros [criteria Hcriteria] Hneg.
  assert (Hret : retentionReturn customer currentTier now db
                 = ReturnSufficientPoints).
  { unfold retentionReturn. rewrite Hcriteria. by rewrite decide_False by lia. }
  assert (Hok : checkTierRetentionEligibility customer currentTier now db
                = true).
  { unfold checkTierRetentionEligibility. by rewrite Hret. }
  split; [done|]. split; [done|]. intros cur new pt Hact.
  apply tierAction_Downgrade in Hact as ([= <-] & _ & _ & _ & Hfail).
  congruence.
Qed.

End TierMoves.
(** ** Which transactions the retention check looks at *)

Section RetentionInputs.
Context `{Host}.

Lemma periodNetEarnings_recorded customer criteria now db t i :
  periodNetEarnings customer criteria now (recorded t db) i
  = periodNetEarnings customer criteria now db i
    + (if decide
            (inPeriod (Customer._id customer)
               (minusDays
                  (minusDays now
                     (i * TierEligibilityCriteria.evaluation_period_days
                            criteria))
                  (TierEligibilityCriteria.evaluation_period_days criteria))
               (minusDays now
                  (i * TierEligibilityCriteria.evaluation_period_days
                         criteria))
               t)
       then Transaction.points t else 0).
Proof.
  unfold periodNetEarnings, recorded, with_transactions. cbn [transactions].
  cbv zeta. rewrite filter_app, foldl_app, filter_cons, filter_nil.
  destruct (decide _); cbn [foldl]; lia.
Qed.

Lemma periodLoop_ext customer criteria now db db' indices : ∀ count,
  (∀ i, periodNetEarnings customer criteria now db' i
        = periodNetEarnings customer criteria now db i) →
  periodLoop customer criteria now db' indices count
  = periodLoop customer criteria now db indices count.
Proof.
  induction indices as [|i indices IH]; intros count Heq; [done|].
  cbn [periodLoop]. rewrite Heq. destruct (decide _); [by apply IH|done].
Qed.

(** X10. The retention check reads a customer's completed ["earn"]
    transactions and nothing else of the transaction log: recording a
    transaction of another type (a redemption, an expiry, a tier change),
    of another status or of another customer changes neither the verdict
    nor the statement the function returns from. *)
Theorem X10_retention_reads_only_completed_earnings
    (customer : Customer.doc) (tier : Tier.doc) (now : Z) (db : Db)
    (t : Transaction.doc) :
  ¬ completedEarnOf (Customer._id customer) t →
  retentionReturn customer tier now (recorded t db)
  = retentionReturn customer tier now db
  ∧ checkTierRetentionEligibility customer tier now (recorded t db)
    = checkTierRetentionEligibility customer tier now db.
Proof.
  intros Hother.
  assert (Hret : retentionReturn customer tier now (recorded t db)
                 = retentionReturn customer tier now db).
  { unfold retentionReturn.
    change (findCriteria tier (recorded t db)) with (findCriteria tier db).
    destruct (findCriteria tier db) as [criteria|]; [|done].
    destruct (decide _); [|done]. apply periodLoop_ext. intros i.
    rewrite periodNetEarnings_recorded, decide_False; [lia|].
    unfold inPeriod, completedEarnOf in *. tauto. }
  split; [done|]. unfold checkTierRetentionEligibility. by rewrite Hret.
Qed.

Lemma periodPasses_recorded customer criteria now db t i :
  0 ≤ Transaction.points t →
  periodPasses customer criteria now db i →
  periodPasses customer criteria now (recorded t db) i.
Proof.
  unfold periodPasses. rewrite periodNetEarnings_recorded.
  destruct (decide _); lia.
Qed.

(** X11. Recording a further transaction with non-negative points never
    costs a customer their tier: a retention check that passes still
    passes once the transaction is in the log. *)
Theorem X11_further_earnings_never_cost_the_tier
    (customer : Customer.doc) (tier : Tier.doc) (now : Z) (db : Db)
    (t : Transaction.doc) :
  0 ≤ Transaction.points t →
  checkTierRetentionEligibility customer tier now db = true →
  checkTierRetentionEligibility customer tier now (recorded t db) = true.
Proof.
  intros Hpoints. unfold checkTierRetentionEligibility, retentionReturn.
  change (findCriteria tier (recorded t db)) with (findCriteria tier db).
  destruct (findCriteria tier db) as [criteria|]; [|done].
  destruct (decide _); [|done].
  rewrite !periodLoop_verdict. intros [Hall Hcount]. split; [|done].
  eapply Forall_impl; [exact Hall|]. intros i.
  by apply periodPasses_recorded.
Qed.

End RetentionInputs.
(** ** Requests that are refused *)

Section Refusals.
Context `{Host}.

(** X12. A grant that is not answered with 201 leaves the database as it
    was. An answer of 404 (unknown customer, unknown criteria) or 400
    (criteria without a valid fixed rule) carries no data. A
    [requested_by] that does not compile as a regular expression makes
    the app type lookup throw: the request is answered with 500 and the
    message of the error as data. *)
Theorem X12_refused_grant_changes_nothing
    (req : AddRequest) (now : Z) (db : Db) :
  res_status (fst (addPointsIndividual req now db)) ≠ 201 →
  snd (addPointsIndividual req now db) = db
  ∧ res_status (fst (addPointsIndividual req now db)) ∈ [404; 400; 500]
  ∧ (res_status (fst (addPointsIndividual req now db)) ≠ 500 →
     res_data (fst (addPointsIndividual req now db)) = NoData)
  ∧ ∀ customer criteria points rule message,
      Customer_findById (add_customer_id req) db = Some customer →
      resolvePointCriteria (JsString (add_point_criteria req)) db
      = Some criteria →
      getManualPointsForCriteria criteria = inr (points, rule) →
      findAppType (JsString (add_requested_by req)) db = inl message →
      fst (addPointsIndividual req now db)
      = response_handler 500 "Failed to add manual points" (DataText message).
Proof.
  intros Hrefused.
  assert (Hthrown : ∀ customer criteria points rule message,
    Customer_findById (add_customer_id req) db = Some customer →
    resolvePointCriteria (JsString (add_point_criteria req)) db
    = Some criteria →
    getManualPointsForCriteria criteria = inr (points, rule) →
    findAppType (JsString (add_requested_by req)) db = inl message →
    fst (addPointsIndividual req now db)
    = response_handler 500 "Failed to add manual points" (DataText message)).
  { intros customer criteria points rule message Hc Hk Hp Ha.
    unfold addPointsIndividual. by rewrite Hc, Hk, Hp, Ha. }
  split; [|split; [|split; [|exact Hthrown]]]; clear Hthrown;
    revert Hrefused; unfold addPointsIndividual;
    (destruct (Customer_findById _ db) as [customer|];
       [|intros _; cbn; rewrite ?elem_of_cons; auto]);
    (destruct (resolvePointCriteria _ db) as [criteria|];
       [|intros _; cbn; rewrite ?elem_of_cons; auto]);
    (destruct (getManualPointsForCriteria criteria) as [?|[points rule]];
       [intros _; cbn; rewrite ?elem_of_cons; auto|]);
    (destruct (findAppType _ db) as [message|requestedAppType];
       [intros _; cbn; rewrite ?elem_of_cons; auto; by intros []|]);
    cbn [Transaction_create];
    (destruct (Customer_findById _ _) as [updated|];
       [done|intros _; cbn; rewrite ?elem_of_cons; auto; by intros []]).
Qed.

Lemma updateEntries_appTypes g l : ∀ d,
  appTypes (foldl (updateEntry g) d l) = appTypes d.
Proof.
  induction l as [|e l IHl]; intros d; [done|].
  cbn [foldl]. by rewrite IHl.
Qed.

Lemma redeemPointsFIFO_appTypes customerId pointsToRedeem now db :
  appTypes (snd (redeemPointsFIFO customerId pointsToRedeem now db))
  = appTypes db.
Proof.
  unfold redeemPointsFIFO. destruct (decide _); [done|].
  destruct (fifoLoop_split now (validPoints customerId now db)
              pointsToRedeem 0 [] db)
    as (full & partial & rest & _ & _ & _ & _ & ->).
  cbn. unfold consume. by rewrite !updateEntries_appTypes.
Qed.

Lemma findAppType_ext requestedBy db db' :
  appTypes db' = appTypes db →
  findAppType requestedBy db' = findAppType requestedBy db.
Proof. intros Heq. unfold findAppType. by rewrite Heq. Qed.

(** X13. A reduction that is not answered with 200 leaves the database as
    it was, also when the redemption had already rewritten ledger entries
    before the request failed: a [requested_by] that does not compile as
    a regular expression makes the app type lookup throw after the
    redemption, and the request is answered with 500 and the message of
    the error while every ledger entry is as before. *)
Theorem X13_refused_reduction_changes_nothing
    (req : ReduceRequest) (now : Z) (db : Db) :
  res_status (fst (reducePoints req now db)) ≠ 200 →
  snd (reducePoints req now db) = db
  ∧ res_status (fst (reducePoints req now db)) ∈ [404; 400; 500]
  ∧ ∀ customer message,
      Customer_findById (reduce_customer_id req) db = Some customer →
      0 < reduce_points req ≤ availableSum (reduce_customer_id req) now db →
      findAppType (JsString (reduce_requested_by req)) db = inl message →
      fst (reducePoints req now db)
      = response_handler 500 "Failed to reduce manual points"
          (DataText message).
Proof.
  intros Hrefused. split; [|split].
  - revert Hrefused. unfold reducePoints.
    destruct (Customer_findById _ db) as [customer|]; [|done].
    destruct (decide _); [done|].
    destruct (redeemPointsFIFO _ _ _ _) as [fifo db1].
    destruct (success fifo); cbn [negb]; [|done].
    destruct (findAppType _ db1) as [message|requestedAppType]; [done|].
    cbn [Transaction_create].
    by destruct (Customer_findById _ _) as [updated|].
  - revert Hrefused. unfold reducePoints.
    destruct (Customer_findById _ db) as [customer|];
      [|intros _; cbn; rewrite ?elem_of_cons; auto].
    destruct (decide _); [intros _; cbn; rewrite ?elem_of_cons; auto|].
    destruct (redeemPointsFIFO _ _ _ _) as [fifo db1].
    destruct (success fifo); cbn [negb];
      [|intros _; cbn; rewrite ?elem_of_cons; auto].
    destruct (findAppType _ db1) as [message|requestedAppType];
      [intros _; cbn; rewrite ?elem_of_cons; auto|].
    cbn [Transaction_create].
    destruct (Customer_findById _ _) as [updated|]; [done|].
    intros _; cbn; rewrite ?elem_of_cons; auto.
  - intros customer message Hcustomer [Hpos Henough] Hthrows.
    assert (Hid := Customer_findById_id _ _ _ Hcustomer).
    unfold reducePoints. rewrite Hcustomer, decide_False by lia.
    rewrite Hid.
    assert (Happ := redeemPointsFIFO_appTypes (reduce_customer_id req)
                      (reduce_points req) now db).
    assert (Hsuccess :
      success (fst (redeemPointsFIFO (reduce_customer_id req)
                      (reduce_points req) now db)) = true).
    { unfold redeemPointsFIFO. rewrite sumPoints_validPoints.
      rewrite decide_False by lia.
      by destruct (fifoLoop _ _ _ _ _ _) as [[? ?] ?]. }
    destruct (redeemPointsFIFO _ _ _ _) as [fifo db1].
    cbn [fst snd] in Happ, Hsuccess. rewrite Hsuccess. cbn [negb].
    by rewrite (findAppType_ext _ _ _ Happ), Hthrows.
Qed.

Lemma grantLoop_details requestedBy appType now accepted : ∀ details db out,
  grantLoop requestedBy appType now accepted details db = Some out →
  detail_row <$> out.1
  = (detail_row <$> details) ++ (rowNumber <$> accepted).
Proof.
  induction accepted as [|entry accepted IH]; intros details db out.
  - cbn. intros [= <-]. by rewrite app_nil_r.
  - cbn [grantLoop Transaction_create].
    destruct (Customer_findById _ _) as [updated|]; [|done].
    intros Hout. rewrite (IH _ _ _ Hout), fmap_app, <-app_assoc. done.
Qed.

Lemma rowOutcomes_no_errors rows db : ∀ index,
  rowErrors (rowOutcomes index rows db) = [] →
  (∀ rawRow, rawRow ∈ rows → rowIsValid rawRow db)
  ∧ rowNumber <$> rowsAccepted (rowOutcomes index rows db)
    = seqZ (index + 2) (Z.of_nat (length rows)).
Proof.
  induction rows as [|rawRow rows IH]; intros index Herrors.
  - split; [by intros r ?%elem_of_nil|done].
  - cbn [rowOutcomes] in *. unfold rowErrors, rowsAccepted in *.
    cbn [omap list_omap] in *.
    destruct (validateRow index rawRow db) as [error|enriched] eqn:Hrow;
      [done|].
    destruct (validateRow_accepts _ _ _ _ Hrow) as (Hvalid & Hnumber & _).
    destruct (IH (index + 1) Herrors) as [Hall Hnumbers]. split.
    + intros r [->|Hr]%elem_of_cons; [done|by apply Hall].
    + cbn [length]. rewrite fmap_cons, Hnumber, Hnumbers.
      rewrite Nat2Z.inj_succ, (seqZ_cons (index + 2)) by lia.
      f_equal. f_equal; lia.
Qed.

(** X14. A bulk upload that is not answered with 200 leaves the database
    as it was, whichever check or row ended it. *)
Theorem X14_refused_bulk_upload_changes_nothing
    (req : BulkRequest) (now : Z) (db : Db) :
  res_status (fst (addPointsBulk req now db)) ≠ 200 →
  snd (addPointsBulk req now db) = db
  ∧ res_status (fst (addPointsBulk req now db)) ∈ [400; 500].
Proof.
  unfold addPointsBulk.
  destruct (bulk_file req) as [file|]; [|intros _; cbn; split; [done|set_solver]].
  destruct (decide _); [intros _; cbn; split; [done|set_solver]|].
  destruct file as [|[|first rest]];
    [intros _; cbn; split; [done|set_solver]..|].
  destruct (validationLoop _ _ _ _ _) as [errors accepted].
  destruct (negb _); [intros _; cbn; split; [done|set_solver]|].
  destruct (findAppType _ db) as [message|requestedAppType];
    [intros _; cbn; split; [done|set_solver]|].
  destruct (grantLoop _ _ _ _ _ _) as [[details db1]|];
    [done|intros _; cbn; split; [done|set_solver]].
Qed.

(** X15. A bulk upload answered with 200 was a sheet of at least one row
    in which every row passes every check; the answer counts every row as
    processed and lists one detail per row, numbered as in the sheet from
    row 2 on. *)
Theorem X15_accepted_bulk_upload_reports_every_row
    (req : BulkRequest) (now : Z) (db : Db) :
  res_status (fst (addPointsBulk req now db)) = 200 →
  ∃ rows details,
    bulk_file req = Some (Sheet rows)
    ∧ rows ≠ []
    ∧ (∀ rawRow, rawRow ∈ rows → rowIsValid rawRow db)
    ∧ res_data (fst (addPointsBulk req now db))
      = DataBulk (Z.of_nat (length rows)) (Z.of_nat (length rows)) details
    ∧ detail_row <$> details = seqZ 2 (Z.of_nat (length rows)).
Proof.
  unfold addPointsBulk.
  destruct (bulk_file req) as [file|]; [|done].
  destruct (decide _); [done|].
  destruct file as [|rows]; [done|].
  destruct rows as [|first rest] eqn:Hrows; [done|]. rewrite <-Hrows.
  rewrite validationLoop_outcomes. cbn [app].
  destruct (bool_decide_reflect (rowErrors (rowOutcomes 0 rows db) = []))
    as [Herrors|]; [|done]. cbn [negb].
  destruct (rowOutcomes_no_errors rows db 0 Herrors) as [Hvalid Hnumbers].
  destruct (findAppType _ db) as [message|requestedAppType]; [done|].
  destruct (grantLoop _ _ _ _ _ _) as [[details db1]|] eqn:Hgrant; [|done].
  intros _. exists rows, details. split; [done|]. split; [by rewrite Hrows|].
  split; [done|]. cbn [fst res_data].
  assert (Hlength : length (rowsAccepted (rowOutcomes 0 rows db))
                    = length rows).
  { rewrite <-(length_fmap rowNumber), Hnumbers, length_seqZ. lia. }
  split; [by rewrite Hlength|].
  assert (Hd := grantLoop_details _ _ _ _ _ _ _ Hgrant).
  cbn in Hd. by rewrite Hd, Hnumbers.
Qed.

End Refusals.
(** ** Which criteria and which rule a grant uses *)

Section Criteria.
Context `{Host}.

(** X16. A criteria reference resolves exactly when it is not blank and
    some criteria has it as its [_id] or as its [unique_code]. The
    document returned is one of the collection, and a match by [_id] takes
    precedence: a document is returned for its [unique_code] only when no
    document has the reference as its [_id]. *)
Theorem X16_criteria_resolve_by_id_before_code
    (identifier : JsValue) (db : Db) :
  let normalized := normalizeString identifier in
  (is_Some (resolvePointCriteria identifier db)
   ↔ normalized ≠ ""
     ∧ ∃ q, q ∈ pointCriterias db
            ∧ (ObjectId_parse normalized = Some (PointCriteria._id q)
               ∨ PointCriteria.unique_code q = normalized))
  ∧ ∀ p, resolvePointCriteria identifier db = Some p →
         p ∈ pointCriterias db
         ∧ (ObjectId_parse normalized = Some (PointCriteria._id p)
            ∨ (PointCriteria.unique_code p = normalized
               ∧ ∀ q, q ∈ pointCriterias db →
                      ObjectId_parse normalized
                      ≠ Some (PointCriteria._id q))).
Proof.
  intros normalized. unfold resolvePointCriteria. fold normalized.
  destruct (decide (normalized = "")) as [Hblank|Hblank].
  { split; [|done]. split; [by intros []|by intros []]. }
  set (byCode := findOne (λ p, PointCriteria.unique_code p = normalized)
                   (pointCriterias db)).
  assert (HbyCode : ∀ p, byCode = Some p →
            p ∈ pointCriterias db ∧ PointCriteria.unique_code p = normalized).
  { intros p Hp. by apply findOne_Some in Hp. }
  assert (HnoCode : byCode = None →
            ∀ q, q ∈ pointCriterias db →
                 PointCriteria.unique_code q ≠ normalized).
  { intros Hnone. exact (proj1 (findOne_None _ _) Hnone). }
  destruct (ObjectId_parse normalized) as [oid|] eqn:Hparse.
  - destruct (findOne (λ p, PointCriteria._id p = oid) (pointCriterias db))
      as [byId|] eqn:HbyId.
    + apply findOne_Some in HbyId as [Hin Hid]. split.
      * split; [|done]. intros _. split; [done|]. exists byId.
        split; [done|]. left. by rewrite Hid.
      * intros p [= <-]. split; [done|]. left. by rewrite Hid.
    + assert (HnoId : ∀ q, q ∈ pointCriterias db →
                Some oid ≠ Some (PointCriteria._id q)).
      { intros q Hq [= Heq]. by apply (proj1 (findOne_None _ _) HbyId q). }
      split.
      * split.
        -- intros [p Hp]. destruct (HbyCode p Hp). split; [done|].
           exists p. split; [done|]. by right.
        -- intros (_ & q & Hq & [Hid|Hcode]); [by destruct (HnoId q Hq)|].
           destruct byCode as [p|] eqn:Hp; [done|].
           by destruct (HnoCode eq_refl q Hq).
      * intros p Hp. destruct (HbyCode p Hp). split; [done|]. by right.
  - split.
    + split.
      * intros [p Hp]. destruct (HbyCode p Hp). split; [done|].
        exists p. split; [done|]. by right.
      * intros (_ & q & Hq & [Hid|Hcode]); [done|].
        destruct byCode as [p|] eqn:Hp; [done|].
        by destruct (HnoCode eq_refl q Hq).
    + intros p Hp. destruct (HbyCode p Hp). split; [done|]. by right.
Qed.

(** X17. The points of a manual grant come from one rule of the criteria's
    point system: the first rule of type ["fixed"], or the first rule of
    all when none is fixed. Its rate is the amount and is positive; a
    fixed rule is never passed over for another one. *)
Theorem X17_manual_points_come_from_the_first_fixed_rule
    (criteria : PointCriteria.doc) (rate : Z) (rule : PointRule) :
  getManualPointsForCriteria criteria = inr (rate, rule) →
  ∃ pointSystem,
    PointCriteria.pointSystem criteria = Some pointSystem
    ∧ rule ∈ pointSystem
    ∧ pointRate rule = Some rate
    ∧ 0 < rate
    ∧ (pointType rule = "fixed"
       ∧ findOne (λ entry, pointType entry = "fixed") pointSystem = Some rule
       ∨ head pointSystem = Some rule
         ∧ ∀ entry, entry ∈ pointSystem → pointType entry ≠ "fixed").
Proof.
  unfold getManualPointsForCriteria.
  destruct (PointCriteria.pointSystem criteria) as [[|first rest]|]; try done.
  set (pointSystem := first :: rest).
  destruct (findOne (λ entry, pointType entry = "fixed") pointSystem)
    as [fixed|] eqn:Hfixed; cbn [default from_option id].
  - destruct (pointRate fixed) as [r|] eqn:Hrate; [|done].
    destruct (decide (r ≤ 0)); [done|]. intros [= <- <-].
    apply findOne_Some in Hfixed as Hfound. destruct Hfound as [Hin Htype].
    exists pointSystem. do 2 (split; [done|]). split; [done|].
    split; [lia|]. by left.
  - destruct (pointRate first) as [r|] eqn:Hrate; [|done].
    destruct (decide (r ≤ 0)); [done|]. intros [= <- <-].
    exists pointSystem. split; [done|]. split; [left|]. split; [done|].
    split; [lia|]. right. split; [done|]. exact (proj1 (findOne_None _ _) Hfixed).
Qed.

End Criteria.
(** ** The ledger entry of a grant *)

Section GrantLedger.
Context `{Host}.

(** X18. A grant answered with 201 adds at most one entry to the ledger.
    When the entry is there it mirrors the transaction of the answer: the
    same customer, the points awarded, status ["active"], earned at the
    time of the request and referring to the transaction by its [_id];
    otherwise the ledger is as it was. *)
Theorem X18_grant_adds_at_most_one_matching_ledger_entry
    (req : AddRequest) (now : Z) (db : Db) :
  tierCheckOnlyMovesTiers →
  res_status (fst (addPointsIndividual req now db)) = 201 →
  let db' := snd (addPointsIndividual req now db) in
  ∃ t balance N,
    res_data (fst (addPointsIndividual req now db)) = DataAdded t balance N
    ∧ Transaction.customer_id t = add_customer_id req
    ∧ Transaction.points t = N
    ∧ (loyaltyPoints db' = loyaltyPoints db
       ∨ ∃ e,
           loyaltyPoints db' = loyaltyPoints db ++ [e]
           ∧ LoyaltyPoints.customer_id e = add_customer_id req
           ∧ LoyaltyPoints.points e = N
           ∧ LoyaltyPoints.status e = "active"
           ∧ LoyaltyPoints.earnedAt e = now
           ∧ LoyaltyPoints.transaction_id e = Some (Transaction._id t)
           ∧ LoyaltyPoints_validate e = true).
Proof.
  intros Htier. unfold addPointsIndividual.
  destruct (Customer_findById _ db) as [customer|] eqn:Hcustomer; [|done].
  assert (Hid := Customer_findById_id _ _ _ Hcustomer).
  destruct (resolvePointCriteria _ db) as [criteria|]; [|done].
  destruct (getManualPointsForCriteria criteria) as [?|[N rule]]; [done|].
  destruct (findAppType _ db) as [?|requestedAppType]; [done|].
  cbn [Transaction_create].
  set (t := grantDocument _ _ _ _ _ _ _ _).
  set (db1 := bump_oid _).
  set (db2 := Customer_findByIdAndUpdate _ _ db1).
  destruct (Customer_findById _ db2) as [updated|]; [|done].
  intros _. cbn [fst snd res_data].
  exists t, (Customer.total_points updated), N.
  split; [done|]. split; [done|]. split; [done|].
  destruct (tryCheckAndUpgradeTier_frame (Customer._id customer)
              (tryCreateLoyaltyPoints customer
                 (Tier._id <$> populate_tier customer db) N t now db2) Htier)
    as (-> & _).
  unfold tryCreateLoyaltyPoints, LoyaltyPoints_create.
  destruct (calculateExpiryDate _ db2) as [expiryDate|]; [|by left].
  set (e := LoyaltyPoints.mk _ _ _ _ _ _ _ _).
  destruct (LoyaltyPoints_validate e) eqn:Hvalid; [|by left].
  right. exists e. by repeat split.
Qed.

End GrantLedger.
(** ** Filling in missing app types *)

Section AppTypes.
Variable toLowerCase : string → string.
Variable castErrorMessage : string → string.




Lemma updateOne_key_fmap {A K} `{EqDecision K} (key : A → K) (j : K)
    (f : A → A) (l : list A) :
  NoDup (key <$> l) → (∀ x, key (f x) = key x) →
  updateOne (λ x, key x = j) f l
  = (λ x, if decide (key x = j) then f x else x) <$> l.
Proof.
  intros Hnd Hkey. induction l as [|x l IH]; [done|].
  rewrite fmap_cons in Hnd. apply NoDup_cons in Hnd as [Hx Hnd].
  cbn. destruct (decide (key x = j)) as [Hj|Hj].
  - f_equal. clear IH. induction l as [|y l IH]; [done|].
    rewrite fmap_cons, not_elem_of_cons in Hx. destruct Hx as [Hy Hx].
    apply NoDup_cons in Hnd as [_ Hnd].
    cbn. rewrite decide_False by congruence. f_equal. by apply IH.
  - f_equal. by apply IH.
Qed.

Lemma appTypeStepDoc_id appTypeMap t x :
  Transaction._id (appTypeStepDoc toLowerCase appTypeMap t x)
  = Transaction._id t.
Proof.
  unfold appTypeStepDoc. destruct (appTypeMap !! _); [|done].
  by destruct (decide _).
Qed.

Lemma appTypeStepDocs_id appTypeMap todo : ∀ t,
  Transaction._id (foldl (appTypeStepDoc toLowerCase appTypeMap) t todo)
  = Transaction._id t.
Proof.
  induction todo as [|x todo IH]; intros t; [done|].
  cbn [foldl]. by rewrite IH, appTypeStepDoc_id.
Qed.

Lemma appTypeStep_db appTypeMap st x :
  NoDup (Transaction._id <$> transactions (loop_db st)) →
  loop_db (appTypeStep toLowerCase castErrorMessage appTypeMap st x)
  = with_transactions
      ((λ t, appTypeStepDoc toLowerCase appTypeMap t x)
       <$> transactions (loop_db st))
      (loop_db st).
Proof.
  intros Hnd. unfold appTypeStep, appTypeStepDoc.
  destruct (appTypeMap !! _) as [appTypeId|]; cbn [loop_db].
  - unfold Transaction_updateOne_app_type.
    by rewrite (updateOne_key_fmap Transaction._id).
  - rewrite list_fmap_id. by destruct (loop_db st).
Qed.

Lemma appTypeLoop_db appTypeMap todo : ∀ st,
  NoDup (Transaction._id <$> transactions (loop_db st)) →
  loop_db (foldl (appTypeStep toLowerCase castErrorMessage appTypeMap) st todo)
  = with_transactions
      ((λ t, foldl (appTypeStepDoc toLowerCase appTypeMap) t todo)
       <$> transactions (loop_db st))
      (loop_db st).
Proof.
  induction todo as [|x todo IH]; intros st Hnd.
  - cbn. rewrite list_fmap_id. by destruct (loop_db st).
  - cbn [foldl]. rewrite IH, appTypeStep_db by
      (rewrite ?appTypeStep_db by done; cbn [transactions with_transactions];
       rewrite <-?list_fmap_compose;
       try (erewrite list_fmap_ext; [exact Hnd|];
            intros; cbn; apply appTypeStepDoc_id);
       done).
    unfold with_transactions. cbn. by rewrite <-list_fmap_compose.
Qed.

Lemma appTypeStepDocs_other appTypeMap todo : ∀ t,
  Transaction._id t ∉ Transaction._id <$> todo →
  foldl (appTypeStepDoc toLowerCase appTypeMap) t todo = t.
Proof.
  induction todo as [|x todo IH]; intros t Ht; [done|].
  rewrite fmap_cons, not_elem_of_cons in Ht. destruct Ht as [Hx Ht].
  cbn [foldl]. unfold appTypeStepDoc at 2.
  destruct (appTypeMap !! _); [|by apply IH].
  rewrite decide_False by done. by apply IH.
Qed.

Lemma appTypeStepDocs_selected appTypeMap todo t :
  NoDup (Transaction._id <$> todo) →
  (∀ x, x ∈ todo → Transaction._id x = Transaction._id t → x = t) →
  foldl (appTypeStepDoc toLowerCase appTypeMap) t todo
  = if decide (Transaction._id t ∈ Transaction._id <$> todo)
    then appTypeStepDoc toLowerCase appTypeMap t t else t.
Proof.
  induction todo as [|x todo IH]; intros Hnd Hsame.
  - by rewrite decide_False by apply not_elem_of_nil.
  - rewrite fmap_cons in Hnd. apply NoDup_cons in Hnd as [Hx Hnd].
    cbn [foldl]. destruct (decide (Transaction._id x = Transaction._id t))
      as [Hid|Hid].
    + assert (x = t) as -> by (apply Hsame; [left|done]).
      rewrite decide_True by (rewrite fmap_cons; left).
      apply appTypeStepDocs_other. by rewrite appTypeStepDoc_id.
    + assert (appTypeStepDoc toLowerCase appTypeMap t x = t) as ->.
      { unfold appTypeStepDoc. destruct (appTypeMap !! _); [|done].
        by rewrite decide_False by done. }
      rewrite IH; [|done|intros y Hy; apply Hsame; by right].
      destruct (decide (Transaction._id t ∈ Transaction._id <$> todo)).
      * by rewrite decide_True by (rewrite fmap_cons; by right).
      * rewrite decide_False; [done|]. rewrite fmap_cons.
        intros [?|?]%elem_of_cons; [congruence|done].
Qed.

Lemma buildAppTypeMap_lookup (apps : list AppType.doc) (key : string) :
  buildAppTypeMap toLowerCase apps !! key
  = AppType._id <$> last (namedLike toLowerCase key apps).
Proof.
  unfold buildAppTypeMap, namedLike.
  induction apps as [|app apps IH] using rev_ind; [done|].
  rewrite foldl_app, filter_app, filter_cons, filter_nil. cbn [foldl].
  destruct (decide (toLowerCase (AppType.name app) = key)) as [<-|Hkey].
  - by rewrite lookup_insert_eq, last_snoc.
  - by rewrite lookup_insert_ne, app_nil_r.
Qed.

Lemma updateTransactionAppTypes_db db :
  NoDup (Transaction._id <$> transactions db) →
  snd (updateTransactionAppTypes toLowerCase castErrorMessage db)
  = with_transactions (assignAppType toLowerCase db <$> transactions db) db.
Proof.
  intros Hnd.
  assert (Hassign : ∀ t, t ∈ transactions db →
            foldl
              (appTypeStepDoc toLowerCase
                 (buildAppTypeMap toLowerCase (appTypes db)))
              t (filter needsAppType (transactions db))
            = assignAppType toLowerCase db t).
  { intros t Ht. rewrite appTypeStepDocs_selected.
    - unfold assignAppType, appTypeFor, appTypeStepDoc.
      destruct (decide (needsAppType t)) as [Hneeds|Hneeds].
      + rewrite decide_True
          by (apply list_elem_of_fmap_2; by apply list_elem_of_filter).
        destruct (_ !! _); [|done]. by rewrite decide_True.
      + rewrite decide_False; [done|].
        intros (x & Hid & [Hx Hin]%list_elem_of_filter)%list_elem_of_fmap.
        by rewrite (NoDup_key_inj Transaction._id (transactions db) t x)
          in Hneeds.
    - apply (sublist_NoDup _ _ Hnd).
      apply (fmap_sublist Transaction._id), sublist_filter.
    - intros x [_ Hx]%list_elem_of_filter Hid.
      by apply (NoDup_key_inj Transaction._id (transactions db)). }
  unfold updateTransactionAppTypes.
  destruct (decide _) as [Hnone|Hsome]; cbn [snd].
  - apply length_zero_iff_nil in Hnone.
    assert (assignAppType toLowerCase db <$> transactions db
            = transactions db) as ->; [|by destruct db].
    rewrite <-(list_fmap_id (transactions db)) at 2.
    apply list_fmap_ext. intros i t Ht.
    rewrite <-Hassign by by eapply list_elem_of_lookup_2.
    by rewrite Hnone.
  - rewrite appTypeLoop_db by done. cbn [loop_db]. f_equal.
    apply list_fmap_ext. intros i t Ht. apply Hassign.
    by eapply list_elem_of_lookup_2.
Qed.

Lemma assignAppType_id db t :
  Transaction._id (assignAppType toLowerCase db t) = Transaction._id t.
Proof.
  unfold assignAppType. destruct (decide _); [|done].
  by destruct (appTypeFor _ _ _).
Qed.

(** X20. With distinct transaction [_id]s, the run gives an app type to
    exactly the transactions that have none, carry a [requested_by] and
    name an app type of the collection by it; it changes nothing else of
    them, leaves every other transaction as it is, in particular every
    transaction that already has an app type, and touches no other
    collection. *)
Theorem X20_app_type_update_fills_only_missing_app_types (db : Db) :
  NoDup (Transaction._id <$> transactions db) →
  plainAppNames toLowerCase db →
  let db' := snd (updateTransactionAppTypes toLowerCase castErrorMessage db) in
  db' = with_transactions (assignAppType toLowerCase db <$> transactions db) db
  ∧ (∀ (i : nat) t,
       transactions db !! i = Some t →
       is_Some (Transaction.app_type t) →
       transactions db' !! i = Some t)
  ∧ (∀ (i : nat) t t',
       transactions db !! i = Some t → transactions db' !! i = Some t' →
       t' = t
       ∨ Transaction.app_type t = None
         ∧ ∃ appTypeId app,
             t' = Transaction_set_app_type appTypeId t
             ∧ app ∈ appTypes db ∧ AppType._id app = appTypeId).
Proof.
  intros Hnd _ db'. subst db'. rewrite updateTransactionAppTypes_db by done.
  split; [done|]. cbn [transactions with_transactions]. split.
  - intros i t Ht [a Ha]. rewrite list_lookup_fmap, Ht. cbn.
    unfold assignAppType. rewrite decide_False; [done|].
    intros [Hnone _]. congruence.
  - intros i t t' Ht. rewrite list_lookup_fmap, Ht. cbn. intros [= <-].
    unfold assignAppType. destruct (decide _) as [[Hnone _]|]; [|by left].
    destruct (appTypeFor toLowerCase db t) as [appTypeId|] eqn:Hfor;
      [|by left].
    right. split; [done|]. unfold appTypeFor in Hfor.
    rewrite buildAppTypeMap_lookup in Hfor.
    destruct (last _) as [app|] eqn:Hlast; [|done].
    injection Hfor as <-. exists (AppType._id app), app.
    split; [done|]. split; [|done].
    apply last_Some_elem_of in Hlast.
    by apply list_elem_of_filter in Hlast as [_ ?].
Qed.

Lemma appTypeLoop_success appTypeMap todo : ∀ st,
  (∀ x, x ∈ todo →
        appTypeMap
        !! trim (toLowerCase
                   (default "" (requested_by_of (Transaction.metadata x))))
        = None) →
  successCount
    (foldl (appTypeStep toLowerCase castErrorMessage appTypeMap) st todo)
  = successCount st.
Proof.
  induction todo as [|x todo IH]; intros st Hmiss; [done|].
  cbn [foldl]. rewrite IH by (intros y Hy; apply Hmiss; by right).
  unfold appTypeStep. by rewrite (Hmiss x) by left.
Qed.

Lemma appTypeLoop_failed appTypeMap todo : ∀ st,
  failCount
    (foldl (appTypeStep toLowerCase castErrorMessage appTypeMap) st todo)
  = failCount st
    + Z.of_nat
        (length
           (filter
              (λ x, appTypeMap
                    !! trim (toLowerCase
                               (default ""
                                  (requested_by_of (Transaction.metadata x))))
                    = None)
              todo)).
Proof.
  induction todo as [|x todo IH]; intros st; [cbn; lia|].
  cbn [foldl]. rewrite IH, filter_cons.
  destruct (decide _) as [Hkey|Hkey]; cbn beta in Hkey; unfold appTypeStep.
  - rewrite Hkey. cbn [failCount length]. lia.
  - destruct (appTypeMap !! _); [cbn [failCount]; lia|done].
Qed.

Lemma assignAppType_needs db t :
  needsAppType (assignAppType toLowerCase db t)
  ↔ needsAppType t ∧ appTypeFor toLowerCase db t = None.
Proof.
  unfold assignAppType. destruct (decide (needsAppType t)) as [Hneeds|Hneeds].
  - destruct (appTypeFor toLowerCase db t) as [appTypeId|] eqn:Hfor.
    + split; [|by intros [_ ?]]. by intros [? _].
    + tauto.
  - tauto.
Qed.

Lemma assignAppType_appTypeFor db db' t :
  appTypes db' = appTypes db →
  appTypeFor toLowerCase db' (assignAppType toLowerCase db t)
  = appTypeFor toLowerCase db t.
Proof.
  intros Happs. unfold assignAppType, appTypeFor. rewrite Happs.
  destruct (decide _); [|done].
  destruct (buildAppTypeMap toLowerCase (appTypes db)
            !! trim (toLowerCase
                       (default ""
                          (requested_by_of (Transaction.metadata t)))))
    eqn:Hkey; cbn [Transaction.metadata Transaction_set_app_type];
    by rewrite Hkey.
Qed.

Lemma assignAppType_idem db db' t :
  appTypes db' = appTypes db →
  assignAppType toLowerCase db' (assignAppType toLowerCase db t)
  = assignAppType toLowerCase db t.
Proof.
  intros Happs. unfold assignAppType at 1.
  destruct (decide _) as [Hneeds|]; [|done].
  apply assignAppType_needs in Hneeds as [_ Hmiss].
  by rewrite (assignAppType_appTypeFor _ _ _ Happs), Hmiss.
Qed.

(** X21. Running the update again changes nothing: with distinct
    transaction [_id]s the second run finds exactly the transactions the
    first run counted as failed, updates none of them and leaves the
    database as the first run left it. *)
Theorem X21_second_app_type_update_changes_nothing (db : Db) :
  NoDup (Transaction._id <$> transactions db) →
  plainAppNames toLowerCase db →
  let first := updateTransactionAppTypes toLowerCase castErrorMessage db in
  let second :=
    updateTransactionAppTypes toLowerCase castErrorMessage (snd first) in
  snd second = snd first
  ∧ reportSuccess (report_data (fst second)) = 0
  ∧ reportTotal (report_data (fst second))
    = reportFailed (report_data (fst first)).
Proof.
  intros Hnd _ first second.
  assert (Hfirst : snd first
            = with_transactions
                (assignAppType toLowerCase db <$> transactions db) db)
    by by apply updateTransactionAppTypes_db.
  set (db1 := snd first) in *.
  assert (Happs : appTypes db1 = appTypes db) by by rewrite Hfirst.
  assert (Hts : transactions db1
                = assignAppType toLowerCase db <$> transactions db)
    by by rewrite Hfirst.
  assert (Hnd1 : NoDup (Transaction._id <$> transactions db1)).
  { rewrite Hts, <-list_fmap_compose.
    erewrite list_fmap_ext; [exact Hnd|].
    intros i t _. apply assignAppType_id. }
  assert (Hmiss : ∀ x, x ∈ filter needsAppType (transactions db1) →
            appTypeFor toLowerCase db1 x = None).
  { intros x [Hneeds Hx]%list_elem_of_filter. rewrite Hts in Hx.
    apply list_elem_of_fmap in Hx as (t & -> & _).
    rewrite (assignAppType_appTypeFor _ _ _ Happs).
    by apply assignAppType_needs in Hneeds as [_ ?]. }
  split; [|split].
  - subst second. rewrite updateTransactionAppTypes_db by done.
    assert (assignAppType toLowerCase db1 <$> transactions db1
            = transactions db1) as ->; [|by destruct db1].
    rewrite Hts, <-list_fmap_compose.
    apply list_fmap_ext. intros i t _. cbn.
    by apply assignAppType_idem.
  - subst second. unfold updateTransactionAppTypes.
    destruct (decide _); [done|]. cbn [fst report_data reportSuccess].
    by rewrite appTypeLoop_success.
  - assert (Hcount : length (filter needsAppType (transactions db1))
              = length (filter
                          (λ t, appTypeFor toLowerCase db t = None)
                          (filter needsAppType (transactions db)))).
    { rewrite Hts. clear. induction (transactions db) as [|t l IH]; [done|].
      rewrite fmap_cons, !filter_cons.
      destruct (decide (needsAppType (assignAppType toLowerCase db t)))
        as [Hn|Hn].
      - apply assignAppType_needs in Hn as Hn'. destruct Hn' as [Hneeds Hm].
        rewrite (decide_True _ _ Hneeds), filter_cons, decide_True by done.
        cbn. by rewrite IH.
      - destruct (decide (needsAppType t)) as [Hneeds|Hneeds]; [|done].
        rewrite filter_cons, decide_False; [done|].
        intros Hm. apply Hn. by apply assignAppType_needs. }
    assert (Htotal : reportTotal (report_data (fst second))
              = Z.of_nat (length (filter needsAppType (transactions db1)))).
    { subst second. unfold updateTransactionAppTypes.
      destruct (decide _) as [Hnone|]; [|done]. by rewrite Hnone. }
    rewrite Htotal, Hcount.
    subst db1 first. unfold updateTransactionAppTypes.
    destruct (decide _) as [Hnone|Hsome]; cbn [fst report_data reportFailed].
    + apply length_zero_iff_nil in Hnone. by rewrite Hnone.
    + by rewrite appTypeLoop_failed.
Qed.

(** X22. When several app types have the same lowercased name, the one
    that comes last in the collection is the one the run assigns; a
    transaction whose [requested_by] names no app type keeps its missing
    app type. *)
Theorem X22_app_type_update_takes_the_last_namesake
    (db : Db) (i : nat) (t : Transaction.doc) :
  NoDup (Transaction._id <$> transactions db) →
  plainAppNames toLowerCase db →
  transactions db !! i = Some t →
  needsAppType t →
  let key :=
    trim (toLowerCase
            (default "" (requested_by_of (Transaction.metadata t)))) in
  let db' := snd (updateTransactionAppTypes toLowerCase castErrorMessage db) in
  transactions db' !! i
  = Some (match last (namedLike toLowerCase key (appTypes db)) with
          | Some app => Transaction_set_app_type (AppType._id app) t
          | None => t
          end).
Proof.
  intros Hnd _ Ht Hneeds key db'. subst db'.
  rewrite updateTransactionAppTypes_db by done.
  cbn [transactions with_transactions]. rewrite list_lookup_fmap, Ht. cbn.
  unfold assignAppType, appTypeFor. rewrite decide_True by done.
  rewrite buildAppTypeMap_lookup. fold key.
  by destruct (last _).
Qed.

End AppTypes.
(** ** What a bulk grant adds up to *)

Section BulkAccounts.
Context `{Host}.

(** X23. A bulk upload answered with 200 records one completed ["earn"]
    transaction per row, in sheet order, and raises the sum of the
    balances and the sum of the coins by the points of all rows. The
    ledger grows by at most one active entry per row, in order: a row
    whose ledger entry could not be created is still granted. *)
Theorem X23_bulk_grant_adds_up
    (req : BulkRequest) (now : Z) (db : Db) (rows : list RawRow) :
  tierCheckOnlyMovesTiers →
  bulk_file req = Some (Sheet rows) →
  res_status (fst (addPointsBulk req now db)) = 200 →
  let accepted := rowsAccepted (rowOutcomes 0 rows db) in
  let db' := snd (addPointsBulk req now db) in
  length accepted = length rows
  ∧ (∃ granted later,
       transactions db' = transactions db ++ granted ++ later
       ∧ grantView <$> granted = rowGrant <$> accepted)
  ∧ totalPoints db' = totalPoints db + sumRowPoints accepted
  ∧ totalCoins db' = totalCoins db + sumRowPoints accepted
  ∧ ∃ added,
      loyaltyPoints db' = loyaltyPoints db ++ added
      ∧ (ledgerView <$> added) `sublist_of` (rowLedger <$> accepted).
Proof.
  intros Htier Hfile. cbv zeta. unfold addPointsBulk. rewrite Hfile.
  destruct (decide _); [done|].
  destruct rows as [|first rest] eqn:Hrows; [done|]. rewrite <-Hrows.
  rewrite validationLoop_outcomes. cbn [app].
  destruct (bool_decide_reflect (rowErrors (rowOutcomes 0 rows db) = []))
    as [Herrors|]; [|done]. cbn [negb].
  destruct (rowOutcomes_no_errors rows db 0 Herrors) as [Hvalid _].
  destruct (rowOutcomes_all_valid rows db 0 Hvalid)
    as (_ & Hlength & Hcustomers).
  set (accepted := rowsAccepted (rowOutcomes 0 rows db)) in *.
  destruct (findAppType _ db) as [?|requestedAppType]; [done|].
  destruct (grantLoop_ledger
              (normalizeString (bulk_requested_by req))
              (AppType._id <$> requestedAppType) now accepted [] db)
    as (details & db1 & -> & (added & Hledger & Hadded & _)
        & (granted & Hlog & Hview) & Htotal & Hcoins).
  { intros r Hr. apply list_elem_of_fmap_2. by apply Hcustomers. }
  intros _. cbn [snd].
  destruct (tierCheckLoop_frame accepted db1 Htier)
    as (Hledger' & [later Hlog'] & Hbalances).
  split; [done|]. split; [|split; [|split]].
  - exists granted, later. split; [|done].
    by rewrite Hlog', Hlog, <-app_assoc.
  - by rewrite (totalPoints_balances _ _ Hbalances).
  - by rewrite (totalCoins_balances _ _ Hbalances).
  - exists added. split; [congruence|done].
Qed.

End BulkAccounts.
(** ** One tier change per customer and run *)

Section JobOnce.
Context `{Host}.

Lemma applyTierAction_tierMoves c now a db j :
  (tierMovesFor j db ≤ tierMovesFor j (applyTierAction c now a db)
   ≤ tierMovesFor j db + 1)%nat
  ∧ (Customer._id c ≠ j →
     tierMovesFor j (applyTierAction c now a db) = tierMovesFor j db).
Proof.
  unfold tierMovesFor. rewrite !applyTierAction_countFor. split.
  - destruct a; cbn [actionType]; repeat case_decide; try lia;
      exfalso; intuition congruence.
  - intros Hc. rewrite !decide_False; [lia|by intros [? _]..].
Qed.

Lemma tierLoop_once bronzeTier sorted now j populated : ∀ db,
  NoDup ((λ pc, Customer._id pc.1) <$> populated) →
  let db' := foldl (processCustomer bronzeTier sorted now) db populated in
  (tierMovesFor j db ≤ tierMovesFor j db' ≤ tierMovesFor j db + 1)%nat.
Proof.
  induction populated as [|[c t] populated IH]; intros db Hnd; cbv zeta.
  - cbn. lia.
  - rewrite fmap_cons in Hnd. apply NoDup_cons in Hnd as [Hc Hnd].
    cbn [foldl]. rewrite processCustomer_eq.
    set (a := tierAction bronzeTier sorted c t now db).
    destruct (applyTierAction_tierMoves c now a db j) as [Hstep Hother].
    destruct (decide (Customer._id c = j)) as [<-|Hj].
    + destruct (tierLoop_other bronzeTier sorted now (Customer._id c)
                  populated (applyTierAction c now a db) Hc) as [_ Hsame].
      cbv zeta in Hsame. unfold tierMovesFor in *. rewrite !Hsame. lia.
    + specialize (IH (applyTierAction c now a db) Hnd). cbv zeta in IH.
      specialize (Hother Hj). lia.
Qed.

(** X24. With distinct customer [_id]s a run changes a customer's tier at
    most once: for each customer it records at most one tier transaction,
    a downgrade or a protection adjustment, never both. *)
Theorem X24_job_moves_a_customer_at_most_once
    (now : Z) (db : Db) (j : ObjectId) :
  NoDup (Customer._id <$> customers db) →
  (tierMovesFor j db ≤ tierMovesFor j (processPointsAndTiers now db)
   ≤ tierMovesFor j db + 1)%nat.
Proof.
  intros Hnd.
  destruct (bronzeTierOf (sortedTiers db)) as [bronzeTier|] eqn:Hbronze.
  - rewrite (processPointsAndTiers_committed _ _ _ Hbronze).
    destruct (expireSweep_frame now db) as (_ & _ & _ & Hids & _ & Hcount).
    assert (Hnd1 : NoDup (Customer._id <$> customers (expireSweep now db)))
      by by rewrite Hids.
    assert (Honce := tierLoop_once bronzeTier (sortedTiers db) now j
                       (customersToCheck bronzeTier (expireSweep now db))
                       (expireSweep now db)
                       (customersToCheck_ids _ _ Hnd1)).
    cbv zeta in Honce. unfold tierMovesFor in *.
    rewrite !Hcount in Honce by done. exact Honce.
  - rewrite (processPointsAndTiers_aborted _ _ Hbronze). lia.
Qed.

End JobOnce.
(** ** Worked instances of the further properties *)

Lemma X1_witness_redeeming_60_of_150 :
  NoDup (LoyaltyPoints._id <$> loyaltyPoints twoEntriesDb)
  ∧ 0 ≤ 60 ≤ availableSum 1%N (day 6) twoEntriesDb
  ∧ availableSum 1%N (day 6)
      (snd (redeemPointsFIFO 1%N 60 (day 6) twoEntriesDb))
    = 90
  ∧ usedTotal
      (usedLoyaltyPoints (fst (redeemPointsFIFO 1%N 60 (day 6) twoEntriesDb)))
    = 60.
Proof.
  assert (Hnd : NoDup (LoyaltyPoints._id <$> loyaltyPoints twoEntriesDb))
    by by_computation.
  assert (Hamount : 0 ≤ 60 ≤ availableSum 1%N (day 6) twoEntriesDb)
    by by_computation.
  destruct (X1_redemption_takes_exactly_the_amount 1%N 60 (day 6)
              twoEntriesDb Hnd Hamount) as (Hsum & Hused & _).
  split; [exact Hnd|]. split; [exact Hamount|]. split; [|exact Hused].
  etrans; [exact Hsum|]. vm_compute. reflexivity.
Defined.

Lemma X2_witness_reducing_25_of_150 :
  NoDup (LoyaltyPoints._id <$> loyaltyPoints twoEntriesDb)
  ∧ res_status
      (fst (reducePoints (H := demoHost) reversal (day 6) twoEntriesDb))
    = 200
  ∧ availableSum 1%N (day 6)
      (snd (reducePoints (H := demoHost) reversal (day 6) twoEntriesDb))
    = 125.
Proof.
  assert (Hnd : NoDup (LoyaltyPoints._id <$> loyaltyPoints twoEntriesDb))
    by by_computation.
  assert (Hok : res_status
                  (fst (reducePoints (H := demoHost) reversal (day 6)
                          twoEntriesDb)) = 200)
    by (vm_compute; reflexivity).
  destruct (X2_reduction_keeps_ledger_and_balance_in_step (H := demoHost)
              reversal (day 6) twoEntriesDb Hnd Hok) as (Hsum & _).
  split; [exact Hnd|]. split; [exact Hok|].
  etrans; [exact Hsum|]. vm_compute. reflexivity.
Defined.

Lemma X5_witness_due_entry_without_tiers :
  tiers twoEntriesDb = []
  ∧ expiredPoints (day 20) twoEntriesDb = [entryDay1]
  ∧ processPointsAndTiers (H := demoHost) (day 20) twoEntriesDb
    = twoEntriesDb.
Proof.
  split; [reflexivity|]. split; [vm_compute; reflexivity|].
  exact (proj1 (X5_job_without_tiers_changes_nothing (H := demoHost) (day 20)
                  twoEntriesDb eq_refl)).
Defined.

Lemma X6_witness_bronze_customer_with_silver_minimum :
  NoDup (Customer._id <$> customers priorityDb)
  ∧ bronzeTierOf (sortedTiers priorityDb) = Some bronze
  ∧ Customer.tier atBronze = Some (Tier._id bronze)
  ∧ tierOf 1%N (processPointsAndTiers (H := demoHost) (day 6) priorityDb)
    = Some (Some 100%N)
  ∧ countFor 1%N "tier_protection_adjustment"
      (processPointsAndTiers (H := demoHost) (day 6) priorityDb)
    = 0%nat.
Proof.
  assert (Hnd : NoDup (Customer._id <$> customers priorityDb))
    by by_computation.
  assert (Hbronze : bronzeTierOf (sortedTiers priorityDb) = Some bronze)
    by (vm_compute; reflexivity).
  assert (Hin : atBronze ∈ customers priorityDb) by left.
  destruct (X6_base_tier_and_unresolved_customers_are_passed_over
              (H := demoHost) (day 6) priorityDb bronze atBronze
              Hnd Hbronze Hin (or_introl eq_refl)) as [Htier Hcount].
  split; [exact Hnd|]. split; [exact Hbronze|]. split; [reflexivity|].
  split; [exact Htier|].
  etrans; [apply Hcount; discriminate|]. vm_compute. reflexivity.
Defined.

Lemma X7_witness_silver_customer_raised_to_gold :
  tierMove (ProtectionUpgrade silver gold) = Some (silver, gold)
  ∧ Tier.hierarchy_level gold ≠ Tier.hierarchy_level silver
  ∧ actionType (ProtectionUpgrade silver gold)
    = Some "tier_protection_adjustment".
Proof.
  assert (Hin : (atSilver, ProtectionUpgrade silver gold)
                ∈ tierTrace bronze (sortedTiers priorityDb)
                    (day 6) priorityDb (customersToCheck bronze priorityDb)).
  { vm_compute. left. }
  destruct (X7_job_raises_only_by_protection bronze
              (sortedTiers priorityDb) (day 6)
              (customersToCheck bronze priorityDb) priorityDb atSilver
              (ProtectionUpgrade silver gold) silver gold Hin eq_refl)
    as (_ & Hlevel & Hup & _).
  split; [reflexivity|]. split; [exact Hlevel|].
  apply Hup. vm_compute. reflexivity.
Defined.

Lemma X8_witness_gold_customer_with_40_points :
  bronze ∈ tiers protectedGoldDb
  ∧ Tier.hierarchy_level bronze < Tier.hierarchy_level gold
  ∧ checkTierRetentionEligibility goldWith40 bronze (day 6) protectedGoldDb
    = true
  ∧ checkTierRetentionEligibility goldWith40 silver (day 6) protectedGoldDb
    = false
  ∧ ∃ t,
      scanTiers goldWith40 gold (day 6) protectedGoldDb
        (sortedTiers protectedGoldDb)
      = Some t
      ∧ Tier.hierarchy_level bronze ≤ Tier.hierarchy_level t
      ∧ Tier.hierarchy_level t < Tier.hierarchy_level gold.
Proof.
  assert (Hin : bronze ∈ tiers protectedGoldDb) by left.
  assert (Hlow : Tier.hierarchy_level bronze < Tier.hierarchy_level gold)
    by (vm_compute; reflexivity).
  assert (Hok : checkTierRetentionEligibility goldWith40 bronze (day 6)
                  protectedGoldDb = true)
    by (vm_compute; reflexivity).
  assert (Hid : Tier._id bronze ≠ Tier._id gold) by (vm_compute; discriminate).
  split; [exact Hin|]. split; [exact Hlow|]. split; [exact Hok|].
  split; [vm_compute; reflexivity|].
  destruct (X8_scan_stops_at_the_highest_passing_tier goldWith40 gold bronze
              (day 6) protectedGoldDb Hin Hid Hlow Hok)
    as (t & Hscan & _ & Hbelow & _ & Hhighest).
  exists t. split; [exact Hscan|]. split; [|exact Hbelow].
  exact (Hhighest bronze Hin Hid Hlow Hok).
Defined.

Lemma X9_witness_overdrawn_silver_customer :
  is_Some (findCriteria silver criteriaDb)
  ∧ Customer.total_points overdrawn < 0
  ∧ checkTierRetentionEligibility overdrawn silver (day 100)
      criteriaDb
    = true.
Proof.
  assert (Hcriteria : is_Some (findCriteria silver criteriaDb))
    by (vm_compute; eauto).
  assert (Hneg : Customer.total_points overdrawn < 0)
    by (vm_compute; reflexivity).
  destruct (X9_negative_balance_is_never_downgraded bronze
              (sortedTiers criteriaDb) overdrawn silver (day 100) criteriaDb
              Hcriteria Hneg) as (_ & Hok & _).
  split; [exact Hcriteria|]. split; [exact Hneg|exact Hok].
Defined.

Lemma X10_witness_reduction_recorded :
  ¬ completedEarnOf (Customer._id atSilver) reductionRecord
  ∧ checkTierRetentionEligibility atSilver silver (day 100)
      (recorded reductionRecord criteriaDb)
    = checkTierRetentionEligibility atSilver silver (day 100)
        criteriaDb.
Proof.
  assert (Hother : ¬ completedEarnOf (Customer._id atSilver) reductionRecord).
  { intros (_ & Htype & _). vm_compute in Htype. discriminate Htype. }
  split; [exact Hother|].
  exact (proj2 (X10_retention_reads_only_completed_earnings
                  atSilver silver (day 100) criteriaDb reductionRecord
                  Hother)).
Defined.

Lemma X11_witness_steady_earner_earns_again :
  0 ≤ Transaction.points laterEarn
  ∧ retentionReturn atSilver silver (day 100) steadyEarnerDb
    = ReturnPeriodsChecked true
  ∧ checkTierRetentionEligibility atSilver silver (day 100)
      (recorded laterEarn steadyEarnerDb)
    = true.
Proof.
  assert (Hpoints : 0 ≤ Transaction.points laterEarn) by by_computation.
  assert (Hok : checkTierRetentionEligibility atSilver silver (day 100)
                  steadyEarnerDb = true)
    by (vm_compute; reflexivity).
  split; [exact Hpoints|]. split; [vm_compute; reflexivity|].
  exact (X11_further_earnings_never_cost_the_tier atSilver silver (day 100)
           steadyEarnerDb laterEarn Hpoints Hok).
Defined.

Lemma X12_witness_grant_requested_by_a_star :
  res_status (fst (addPointsIndividual (H := demoHost) starGrant (day 6)
                     grantDb)) ≠ 201
  ∧ findAppType (H := demoHost) (JsString (add_requested_by starGrant))
      grantDb
    = inl "Invalid regular expression: /^*$/i: Nothing to repeat"
  ∧ snd (addPointsIndividual (H := demoHost) starGrant (day 6) grantDb)
    = grantDb
  ∧ fst (addPointsIndividual (H := demoHost) starGrant (day 6) grantDb)
    = response_handler 500 "Failed to add manual points"
        (DataText "Invalid regular expression: /^*$/i: Nothing to repeat").
Proof.
  assert (Hrefused :
    res_status (fst (addPointsIndividual (H := demoHost) starGrant (day 6)
                       grantDb)) ≠ 201)
    by (vm_compute; discriminate).
  assert (Hthrows :
    findAppType (H := demoHost) (JsString (add_requested_by starGrant))
      grantDb
    = inl "Invalid regular expression: /^*$/i: Nothing to repeat")
    by (vm_compute; reflexivity).
  destruct (X12_refused_grant_changes_nothing (H := demoHost) starGrant
              (day 6) grantDb Hrefused) as (Hsame & _ & _ & Hanswer).
  split; [exact Hrefused|]. split; [exact Hthrows|]. split; [exact Hsame|].
  apply (Hanswer grantCustomer welcomeBonus 25 (mkRule "fixed" (Some 25)));
    [vm_compute; reflexivity..|exact Hthrows].
Defined.

Lemma X13_witness_reduction_requested_by_a_star :
  res_status (fst (reducePoints (H := demoHost) starReduction (day 6)
                     twoEntriesDb)) ≠ 200
  ∧ LoyaltyPoints.points
    <$> LoyaltyPoints_findById 10%N
          (snd (redeemPointsFIFO 1%N 25 (day 6) twoEntriesDb))
    = Some 25
  ∧ snd (reducePoints (H := demoHost) starReduction (day 6) twoEntriesDb)
    = twoEntriesDb
  ∧ fst (reducePoints (H := demoHost) starReduction (day 6) twoEntriesDb)
    = response_handler 500 "Failed to reduce manual points"
        (DataText "Invalid regular expression: /^*$/i: Nothing to repeat").
Proof.
  assert (Hrefused :
    res_status (fst (reducePoints (H := demoHost) starReduction (day 6)
                       twoEntriesDb)) ≠ 200)
    by (vm_compute; discriminate).
  destruct (X13_refused_reduction_changes_nothing (H := demoHost)
              starReduction (day 6) twoEntriesDb Hrefused)
    as (Hsame & _ & Hanswer).
  split; [exact Hrefused|]. split; [vm_compute; reflexivity|].
  split; [exact Hsame|].
  apply (Hanswer (Customer.mk 1%N "CUST000001" None 150 150));
    [vm_compute; reflexivity|by_computation|vm_compute; reflexivity].
Defined.

Lemma X14_witness_sheet_with_negative_points :
  res_status (fst (addPointsBulk (H := demoHost) (bulkUpload threeRows)
                     (day 6) grantDb)) ≠ 200
  ∧ snd (addPointsBulk (H := demoHost) (bulkUpload threeRows) (day 6) grantDb)
    = grantDb.
Proof.
  assert (Hrefused :
    res_status (fst (addPointsBulk (H := demoHost) (bulkUpload threeRows)
                       (day 6) grantDb)) ≠ 200)
    by (vm_compute; discriminate).
  split; [exact Hrefused|].
  exact (proj1 (X14_refused_bulk_upload_changes_nothing (H := demoHost)
                  (bulkUpload threeRows) (day 6) grantDb Hrefused)).
Defined.

Lemma X15_witness_sheet_of_two_rows :
  res_status (fst (addPointsBulk (H := demoHost) (bulkUpload twoRows) (day 6)
                     grantDb)) = 200
  ∧ ∃ rows details,
      bulk_file (bulkUpload twoRows) = Some (Sheet rows)
      ∧ res_data (fst (addPointsBulk (H := demoHost) (bulkUpload twoRows)
                         (day 6) grantDb))
        = DataBulk (Z.of_nat (length rows)) (Z.of_nat (length rows)) details
      ∧ detail_row <$> details = seqZ 2 (Z.of_nat (length rows)).
Proof.
  assert (Hok :
    res_status (fst (addPointsBulk (H := demoHost) (bulkUpload twoRows)
                       (day 6) grantDb)) = 200)
    by (vm_compute; reflexivity).
  split; [exact Hok|].
  destruct (X15_accepted_bulk_upload_reports_every_row (H := demoHost)
              (bulkUpload twoRows) (day 6) grantDb Hok)
    as (rows & details & Hfile & _ & _ & Hdata & Hnumbers).
  exists rows, details. split; [exact Hfile|]. split; [exact Hdata|].
  exact Hnumbers.
Defined.

Lemma X17_witness_welcome_bonus :
  getManualPointsForCriteria welcomeBonus
  = inr (25, mkRule "fixed" (Some 25))
  ∧ ∃ pointSystem,
      PointCriteria.pointSystem welcomeBonus = Some pointSystem
      ∧ mkRule "fixed" (Some 25) ∈ pointSystem
      ∧ 0 < 25.
Proof.
  assert (Hrule : getManualPointsForCriteria welcomeBonus
                  = inr (25, mkRule "fixed" (Some 25)))
    by (vm_compute; reflexivity).
  split; [exact Hrule|].
  destruct (X17_manual_points_come_from_the_first_fixed_rule welcomeBonus 25
              (mkRule "fixed" (Some 25)) Hrule)
    as (pointSystem & Hsystem & Hin & _ & Hpos & _).
  exists pointSystem. split; [exact Hsystem|]. split; [exact Hin|exact Hpos].
Defined.

Lemma X18_witness_welcome_grant :
  tierCheckOnlyMovesTiers (H := demoHost)
  ∧ res_status (fst (addPointsIndividual (H := demoHost) welcomeGrant (day 6)
                       grantDb)) = 201
  ∧ length (loyaltyPoints afterGrant) = 3%nat
  ∧ ∃ t balance N,
      res_data (fst (addPointsIndividual (H := demoHost) welcomeGrant (day 6)
                       grantDb))
      = DataAdded t balance N
      ∧ Transaction.points t = N.
Proof.
  assert (Hok :
    res_status (fst (addPointsIndividual (H := demoHost) welcomeGrant (day 6)
                       grantDb)) = 201)
    by (vm_compute; reflexivity).
  split; [exact demoHost_tierCheck|]. split; [exact Hok|].
  split; [vm_compute; reflexivity|].
  destruct (X18_grant_adds_at_most_one_matching_ledger_entry (H := demoHost)
              welcomeGrant (day 6) grantDb demoHost_tierCheck Hok)
    as (t & balance & N & Hdata & _ & Hpoints & _).
  exists t, balance, N. split; [exact Hdata|exact Hpoints].
Defined.

Lemma X20_witness_transaction_with_app_type_kept :
  NoDup (Transaction._id <$> transactions appTypeDb)
  ∧ plainAppNames lowerCase appTypeDb
  ∧ transactions afterAppTypeUpdate !! 1%nat = Some byMobile.
Proof.
  assert (Hnd : NoDup (Transaction._id <$> transactions appTypeDb))
    by by_computation.
  assert (Hplain : plainAppNames lowerCase appTypeDb)
    by (unfold plainAppNames; by_computation).
  destruct (X20_app_type_update_fills_only_missing_app_types lowerCase
              castError appTypeDb Hnd Hplain) as (_ & Hkept & _).
  split; [exact Hnd|]. split; [exact Hplain|].
  apply (Hkept 1%nat byMobile); [reflexivity|by eexists].
Defined.

Lemma X21_witness_second_run_finds_the_kiosk_transaction :
  NoDup (Transaction._id <$> transactions appTypeDb)
  ∧ plainAppNames lowerCase appTypeDb
  ∧ snd (updateTransactionAppTypes lowerCase castError afterAppTypeUpdate)
    = afterAppTypeUpdate
  ∧ reportTotal
      (report_data
         (fst (updateTransactionAppTypes lowerCase castError
                 afterAppTypeUpdate)))
    = 1.
Proof.
  assert (Hnd : NoDup (Transaction._id <$> transactions appTypeDb))
    by by_computation.
  assert (Hplain : plainAppNames lowerCase appTypeDb)
    by (unfold plainAppNames; by_computation).
  destruct (X21_second_app_type_update_changes_nothing lowerCase castError
              appTypeDb Hnd Hplain) as (Hsame & _ & Htotal).
  split; [exact Hnd|]. split; [exact Hplain|]. split; [exact Hsame|].
  etrans; [exact Htotal|]. vm_compute. reflexivity.
Defined.

Lemma X22_witness_web_requested_with_two_namesakes :
  NoDup (Transaction._id <$> transactions appTypeDb)
  ∧ plainAppNames lowerCase appTypeDb
  ∧ needsAppType byWeb
  ∧ transactions afterAppTypeUpdate !! 0%nat
    = Some (Transaction_set_app_type 72%N byWeb).
Proof.
  assert (Hnd : NoDup (Transaction._id <$> transactions appTypeDb))
    by by_computation.
  assert (Hplain : plainAppNames lowerCase appTypeDb)
    by (unfold plainAppNames; by_computation).
  assert (Hneeds : needsAppType byWeb) by by_computation.
  split; [exact Hnd|]. split; [exact Hplain|]. split; [exact Hneeds|].
  etrans; [exact (X22_app_type_update_takes_the_last_namesake lowerCase
                    castError appTypeDb 0%nat byWeb Hnd Hplain eq_refl
                    Hneeds)|].
  vm_compute. reflexivity.
Defined.

Lemma X23_witness_sheet_of_two_rows_adds_150 :
  tierCheckOnlyMovesTiers (H := demoHost)
  ∧ res_status (fst (addPointsBulk (H := demoHost) (bulkUpload twoRows) (day 6)
                       grantDb)) = 200
  ∧ totalPoints
      (snd (addPointsBulk (H := demoHost) (bulkUpload twoRows) (day 6)
              grantDb))
    = 300
  ∧ totalCoins
      (snd (addPointsBulk (H := demoHost) (bulkUpload twoRows) (day 6)
              grantDb))
    = 300.
Proof.
  assert (Hok :
    res_status (fst (addPointsBulk (H := demoHost) (bulkUpload twoRows)
                       (day 6) grantDb)) = 200)
    by (vm_compute; reflexivity).
  destruct (X23_bulk_grant_adds_up (H := demoHost) (bulkUpload twoRows)
              (day 6) grantDb twoRows demoHost_tierCheck eq_refl Hok)
    as (_ & _ & Htotal & Hcoins & _).
  split; [exact demoHost_tierCheck|]. split; [exact Hok|]. split.
  - etrans; [exact Htotal|]. vm_compute. reflexivity.
  - etrans; [exact Hcoins|]. vm_compute. reflexivity.
Defined.

Lemma X24_witness_silver_customer_moved_once :
  NoDup (Customer._id <$> customers priorityDb)
  ∧ (tierMovesFor 2%N (processPointsAndTiers (H := demoHost) (day 6)
                         priorityDb)
     ≤ tierMovesFor 2%N priorityDb + 1)%nat.
Proof.
  assert (Hnd : NoDup (Customer._id <$> customers priorityDb))
    by by_computation.
  split; [exact Hnd|].
  exact (proj2 (X24_job_moves_a_customer_at_most_once (H := demoHost) (day 6)
                  priorityDb 2%N Hnd)).
Defined.
